(** * LC-3 virtual machine (LC3.c): shallow embedding and verified properties

    The machine of [LC3.c] is embedded as it is written: two global arrays
    ([memory], 65536 words, and [reg], [R_COUNT] words), 16-bit unsigned
    words as [Z] with the wrap-around written out, and the body of [main]'s
    [while] loop as a monadic program over the machine state and the host's
    character input.  The console (the Windows calls behind [check_key] and
    [getchar]) is an interface, [Provider]; bytes written to [stdout] are
    collected in the machine state. *)

From Stdlib Require Import ZArith Lia String Ascii.
From stdpp Require Import base option list gmap.

Local Open Scope Z_scope.

(** ** Words *)

(** A [uint16_t] is a [Z] in [0, 65536); storing a C [int] into a
    [uint16_t] object keeps the value modulo 2^16. *)
Definition u16 (z : Z) : Z := z mod 65536.

(** [#define MEMORY_MAX (1 << 16)] *)
Definition MEMORY_MAX : Z := Z.shiftl 1 16.

(** ** Enumerations of the source *)

Definition MR_KBSR : Z := 0xFE00.
Definition MR_KBDR : Z := 0xFE02.

Definition TRAP_GETC : Z := 0x20.
Definition TRAP_OUT : Z := 0x21.
Definition TRAP_PUTS : Z := 0x22.
Definition TRAP_IN : Z := 0x23.
Definition TRAP_PUTSP : Z := 0x24.
Definition TRAP_HALT : Z := 0x25.

Definition R_R0 : Z := 0.
Definition R_R1 : Z := 1.
Definition R_R2 : Z := 2.
Definition R_R3 : Z := 3.
Definition R_R4 : Z := 4.
Definition R_R5 : Z := 5.
Definition R_R6 : Z := 6.
Definition R_R7 : Z := 7.
Definition R_PC : Z := 8.
Definition R_COND : Z := 9.
Definition R_COUNT : Z := 10.

Definition FL_POS : Z := Z.shiftl 1 0.
Definition FL_ZRO : Z := Z.shiftl 1 1.
Definition FL_NEG : Z := Z.shiftl 1 2.

Definition OP_BR : Z := 0.
Definition OP_ADD : Z := 1.
Definition OP_LD : Z := 2.
Definition OP_ST : Z := 3.
Definition OP_JSR : Z := 4.
Definition OP_AND : Z := 5.
Definition OP_LDR : Z := 6.
Definition OP_STR : Z := 7.
Definition OP_RTI : Z := 8.
Definition OP_NOT : Z := 9.
Definition OP_LDI : Z := 10.
Definition OP_STI : Z := 11.
Definition OP_JMP : Z := 12.
Definition OP_RES : Z := 13.
Definition OP_LEA : Z := 14.
Definition OP_TRAP : Z := 15.

Definition PC_START : Z := 0x3000.

(** ** Arithmetic helpers *)

(** [sign_extend]: the test is [(x >> (bit_count - 1)) & 1]; the mask
    [0xFFFF << bit_count] is computed in [int] and the result of [|=] is
    stored back into the [uint16_t] parameter, which keeps its low 16 bits.
    The mask is exact here; wrapping it to a 32-bit [int] first (it exceeds
    [INT_MAX] only at [bit_count = 16]) leaves those 16 bits the same. *)
Definition sign_extend (x : Z) (bit_count : Z) : Z :=
  if Z.land (Z.shiftr x (bit_count - 1)) 1 =? 0
  then x
  else u16 (Z.lor x (Z.shiftl 0xFFFF bit_count)).

(** ** Machine state *)

(** The two global arrays, and the bytes written to [stdout] so far (oldest
    first).  [memory] is zero-initialised static storage: a cell that was
    never written reads 0.  [reg] is a list of [R_COUNT] words indexed by the
    register enumeration. *)
Record vm : Type := mkVm {
  memory : gmap Z Z;
  reg : list Z;
  output : list Z
}.

(** [memory[a]] *)
Definition mem_at (m : gmap Z Z) (a : Z) : Z := default 0 (m !! a).

(** [reg[i]].  Every index in the source is an enumeration constant or a
    field masked with 0x7, so none falls outside the array (where C gives no
    meaning, the list lookup misses and the list insert changes nothing). *)
Definition reg_at (r : list Z) (i : Z) : Z := default 0 (r !! Z.to_nat i).

Definition set_memory (s : vm) (m : gmap Z Z) : vm :=
  {| memory := m; reg := reg s; output := output s |}.

Definition set_reg (s : vm) (r : list Z) : vm :=
  {| memory := memory s; reg := r; output := output s |}.

Definition set_output (s : vm) (o : list Z) : vm :=
  {| memory := memory s; reg := reg s; output := o |}.

(** [reg[i] = v] *)
Definition write_reg (s : vm) (i v : Z) : vm :=
  set_reg s (<[Z.to_nat i := v]> (reg s)).

Definition bytes_of_string (str : string) : list Z :=
  map (fun c => Z.of_N (N_of_ascii c)) (list_ascii_of_string str).

(** ** The host's character input *)

(** What the machine asks of the console: [check_key] (is a key waiting?)
    and [getchar] (the next character as an [int]: a byte, or [EOF] = -1).
    Both may change the host's state [W]. *)
Class Provider (W : Type) : Type := {
  check_key : W -> bool * W;
  getchar : W -> Z * W
}.

(** A scripted console: the answers [check_key] will give and the bytes
    [getchar] will deliver.  An exhausted script answers "no key" and
    end-of-file. *)
Record script : Type := mkScript {
  keys : list bool;
  chars : list Z
}.

Definition script_check_key (w : script) : bool * script :=
  match keys w with
  | [] => (false, w)
  | b :: ks => (b, {| keys := ks; chars := chars w |})
  end.

Definition script_getchar (w : script) : Z * script :=
  match chars w with
  | [] => (-1, w)
  | c :: cs => (c, {| keys := keys w; chars := cs |})
  end.

#[export] Instance script_provider : Provider script := {|
  check_key := script_check_key;
  getchar := script_getchar
|}.

(** ** Outcomes and the machine monad *)

(** One run of a piece of the loop body either completes, or calls
    [abort()], or walks a [uint16_t*] past the end of [memory] (the string
    traps scan until a zero word; nothing stops them at the last cell). *)
Inductive outcome (A : Type) : Type :=
| Done (a : A)
| Aborted
| Overrun.

Arguments Done {A} a.
Arguments Aborted {A}.
Arguments Overrun {A}.

(** [running] of [main]. *)
Inductive status : Type := Running | Halted.

Definition M (W : Type) (A : Type) : Type := W -> vm -> outcome (A * W * vm).

#[export] Instance vm_ret {W : Type} : MRet (M W) :=
  fun A (a : A) w s => Done (a, w, s).

#[export] Instance vm_bind {W : Type} : MBind (M W) :=
  fun A B (k : A -> M W B) (m : M W A) w s =>
    match m w s with
    | Done (a, w', s') => k a w' s'
    | Aborted => Aborted
    | Overrun => Overrun
    end.

Section Machine.

Context {W : Type} {P : Provider W}.

(** [reg[i]] as an rvalue and as an lvalue. *)
Definition rd (i : Z) : M W Z := fun w s => Done (reg_at (reg s) i, w, s).

Definition wr (i : Z) (v : Z) : M W unit :=
  fun w s => Done (tt, w, write_reg s i v).

Definition peek (a : Z) : M W Z := fun w s => Done (mem_at (memory s) a, w, s).

(** [putc(c, stdout)] writes [c] converted to [unsigned char]. *)
Definition putc (c : Z) : M W unit :=
  fun w s => Done (tt, w, set_output s (output s ++ [c mod 256])).

Definition abort {A : Type} : M W A := fun _ _ => Aborted.

Definition overrun {A : Type} : M W A := fun _ _ => Overrun.

(** [printf]/[puts] of a literal. *)
Definition print (str : string) : M W unit :=
  fun w s => Done (tt, w, set_output s (output s ++ bytes_of_string str)).

(** A call into the console. *)
Definition host {A : Type} (f : W -> A * W) : M W A :=
  fun w s => let '(a, w') := f w in Done (a, w', s).

(** [update_flags] *)
Definition update_flags (r : Z) : M W unit :=
  v ← rd r;
  if v =? 0 then wr R_COND FL_ZRO
  else if negb (Z.shiftr v 15 =? 0) then wr R_COND FL_NEG
  else wr R_COND FL_POS.

(** [mem_write] *)
Definition mem_write (address : Z) (val : Z) : M W unit :=
  fun w s => Done (tt, w, set_memory s (<[address := val]> (memory s))).

(** The body of [if (address == MR_KBSR)] in [mem_read]. *)
Definition poll_keyboard : M W unit :=
  ready ← host check_key;
  if (ready : bool) then
    mem_write MR_KBSR (Z.shiftl 1 15);;
    c ← host getchar;
    mem_write MR_KBDR (u16 c)
  else
    mem_write MR_KBSR 0.

(** [mem_read] *)
Definition mem_read (address : Z) : M W Z :=
  (if address =? MR_KBSR then poll_keyboard else mret tt);;
  peek address.

(** ** The instructions: the cases of [switch (op)] in [main] *)

Definition op_add (instr : Z) : M W status :=
  let r0 := Z.land (Z.shiftr instr 9) 0x7 in
  let r1 := Z.land (Z.shiftr instr 6) 0x7 in
  let imm_flag := Z.land (Z.shiftr instr 5) 0x1 in
  (if negb (imm_flag =? 0) then
     let imm5 := sign_extend (Z.land instr 0x1F) 5 in
     a ← rd r1;
     wr r0 (u16 (a + imm5))
   else
     let r2 := Z.land instr 0x7 in
     a ← rd r1;
     b ← rd r2;
     wr r0 (u16 (a + b)));;
  update_flags r0;;
  mret Running.

(** The conjunction of two [uint16_t] values needs no wrap-around. *)
Definition op_and (instr : Z) : M W status :=
  let r0 := Z.land (Z.shiftr instr 9) 0x7 in
  let r1 := Z.land (Z.shiftr instr 6) 0x7 in
  let imm_flag := Z.land (Z.shiftr instr 5) 0x1 in
  (if negb (imm_flag =? 0) then
     let imm5 := sign_extend (Z.land instr 0x1F) 5 in
     a ← rd r1;
     wr r0 (Z.land a imm5)
   else
     let r2 := Z.land instr 0x7 in
     a ← rd r1;
     b ← rd r2;
     wr r0 (Z.land a b));;
  update_flags r0;;
  mret Running.

(** [reg[r0] = ~reg[r1]; break;] *)
Definition op_not (instr : Z) : M W status :=
  let r0 := Z.land (Z.shiftr instr 9) 0x7 in
  let r1 := Z.land (Z.shiftr instr 6) 0x7 in
  a ← rd r1;
  wr r0 (u16 (Z.lnot a));;
  mret Running.

Definition op_br (instr : Z) : M W status :=
  let cond_flag := Z.land (Z.shiftr instr 9) 0x7 in
  let pc_offset := sign_extend (Z.land instr 0x1FF) 9 in
  cond ← rd R_COND;
  (if negb (Z.land cond_flag cond =? 0) then
     pc ← rd R_PC;
     wr R_PC (u16 (pc + pc_offset))
   else mret tt);;
  mret Running.

Definition op_jmp (instr : Z) : M W status :=
  let r1 := Z.land (Z.shiftr instr 6) 0x7 in
  a ← rd r1;
  wr R_PC a;;
  mret Running.

Definition op_jsr (instr : Z) : M W status :=
  pc ← rd R_PC;
  wr R_R7 pc;;
  let long_flag := Z.land (Z.shiftr instr 11) 0x1 in
  (if negb (long_flag =? 0) then
     let pc_offset := sign_extend (Z.land instr 0x7FF) 11 in
     pc ← rd R_PC;
     wr R_PC (u16 (pc + pc_offset))
   else
     let r1 := Z.land (Z.shiftr instr 6) 0x7 in
     a ← rd r1;
     wr R_PC a);;
  mret Running.

Definition op_ld (instr : Z) : M W status :=
  let r0 := Z.land (Z.shiftr instr 9) 0x7 in
  let pc_offset := sign_extend (Z.land instr 0x1FF) 9 in
  pc ← rd R_PC;
  v ← mem_read (u16 (pc + pc_offset));
  wr r0 v;;
  update_flags r0;;
  mret Running.

(** [reg[r0] = mem_read(reg[R_PC] + pc_offset); update_flags(r0);] *)
Definition op_ldi (instr : Z) : M W status :=
  let r0 := Z.land (Z.shiftr instr 9) 0x7 in
  let pc_offset := sign_extend (Z.land instr 0x1FF) 9 in
  pc ← rd R_PC;
  v ← mem_read (u16 (pc + pc_offset));
  wr r0 v;;
  update_flags r0;;
  mret Running.

Definition op_ldr (instr : Z) : M W status :=
  let r0 := Z.land (Z.shiftr instr 9) 0x7 in
  let r1 := Z.land (Z.shiftr instr 6) 0x7 in
  let pc_offset := sign_extend (Z.land instr 0x3F) 6 in
  base ← rd r1;
  v ← mem_read (u16 (base + pc_offset));
  wr r0 v;;
  update_flags r0;;
  mret Running.

Definition op_lea (instr : Z) : M W status :=
  let r0 := Z.land (Z.shiftr instr 9) 0x7 in
  let pc_offset := sign_extend (Z.land instr 0x1FF) 9 in
  pc ← rd R_PC;
  wr r0 (u16 (pc + pc_offset));;
  update_flags r0;;
  mret Running.

Definition op_st (instr : Z) : M W status :=
  let r0 := Z.land (Z.shiftr instr 9) 0x7 in
  let pc_offset := sign_extend (Z.land instr 0x1FF) 9 in
  pc ← rd R_PC;
  v ← rd r0;
  mem_write (u16 (pc + pc_offset)) v;;
  mret Running.

Definition op_sti (instr : Z) : M W status :=
  let r0 := Z.land (Z.shiftr instr 9) 0x7 in
  let pc_offset := sign_extend (Z.land instr 0x1FF) 9 in
  pc ← rd R_PC;
  target ← mem_read (u16 (pc + pc_offset));
  v ← rd r0;
  mem_write target v;;
  mret Running.

Definition op_str (instr : Z) : M W status :=
  let r0 := Z.land (Z.shiftr instr 9) 0x7 in
  let r1 := Z.land (Z.shiftr instr 6) 0x7 in
  let pc_offset := sign_extend (Z.land instr 0x3F) 6 in
  base ← rd r1;
  v ← rd r0;
  mem_write (u16 (base + pc_offset)) v;;
  mret Running.

(** *** Trap routines *)

(** A C [char] holding the value [v]: [char] is signed on the Windows
    targets this source is written for. *)
Definition to_char (v : Z) : Z := (v + 128) mod 256 - 128.

(** The loop of [TRAP_PUTS]: the pointer [c] starts at [memory + a], each
    nonzero word it points at is written with [putc] (as a [char]), and the
    loop stops at the first zero word.  [room] counts the cells from [c] to
    the end of the array. *)
Fixpoint puts_loop (room : nat) (a : Z) : M W unit :=
  match room with
  | O => overrun
  | S room' =>
      ch ← peek a;
      if ch =? 0 then mret tt
      else putc (to_char ch);; puts_loop room' (a + 1)
  end.

(** The loop of [TRAP_PUTSP]: low byte, then the high byte unless it is 0. *)
Fixpoint putsp_loop (room : nat) (a : Z) : M W unit :=
  match room with
  | O => overrun
  | S room' =>
      ch ← peek a;
      if ch =? 0 then mret tt
      else
        let char1 := to_char (Z.land ch 0xFF) in
        putc char1;;
        let char2 := to_char (Z.shiftr ch 8) in
        (if negb (char2 =? 0) then putc char2 else mret tt);;
        putsp_loop room' (a + 1)
  end.

Definition trap_getc : M W status :=
  c ← host getchar;
  wr R_R0 (u16 c);;
  update_flags R_R0;;
  mret Running.

Definition trap_out : M W status :=
  v ← rd R_R0;
  putc (to_char v);;
  mret Running.

Definition trap_puts : M W status :=
  a ← rd R_R0;
  puts_loop (Z.to_nat (MEMORY_MAX - a)) a;;
  mret Running.

Definition trap_in : M W status :=
  print "Enter a character:";;
  c ← host getchar;
  let c := to_char c in
  putc c;;
  wr R_R0 (u16 c);;
  update_flags R_R0;;
  mret Running.

Definition trap_putsp : M W status :=
  a ← rd R_R0;
  putsp_loop (Z.to_nat (MEMORY_MAX - a)) a;;
  mret Running.

(** [puts] appends a newline. *)
Definition trap_halt : M W status :=
  print ("HALT" ++ String (ascii_of_nat 10) EmptyString);;
  mret Halted.

(** [case OP_TRAP]: the inner [switch] has no [default] label. *)
Definition op_trap (instr : Z) : M W status :=
  pc ← rd R_PC;
  wr R_R7 pc;;
  let vector := Z.land instr 0xFF in
  if vector =? TRAP_GETC then trap_getc
  else if vector =? TRAP_OUT then trap_out
  else if vector =? TRAP_PUTS then trap_puts
  else if vector =? TRAP_IN then trap_in
  else if vector =? TRAP_PUTSP then trap_putsp
  else if vector =? TRAP_HALT then trap_halt
  else mret Running.

(** ** The loop body *)

(** [switch (op)]; [OP_RES], [OP_RTI] and [default] share [abort()]. *)
Definition exec (instr : Z) : M W status :=
  let op := Z.shiftr instr 12 in
  if op =? OP_ADD then op_add instr
  else if op =? OP_AND then op_and instr
  else if op =? OP_NOT then op_not instr
  else if op =? OP_BR then op_br instr
  else if op =? OP_JMP then op_jmp instr
  else if op =? OP_JSR then op_jsr instr
  else if op =? OP_LD then op_ld instr
  else if op =? OP_LDI then op_ldi instr
  else if op =? OP_LDR then op_ldr instr
  else if op =? OP_LEA then op_lea instr
  else if op =? OP_ST then op_st instr
  else if op =? OP_STI then op_sti instr
  else if op =? OP_STR then op_str instr
  else if op =? OP_TRAP then op_trap instr
  else abort.

(** [uint16_t instr = mem_read(reg[R_PC]++);] *)
Definition fetch : M W Z :=
  pc ← rd R_PC;
  wr R_PC (u16 (pc + 1));;
  mem_read pc.

(** One iteration of [while (running)]. *)
Definition step : M W status :=
  instr ← fetch;
  exec instr.

(** At most [n] iterations of the loop. *)
Fixpoint run (n : nat) : M W status :=
  match n with
  | O => mret Running
  | S n' =>
      st ← step;
      match st with
      | Running => run n'
      | Halted => mret Halted
      end
  end.

End Machine.

(** ** Start-up: the SETUP part of [main] *)

(** [reg] is static storage, so all zero before [main] writes [R_COND] and
    [R_PC]; [image] is [memory] as the image loader left it. *)
Definition boot (image : gmap Z Z) : vm :=
  {| memory := image;
     reg := <[Z.to_nat R_PC := PC_START]>
              (<[Z.to_nat R_COND := FL_ZRO]> (replicate (Z.to_nat R_COUNT) 0));
     output := [] |}.

(** ** Vocabulary of the specifications *)

(** [reg] has its [R_COUNT] cells. *)
Definition wf (s : vm) : Prop := length (reg s) = Z.to_nat R_COUNT.

Definition pc_of (s : vm) : Z := reg_at (reg s) R_PC.

Definition cond_of (s : vm) : Z := reg_at (reg s) R_COND.

Definition is_flag (v : Z) : Prop := v = FL_NEG \/ v = FL_ZRO \/ v = FL_POS.

(** The flag [update_flags] stores for a register holding [v]. *)
Definition sign_flag (v : Z) : Z :=
  if v =? 0 then FL_ZRO
  else if negb (Z.shiftr v 15 =? 0) then FL_NEG
  else FL_POS.

(** The register-file invariant of the loop. *)
Definition flags_ok (s : vm) : Prop := wf s /\ is_flag (cond_of s).

(** A computation keeps a property of the machine state whenever it
    completes. *)
Definition keeps {W A : Type} (I : vm -> Prop) (m : M W A) : Prop :=
  forall w s a w' s', m w s = Done (a, w', s') -> I s -> I s'.

(** Properties that cannot tell a store to [memory], a byte on [stdout] or
    a write to one of R0..R7. *)
Record stable (I : vm -> Prop) : Prop := mkStable {
  stable_memory : forall s m, I s -> I (set_memory s m);
  stable_output : forall s o, I s -> I (set_output s o);
  stable_general : forall s i v, 0 <= i <= 7 -> I s -> I (write_reg s i v)
}.

Definition pc_free (I : vm -> Prop) : Prop :=
  forall s v, I s -> I (write_reg s R_PC v).

Definition flag_free (I : vm -> Prop) : Prop :=
  forall s v, is_flag v -> I s -> I (write_reg s R_COND v).

(** Instructions after which the source calls [update_flags], and the
    register it is called on. *)
Definition sets_flags (instr : Z) : bool :=
  let op := Z.shiftr instr 12 in
  let vector := Z.land instr 0xFF in
  (op =? OP_ADD) || (op =? OP_AND) || (op =? OP_LD) || (op =? OP_LDI)
  || (op =? OP_LDR) || (op =? OP_LEA)
  || ((op =? OP_TRAP) && ((vector =? TRAP_GETC) || (vector =? TRAP_IN))).

Definition flag_source (instr : Z) : Z :=
  if Z.shiftr instr 12 =? OP_TRAP then R_R0 else Z.land (Z.shiftr instr 9) 0x7.

(** Instructions that assign [reg[R_PC]] in the source. *)
Definition sets_pc (instr : Z) : bool :=
  let op := Z.shiftr instr 12 in
  (op =? OP_BR) || (op =? OP_JMP) || (op =? OP_JSR).

(** Two runs against two consoles agree: same result, same machine, and
    consoles that are still related. *)
Definition agree {W1 W2 A : Type} (R : W1 -> W2 -> Prop)
    (o1 : outcome (A * W1 * vm)) (o2 : outcome (A * W2 * vm)) : Prop :=
  match o1, o2 with
  | Done (a1, w1, s1), Done (a2, w2, s2) => a1 = a2 /\ R w1 w2 /\ s1 = s2
  | Aborted, Aborted => True
  | Overrun, Overrun => True
  | _, _ => False
  end.

Definition sim {W1 W2 A : Type} (R : W1 -> W2 -> Prop)
    (m1 : M W1 A) (m2 : M W2 A) : Prop :=
  forall w1 w2 s, R w1 w2 -> agree R (m1 w1 s) (m2 w2 s).

(** Two consoles are indistinguishable to the machine when they give the
    same answers and stay indistinguishable afterwards. *)
Record same_answers {W1 W2 : Type} `{Provider W1} `{Provider W2}
    (R : W1 -> W2 -> Prop) : Prop := mkSameAnswers {
  same_check_key : forall w1 w2, R w1 w2 ->
    fst (check_key w1) = fst (check_key w2)
    /\ R (snd (check_key w1)) (snd (check_key w2));
  same_getchar : forall w1 w2, R w1 w2 ->
    fst (getchar w1) = fst (getchar w2)
    /\ R (snd (getchar w1)) (snd (getchar w2))
}.

(** After [m] the condition flags are the ones of register [r]. *)
Definition flags_from {W A : Type} (r : Z) (m : M W A) : Prop :=
  forall w s a w' s', m w s = Done (a, w', s') -> wf s ->
    cond_of s' = sign_flag (reg_at (reg s') r).

(** ** A console with a clock *)

(** [check_key] waits up to 1000 ms for the console before it answers.  This
    console keeps the time: an unanswered poll costs the full wait. *)
Record timed : Type := mkTimed {
  clock : Z;
  pending : script
}.

Definition timed_check_key (t : timed) : bool * timed :=
  let '(b, p) := script_check_key (pending t) in
  (b, {| clock := clock t + (if b then 0 else 1000); pending := p |}).

Definition timed_getchar (t : timed) : Z * timed :=
  let '(c, p) := script_getchar (pending t) in
  (c, {| clock := clock t; pending := p |}).

#[export] Instance timed_provider : Provider timed := {|
  check_key := timed_check_key;
  getchar := timed_getchar
|}.

Definition same_script (w : script) (t : timed) : Prop := pending t = w.

(** ** Sample consoles and programs *)

Definition console0 : script :=
  {| keys := [true; false]; chars := [0x41; 0x42] |}.

Definition late_console : timed := {| clock := 2500; pending := console0 |}.

(** [LDI R0, #1] at 0x3000; the pointer cell 0x3002 holds 0x4000 and the
    cell 0x4000 holds 0x0042. *)
Definition ldi_image : gmap Z Z :=
  list_to_map [(0x3000, 0xA001); (0x3002, 0x4000); (0x4000, 0x0042)].

(** [NOT R0, R1] at 0x3000. *)
Definition not_image : gmap Z Z := list_to_map [(0x3000, 0x907F)].

(** [TRAP 0xFF] at 0x3000, then [HALT]. *)
Definition trap_image : gmap Z Z :=
  list_to_map [(0x3000, 0xF0FF); (0x3001, 0xF025)].

(** [JSR #1] at 0x3000, [HALT] after it; the subroutine at 0x3002 is
    [ADD R0, R0, #1] and [JMP R7]. *)
Definition call_image : gmap Z Z :=
  list_to_map [(0x3000, 0x4801); (0x3001, 0xF025);
               (0x3002, 0x1021); (0x3003, 0xC1C0)].

(** [LD R1, #3] (the address of the keyboard status register), [LDR R0, R1,
    #0] (polls the keyboard), [GETC], [HALT]. *)
Definition keyboard_image : gmap Z Z :=
  list_to_map [(0x3000, 0x2203); (0x3001, 0x6040); (0x3002, 0xF020);
               (0x3003, 0xF025); (0x3004, 0xFE00)].

(** The string "HI" at 0x3100, one character to a word, and at 0x3200
    packed into one word; both are followed by a zero word. *)
Definition hi_image : gmap Z Z :=
  list_to_map [(0x3100, 0x48); (0x3101, 0x49); (0x3200, 0x4948)].

(** No zero word from 0xFFFE to the end of memory. *)
Definition unterminated_image : gmap Z Z :=
  list_to_map [(0xFFFE, 0x48); (0xFFFF, 0x49)].

(** A file system with two images: a lone HALT at 0x3000, and GETC, OUT,
    HALT at 0x3000. *)
Definition sample_files (image_path : string) : option (list Z) :=
  if String.eqb image_path "halt.obj" then Some [0x30; 0x00; 0xF0; 0x25]
  else if String.eqb image_path "echo.obj"
       then Some [0x30; 0x00; 0xF0; 0x20; 0xF0; 0x21; 0xF0; 0x25]
  else None.

(** The machine after [n] iterations on [call_image]. *)
Definition call_state (n : nat) : vm :=
  match run n console0 (boot call_image) with
  | Done (_, _, s) => s
  | _ => boot call_image
  end.

(** ** Loading an image *)

(** [swap16]: [(x << 8) | (x >> 8)], returned as [uint16_t]. *)
Definition swap16 (x : Z) : Z := u16 (Z.lor (Z.shiftl x 8) (Z.shiftr x 8)).

(** The [uint16_t] that two consecutive bytes of a file form once [fread]
    has copied them into memory: the hosts of this source (it includes
    [Windows.h]) are little-endian. *)
Definition le_word (b0 b1 : Z) : Z := b0 + 256 * b1.

(** [fread(buf, sizeof(uint16_t), n, file)]: the complete elements read, at
    most [n], and the bytes that follow them. *)
Fixpoint fread_words (n : nat) (bytes : list Z) : list Z * list Z :=
  match n, bytes with
  | S n', b0 :: b1 :: rest =>
      let '(ws, rest') := fread_words n' rest in (le_word b0 b1 :: ws, rest')
  | _, _ => ([], bytes)
  end.

(** The elements [fread] stored from [p] on. *)
Fixpoint store_words (p : Z) (ws : list Z) (m : gmap Z Z) : gmap Z Z :=
  match ws with
  | [] => m
  | x :: ws' => store_words (p + 1) ws' (<[p := x]> m)
  end.

(** The loop of [read_image_file] that swaps [read] cells from [p] on in
    place. *)
Fixpoint swap_loop (read : nat) (p : Z) (m : gmap Z Z) : gmap Z Z :=
  match read with
  | O => m
  | S read' => swap_loop read' (p + 1) (<[p := swap16 (mem_at m p)]> m)
  end.

(** What [fread] leaves in a cell when the file ends after the first byte
    of an element: the byte read is copied over the first byte of the cell,
    its low byte on a little-endian host, and the other byte keeps what it
    held. *)
Definition partial_word (old b : Z) : Z := Z.lor (Z.land old 0xFF00) b.

(** [read_image_file] on the bytes of the file.  A file with no complete
    origin word is at its end after the first [fread], so the second one
    stores nothing.  Otherwise the second [fread] stores the complete
    elements and, when it stops with room left and one byte over, that byte
    in the next cell; the loop then swaps the [read] complete cells. *)
Definition read_image_file (file : list Z) (m : gmap Z Z) : gmap Z Z :=
  match fread_words 1 file with
  | ([o], rest) =>
      let origin := swap16 o in
      let max_read := u16 (MEMORY_MAX - origin) in
      let '(ws, rest') := fread_words (Z.to_nat max_read) rest in
      let read := length ws in
      let lone := if Z.of_nat read <? max_read then head rest' else None in
      let p := origin + Z.of_nat read in
      let stored := store_words origin ws m in
      let stored := match lone with
                    | Some b => <[p := partial_word (mem_at stored p) b]> stored
                    | None => stored
                    end in
      swap_loop read origin stored
  | _ => m
  end.

(** [read_image]: [fs] says which paths [fopen] can open and what they
    hold.  The result is the returned [int] and the memory. *)
Definition read_image (fs : string -> option (list Z)) (image_path : string)
    (m : gmap Z Z) : Z * gmap Z Z :=
  match fs image_path with
  | None => (0, m)
  | Some file => (1, read_image_file file m)
  end.

(** ** The whole of [main] *)

(** What [main] asks of the console before anything else:
    [disable_input_buffering] puts it in unbuffered, unechoed mode and
    discards the input pending at that moment.  ([signal] only registers
    [handle_interrupt]; no interrupt is delivered here.) *)
Class Console (W : Type) : Type := {
  console_provider :: Provider W;
  disable_input_buffering : W -> W
}.

(** A console with type-ahead: [ahead] is in the input buffer when the
    program starts, [later] arrives afterwards.  Buffered characters are
    read first, and a key is ready while any is buffered. *)
Record terminal : Type := mkTerminal {
  ahead : list Z;
  later : script
}.

Definition terminal_check_key (t : terminal) : bool * terminal :=
  match ahead t with
  | _ :: _ => (true, t)
  | [] =>
      let '(b, p) := script_check_key (later t) in
      (b, {| ahead := []; later := p |})
  end.

Definition terminal_getchar (t : terminal) : Z * terminal :=
  match ahead t with
  | c :: cs => (c, {| ahead := cs; later := later t |})
  | [] =>
      let '(c, p) := script_getchar (later t) in
      (c, {| ahead := []; later := p |})
  end.

#[export] Instance terminal_provider : Provider terminal := {|
  check_key := terminal_check_key;
  getchar := terminal_getchar
|}.

#[export] Instance terminal_console : Console terminal := {|
  console_provider := terminal_provider;
  disable_input_buffering := fun t => {| ahead := []; later := later t |}
|}.

(** A terminal on which "X" was typed before the program started. *)
Definition typed_ahead : terminal := {| ahead := [0x58]; later := console0 |}.

(** How the process ends: [exit] with a status (falling off the end of
    [main] is status 0), [abort()], a string trap running off [memory], or
    out of fuel with the loop still running.  The machine carries what was
    written to [stdout]. *)
Inductive ending (W : Type) : Type :=
| Exited (code : Z) (w : W) (s : vm)
| Crashed
| Strayed
| Unfinished (w : W) (s : vm).

Arguments Exited {W} code w s.
Arguments Crashed {W}.
Arguments Strayed {W}.
Arguments Unfinished {W} w s.

(** The result of loading [argv[1]], [argv[2]], ...: the memory, or the path
    that failed with the memory as the images before it left it. *)
Inductive loading : Type :=
| AllLoaded (m : gmap Z Z)
| LoadFailed (image_path : string) (m : gmap Z Z).

(** The [for] loop over the image paths. *)
Fixpoint load_images (fs : string -> option (list Z)) (paths : list string)
    (m : gmap Z Z) : loading :=
  match paths with
  | [] => AllLoaded m
  | image_path :: paths' =>
      let '(r, m') := read_image fs image_path m in
      if r =? 0 then LoadFailed image_path m'
      else load_images fs paths' m'
  end.

Definition newline : string := String (ascii_of_nat 10) EmptyString.

(** [main]: [argv] includes the program name; static storage starts zeroed;
    the loop gets [fuel] iterations.  [signal(SIGINT, handle_interrupt)]
    installs a handler and does nothing else; these are the runs in which
    no SIGINT arrives, so the handler never runs.  Nothing restores the
    console mode at the end: the SHUTDOWN part of the source is empty. *)
Definition main {W : Type} {C : Console W} (fuel : nat) (argv : list string)
    (fs : string -> option (list Z)) (w : W) : ending W :=
  let s0 := {| memory := ∅; reg := replicate (Z.to_nat R_COUNT) 0; output := [] |} in
  let w := disable_input_buffering w in
  if Z.of_nat (length argv) <? 2 then
    Exited 2 w (set_output s0
                  (bytes_of_string ("LC3 [image-file1] ..." ++ newline)))
  else
    match load_images fs (tail argv) (memory s0) with
    | LoadFailed image_path m =>
        Exited 1 w (set_output (set_memory s0 m)
                      (bytes_of_string
                         ("Failed to load image: " ++ image_path ++ newline)))
    | AllLoaded image =>
        match run fuel w (boot image) with
        | Done (Halted, w', s') => Exited 0 w' s'
        | Done (Running, w', s') => Unfinished w' s'
        | Aborted => Crashed
        | Overrun => Strayed
        end
    end.

(** ** The answers a run receives *)

(** One answer of the console: to [check_key], or to [getchar]. *)
Inductive answer : Type :=
| Ready (b : bool)
| Char (c : Z).

(** A console that keeps, oldest first, the answers it has given. *)
Record logged (W : Type) : Type := mkLogged {
  inner : W;
  heard : list answer
}.

Arguments mkLogged {W} inner heard.
Arguments inner {W} l.
Arguments heard {W} l.

Definition logged_check_key {W : Type} {P : Provider W} (l : logged W) :
    bool * logged W :=
  let '(b, w) := check_key (inner l) in
  (b, {| inner := w; heard := heard l ++ [Ready b] |}).

Definition logged_getchar {W : Type} {P : Provider W} (l : logged W) :
    Z * logged W :=
  let '(c, w) := getchar (inner l) in
  (c, {| inner := w; heard := heard l ++ [Char c] |}).

#[export] Instance logged_provider {W : Type} {P : Provider W} :
    Provider (logged W) := {|
  check_key := logged_check_key;
  getchar := logged_getchar
|}.

(** [w] with an empty log. *)
Definition listen {W : Type} (w : W) : logged W := {| inner := w; heard := [] |}.

(** Console [w] gives the answers [l] when it is asked for them in this
    order; what it would answer to anything else is left open. *)
Fixpoint answers_with {W : Type} {P : Provider W} (w : W) (l : list answer) :
    Prop :=
  match l with
  | [] => True
  | Ready b :: l' =>
      fst (check_key w) = b /\ answers_with (snd (check_key w)) l'
  | Char c :: l' =>
      fst (getchar w) = c /\ answers_with (snd (getchar w)) l'
  end.

(** The readiness answers of a log, and its input bytes. *)
Fixpoint readiness (l : list answer) : list bool :=
  match l with
  | [] => []
  | Ready b :: l' => b :: readiness l'
  | Char _ :: l' => readiness l'
  end.

Fixpoint input_bytes (l : list answer) : list Z :=
  match l with
  | [] => []
  | Ready _ :: l' => input_bytes l'
  | Char c :: l' => c :: input_bytes l'
  end.

(** [m2] replays [m1]: a run of [m1] is given some answers [ext], which a
    completed run has added to its log, and [m2] does the same against every
    console that gives these answers. *)
Definition replays {W1 W2 A : Type} `{Provider W1} `{Provider W2}
    (m1 : M (logged W1) A) (m2 : M W2 A) : Prop :=
  forall (lw : logged W1) (s : vm),
    exists ext : list answer,
      answers_with (inner lw) ext
      /\ match m1 lw s with
         | Done (a, lw', s') =>
             heard lw' = heard lw ++ ext
             /\ (forall rest, answers_with (inner lw') rest ->
                              answers_with (inner lw) (ext ++ rest))
             /\ (forall w2 rest, answers_with w2 (ext ++ rest) ->
                   exists w2', m2 w2 s = Done (a, w2', s')
                               /\ answers_with w2' rest)
         | Aborted => forall w2, answers_with w2 ext -> m2 w2 s = Aborted
         | Overrun => forall w2, answers_with w2 ext -> m2 w2 s = Overrun
         end.

(** The program GETC, HALT at 0x3000. *)
Definition getc_image : gmap Z Z :=
  list_to_map [(0x3000, 0xF020); (0x3001, 0xF025)].

(** Two consoles that deliver "A" first and differ in everything else. *)
Definition eager_console : script :=
  {| keys := [true]; chars := [0x41; 0x42] |}.

Definition idle_console : script := {| keys := [false]; chars := [0x41] |}.

(** ** More vocabulary *)

Definition is_word (v : Z) : Prop := 0 <= v < 65536.

#[export] Instance is_word_dec (v : Z) : Decision (is_word v) :=
  and_dec (Z.le_dec 0 v) (Z.lt_dec v 65536).

(** Every register and every memory cell holds a 16-bit word, and [memory]
    has no cell outside 0..65535. *)
Definition words_ok (s : vm) : Prop :=
  wf s
  /\ Forall is_word (reg s)
  /\ map_Forall (fun a v => is_word a /\ is_word v) (memory s).

(** A computation keeps [I] and returns a value in [Q]. *)
Definition yields {W A : Type} (I : vm -> Prop) (Q : A -> Prop)
    (m : M W A) : Prop :=
  forall w s a w' s', m w s = Done (a, w', s') -> I s -> I s' /\ Q a.

(** Whatever a computation returns is in [Q]. *)
Definition returns {W A : Type} (Q : A -> Prop) (m : M W A) : Prop :=
  forall w s a w' s', m w s = Done (a, w', s') -> Q a.

(** The number a [width]-bit field [x] stands for in two's complement. *)
Definition signed (width x : Z) : Z :=
  if x <? 2 ^ (width - 1) then x else x - 2 ^ width.

(** The [n] cells of memory from address [a] on. *)
Definition cells (m : gmap Z Z) (a : Z) (n : nat) : list Z :=
  map (fun k => mem_at m (a + Z.of_nat k)) (seq 0 n).

(** What [TRAP_PUTSP] writes for one word: the low byte, then the high byte
    unless it is zero. *)
Definition unpack (ch : Z) : list Z :=
  Z.land ch 0xFF :: (if Z.shiftr ch 8 =? 0 then [] else [Z.shiftr ch 8]).

(** A byte string packed two characters to a word, first character in the
    low byte, as [TRAP_PUTSP] expects it. *)
Fixpoint pack (bytes : list Z) : list Z :=
  match bytes with
  | b0 :: b1 :: rest => (b0 + 256 * b1) :: pack rest
  | [b0] => [b0]
  | [] => []
  end.

(** The big-endian words of an image payload. *)
Fixpoint be_words (bytes : list Z) : list Z :=
  match bytes with
  | b0 :: b1 :: rest => (256 * b0 + b1) :: be_words rest
  | _ => []
  end.

(** * Basic facts *)

Lemma field3_range (x : Z) : 0 <= Z.land x 0x7 <= 7.
Proof.
  assert (Z.land x 0x7 = x mod 8) as ->
    by exact (Z.land_ones x 3 ltac:(lia)).
  pose proof (Z.mod_pos_bound x 8). lia.
Qed.

Lemma reg_at_write_eq (r : list Z) (i v : Z) :
  (Z.to_nat i < length r)%nat -> reg_at (<[Z.to_nat i := v]> r) i = v.
Proof.
  intros Hi. unfold reg_at. by rewrite list_lookup_insert_eq.
Qed.

Lemma reg_at_write_ne (r : list Z) (i j v : Z) :
  0 <= i -> 0 <= j -> i <> j -> reg_at (<[Z.to_nat i := v]> r) j = reg_at r j.
Proof.
  intros Hi Hj Hne. unfold reg_at.
  rewrite list_lookup_insert_ne; [done | lia].
Qed.

Lemma wf_write_reg (s : vm) (i v : Z) : wf s -> wf (write_reg s i v).
Proof. unfold wf, write_reg; simpl. by rewrite length_insert. Qed.

Lemma sign_flag_is_flag (v : Z) : is_flag (sign_flag v).
Proof.
  unfold sign_flag, is_flag.
  destruct (v =? 0); [tauto |]. destruct (negb _); tauto.
Qed.

(** [update_flags] in one equation. *)
Lemma update_flags_run {W : Type} (r : Z) (w : W) (s : vm) :
  (update_flags r : M W unit) w s
  = Done (tt, w, write_reg s R_COND (sign_flag (reg_at (reg s) r))).
Proof.
  unfold update_flags, mbind, vm_bind, rd, sign_flag.
  destruct (reg_at (reg s) r =? 0); [reflexivity |].
  destruct (negb _); reflexivity.
Qed.

Section Keeps.

Context {W : Type} {P : Provider W}.

Lemma keeps_ret {A} (I : vm -> Prop) (a : A) : keeps I (mret a : M W A).
Proof. intros w s a' w' s' H Hs. by inversion H; subst. Qed.

Lemma keeps_bind {A B} (I : vm -> Prop) (m : M W A) (k : A -> M W B) :
  keeps I m -> (forall a, keeps I (k a)) -> keeps I (m ≫= k).
Proof.
  intros Hm Hk w s b w' s' H Hs.
  unfold mbind, vm_bind in H.
  destruct (m w s) as [[[a w1] s1] | |] eqn:E; try discriminate.
  eapply Hk; [exact H |]. eapply Hm; eauto.
Qed.

Lemma keeps_rd I i : keeps I (rd i : M W Z).
Proof. intros w s a w' s' H Hs. by inversion H; subst. Qed.

Lemma keeps_peek I a : keeps I (peek a : M W Z).
Proof. intros w s x w' s' H Hs. by inversion H; subst. Qed.

Lemma keeps_host {A} I (f : W -> A * W) : keeps I (host f).
Proof.
  intros w s x w' s' H Hs. unfold host in H.
  destruct (f w). by inversion H; subst.
Qed.

Lemma keeps_abort {A} I : keeps I (abort : M W A).
Proof. intros w s x w' s' H. discriminate. Qed.

Lemma keeps_overrun {A} I : keeps I (overrun : M W A).
Proof. intros w s x w' s' H. discriminate. Qed.

Section Stable.

Variable I : vm -> Prop.
Hypothesis HI : stable I.

Lemma keeps_putc c : keeps I (putc c : M W unit).
Proof.
  intros w s x w' s' H Hs. inversion H; subst. by apply stable_output.
Qed.

Lemma keeps_print str : keeps I (print str : M W unit).
Proof.
  intros w s x w' s' H Hs. inversion H; subst. by apply stable_output.
Qed.

Lemma keeps_mem_write a v : keeps I (mem_write a v : M W unit).
Proof.
  intros w s x w' s' H Hs. inversion H; subst. by apply stable_memory.
Qed.

Lemma keeps_wr_general i v : 0 <= i <= 7 -> keeps I (wr i v : M W unit).
Proof.
  intros Hi w s x w' s' H Hs. inversion H; subst.
  by apply (stable_general I HI).
Qed.

Lemma keeps_wr_field x v : keeps I (wr (Z.land x 0x7) v : M W unit).
Proof. apply keeps_wr_general, field3_range. Qed.

End Stable.
End Keeps.

(** * What each instruction can change *)

Ltac keeps_step :=
  first
    [ apply keeps_ret
    | apply keeps_rd
    | apply keeps_peek
    | apply keeps_host
    | apply keeps_abort
    | apply keeps_overrun
    | apply keeps_putc; assumption
    | apply keeps_print; assumption
    | apply keeps_mem_write; assumption
    | apply keeps_wr_field; assumption
    | apply keeps_bind; [| intros ? ]
    | match goal with
      | |- keeps _ (if ?b then _ else _) => destruct b
      | |- keeps _ (let _ := _ in _) => cbv zeta
      end ].

Section Effects.

Context {W : Type} {P : Provider W}.

Variable I : vm -> Prop.
Hypothesis HI : stable I.

Lemma keeps_wr_r7 v : keeps I (wr R_R7 v : M W unit).
Proof. apply keeps_wr_general; [done | unfold R_R7; lia]. Qed.

Lemma keeps_wr_r0 v : keeps I (wr R_R0 v : M W unit).
Proof. apply keeps_wr_general; [done | unfold R_R0; lia]. Qed.

Lemma keeps_wr_pc v : pc_free I -> keeps I (wr R_PC v : M W unit).
Proof. intros Hpc w s x w' s' H Hs. inversion H; subst. by apply Hpc. Qed.

Lemma keeps_wr_cond v : flag_free I -> is_flag v -> keeps I (wr R_COND v : M W unit).
Proof. intros Hc Hv w s x w' s' H Hs. inversion H; subst. by apply Hc. Qed.

Lemma keeps_update_flags r : flag_free I -> keeps I (update_flags r : M W unit).
Proof.
  intros Hc. unfold update_flags.
  apply keeps_bind; [apply keeps_rd | intros v].
  destruct (v =? 0); [| destruct (negb _)];
    apply keeps_wr_cond; unfold is_flag; auto.
Qed.

Lemma keeps_poll_keyboard : keeps I (poll_keyboard : M W unit).
Proof. unfold poll_keyboard. repeat keeps_step. Qed.

Lemma keeps_mem_read a : keeps I (mem_read a : M W Z).
Proof.
  unfold mem_read. apply keeps_bind; [| intros _; apply keeps_peek].
  destruct (a =? MR_KBSR); [apply keeps_poll_keyboard | apply keeps_ret].
Qed.

Lemma keeps_puts_loop room a : keeps I (puts_loop room a : M W unit).
Proof.
  revert a. induction room as [| room IH]; intros a; simpl.
  - apply keeps_overrun.
  - repeat keeps_step. apply IH.
Qed.

Lemma keeps_putsp_loop room a : keeps I (putsp_loop room a : M W unit).
Proof.
  revert a. induction room as [| room IH]; intros a; simpl.
  - apply keeps_overrun.
  - repeat keeps_step; apply IH.
Qed.

Ltac keeps_more :=
  first
    [ apply keeps_mem_read
    | apply keeps_wr_r7
    | apply keeps_wr_r0
    | apply keeps_puts_loop
    | apply keeps_putsp_loop
    | apply keeps_update_flags; assumption
    | apply keeps_wr_pc; assumption
    | keeps_step ].

(** Instructions that leave both [R_PC] and [R_COND] alone. *)
Lemma keeps_op_not i : keeps I (op_not i : M W status).
Proof. unfold op_not. repeat keeps_more. Qed.

Lemma keeps_op_st i : keeps I (op_st i : M W status).
Proof. unfold op_st. repeat keeps_more. Qed.

Lemma keeps_op_sti i : keeps I (op_sti i : M W status).
Proof. unfold op_sti. repeat keeps_more. Qed.

Lemma keeps_op_str i : keeps I (op_str i : M W status).
Proof. unfold op_str. repeat keeps_more. Qed.

Lemma keeps_trap_out : keeps I (trap_out : M W status).
Proof. unfold trap_out. repeat keeps_more. Qed.

Lemma keeps_trap_puts : keeps I (trap_puts : M W status).
Proof. unfold trap_puts. repeat keeps_more. Qed.

Lemma keeps_trap_putsp : keeps I (trap_putsp : M W status).
Proof. unfold trap_putsp. repeat keeps_more. Qed.

Lemma keeps_trap_halt : keeps I (trap_halt : M W status).
Proof. unfold trap_halt. repeat keeps_more. Qed.

(** Instructions that end in [update_flags]. *)
Section FlagWriters.

Hypothesis Hc : flag_free I.

Lemma keeps_op_add i : keeps I (op_add i : M W status).
Proof. unfold op_add. repeat keeps_more. Qed.

Lemma keeps_op_and i : keeps I (op_and i : M W status).
Proof. unfold op_and. repeat keeps_more. Qed.

Lemma keeps_op_ld i : keeps I (op_ld i : M W status).
Proof. unfold op_ld. repeat keeps_more. Qed.

Lemma keeps_op_ldi i : keeps I (op_ldi i : M W status).
Proof. unfold op_ldi. repeat keeps_more. Qed.

Lemma keeps_op_ldr i : keeps I (op_ldr i : M W status).
Proof. unfold op_ldr. repeat keeps_more. Qed.

Lemma keeps_op_lea i : keeps I (op_lea i : M W status).
Proof. unfold op_lea. repeat keeps_more. Qed.

Lemma keeps_trap_getc : keeps I (trap_getc : M W status).
Proof. unfold trap_getc. repeat keeps_more. Qed.

Lemma keeps_trap_in : keeps I (trap_in : M W status).
Proof. unfold trap_in. repeat keeps_more. Qed.

End FlagWriters.

(** Instructions that assign the program counter. *)
Section Jumps.

Hypothesis Hpc : pc_free I.

Lemma keeps_op_br i : keeps I (op_br i : M W status).
Proof. unfold op_br. repeat keeps_more. Qed.

Lemma keeps_op_jmp i : keeps I (op_jmp i : M W status).
Proof. unfold op_jmp. repeat keeps_more. Qed.

Lemma keeps_op_jsr i : keeps I (op_jsr i : M W status).
Proof. unfold op_jsr. repeat keeps_more. Qed.

Lemma keeps_fetch : keeps I (fetch : M W Z).
Proof. unfold fetch. repeat keeps_more. Qed.

End Jumps.

End Effects.

Section Dispatch.

Context {W : Type} {P : Provider W}.

Variable I : vm -> Prop.
Hypothesis HI : stable I.

Lemma keeps_op_trap i :
  (sets_flags i = true -> flag_free I) ->
  Z.shiftr i 12 = OP_TRAP ->
  keeps I (op_trap i : M W status).
Proof.
  intros Hf Hop. unfold op_trap.
  apply keeps_bind; [apply keeps_rd | intros pc].
  apply keeps_bind; [by apply keeps_wr_r7 | intros _]. cbv zeta.
  assert (Hsf : forall v, Z.land i 0xFF = v ->
            (v =? TRAP_GETC) || (v =? TRAP_IN) = true -> flag_free I).
  { intros v Hv Hb. apply Hf. unfold sets_flags. rewrite Hop, Hv.
    rewrite Hb. reflexivity. }
  destruct (Z.eqb_spec (Z.land i 0xFF) TRAP_GETC) as [E | _].
  { apply keeps_trap_getc; solve [done | by apply (Hsf _ E)]. }
  destruct (Z.eqb_spec (Z.land i 0xFF) TRAP_OUT) as [_ | _].
  { by apply keeps_trap_out. }
  destruct (Z.eqb_spec (Z.land i 0xFF) TRAP_PUTS) as [_ | _].
  { by apply keeps_trap_puts. }
  destruct (Z.eqb_spec (Z.land i 0xFF) TRAP_IN) as [E | _].
  { apply keeps_trap_in; solve [done | by apply (Hsf _ E)]. }
  destruct (Z.eqb_spec (Z.land i 0xFF) TRAP_PUTSP) as [_ | _].
  { by apply keeps_trap_putsp. }
  destruct (Z.eqb_spec (Z.land i 0xFF) TRAP_HALT) as [_ | _].
  { by apply keeps_trap_halt. }
  apply keeps_ret.
Qed.

Lemma keeps_exec i :
  (sets_flags i = true -> flag_free I) ->
  (sets_pc i = true -> pc_free I) ->
  keeps I (exec i : M W status).
Proof.
  intros Hf Hp. unfold exec. cbv zeta.
  assert (Hf' : forall op, Z.shiftr i 12 = op ->
            (op =? OP_ADD) || (op =? OP_AND) || (op =? OP_LD) || (op =? OP_LDI)
            || (op =? OP_LDR) || (op =? OP_LEA) = true -> flag_free I).
  { intros op Hop Hb. apply Hf. unfold sets_flags. rewrite Hop, Hb.
    reflexivity. }
  assert (Hp' : forall op, Z.shiftr i 12 = op ->
            (op =? OP_BR) || (op =? OP_JMP) || (op =? OP_JSR) = true -> pc_free I).
  { intros op Hop Hb. apply Hp. unfold sets_pc. by rewrite Hop. }
  repeat match goal with
  | |- keeps _ (if ?x =? ?c then _ else _) =>
      destruct (Z.eqb_spec x c) as [E | _];
      [ first
          [ by apply keeps_op_not
          | by apply keeps_op_st
          | by apply keeps_op_sti
          | by apply keeps_op_str
          | by apply keeps_op_trap
          | apply keeps_op_add; solve [done | by apply (Hf' _ E)]
          | apply keeps_op_and; solve [done | by apply (Hf' _ E)]
          | apply keeps_op_ld; solve [done | by apply (Hf' _ E)]
          | apply keeps_op_ldi; solve [done | by apply (Hf' _ E)]
          | apply keeps_op_ldr; solve [done | by apply (Hf' _ E)]
          | apply keeps_op_lea; solve [done | by apply (Hf' _ E)]
          | apply keeps_op_br; solve [done | by apply (Hp' _ E)]
          | apply keeps_op_jmp; solve [done | by apply (Hp' _ E)]
          | apply keeps_op_jsr; solve [done | by apply (Hp' _ E)] ]
      | ]
  end.
  apply keeps_abort.
Qed.

Lemma keeps_step : flag_free I -> pc_free I -> keeps I (step : M W status).
Proof.
  intros Hf Hp. unfold step.
  apply keeps_bind; [by apply keeps_fetch | intros i].
  by apply keeps_exec.
Qed.

Lemma keeps_run n : flag_free I -> pc_free I -> keeps I (run n : M W status).
Proof.
  intros Hf Hp. induction n as [| n IH]; simpl.
  - apply keeps_ret.
  - apply keeps_bind; [by apply keeps_step | intros [|]].
    + exact IH.
    + apply keeps_ret.
Qed.

End Dispatch.

(** * The invariants *)

Lemma wf_stable : stable wf.
Proof.
  split.
  - by intros s m.
  - by intros s o.
  - intros s i v _. apply wf_write_reg.
Qed.

Lemma wf_pc_free : pc_free wf.
Proof. intros s v. apply wf_write_reg. Qed.

Lemma wf_flag_free : flag_free wf.
Proof. intros s v _. apply wf_write_reg. Qed.

Lemma cond_of_write_general s i v :
  0 <= i <= 8 -> cond_of (write_reg s i v) = cond_of s.
Proof.
  intros Hi. unfold cond_of, write_reg; simpl.
  apply reg_at_write_ne; unfold R_COND; lia.
Qed.

Lemma cond_of_write_cond s v : wf s -> cond_of (write_reg s R_COND v) = v.
Proof.
  intros Hwf. unfold cond_of, write_reg; simpl.
  apply reg_at_write_eq. rewrite Hwf. unfold R_COND, R_COUNT. lia.
Qed.

Lemma pc_of_write_general s i v :
  0 <= i <= 7 -> pc_of (write_reg s i v) = pc_of s.
Proof.
  intros Hi. unfold pc_of, write_reg; simpl.
  apply reg_at_write_ne; unfold R_PC; lia.
Qed.

Lemma pc_of_write_cond s v : pc_of (write_reg s R_COND v) = pc_of s.
Proof.
  unfold pc_of, write_reg; simpl.
  apply reg_at_write_ne; unfold R_PC, R_COND; lia.
Qed.

Lemma flags_ok_stable : stable flags_ok.
Proof.
  split.
  - by intros s m.
  - by intros s o.
  - intros s i v Hi [Hwf Hc]. split; [by apply wf_write_reg |].
    rewrite cond_of_write_general; [done | lia].
Qed.

Lemma flags_ok_pc_free : pc_free flags_ok.
Proof.
  intros s v [Hwf Hc]. split; [by apply wf_write_reg |].
  rewrite cond_of_write_general; [done | unfold R_PC; lia].
Qed.

Lemma flags_ok_flag_free : flag_free flags_ok.
Proof.
  intros s v Hv [Hwf Hc]. split; [by apply wf_write_reg |].
  by rewrite cond_of_write_cond.
Qed.

Lemma boot_flags_ok image : flags_ok (boot image).
Proof. split; [reflexivity | right; left; reflexivity]. Qed.

Lemma run_flags_ok {W} {P : Provider W} n : keeps flags_ok (run n : M W status).
Proof.
  apply keeps_run.
  - apply flags_ok_stable.
  - apply flags_ok_flag_free.
  - apply flags_ok_pc_free.
Qed.

(** C5. The condition-flag register holds one of [FL_NEG], [FL_ZRO],
    [FL_POS] at all times: [main] stores [FL_ZRO] (and 0x3000 in the program
    counter) before the loop, [update_flags] always stores one of the three
    and touches nothing else, every iteration of the loop that completes
    keeps the register among the three values, and so does every state
    reached from start-up, for every memory image and every console. *)
Theorem cond_flag_always_one_of_three :
  (forall image, cond_of (boot image) = FL_ZRO /\ pc_of (boot image) = PC_START)
  /\ (forall (W : Type) (r : Z) (w : W) (s : vm),
        exists flag : Z,
          is_flag flag
          /\ update_flags r w s = Done (tt, w, write_reg s R_COND flag))
  /\ (forall (W : Type) (P : Provider W) (w w' : W) (s s' : vm) (st : status),
        flags_ok s -> step w s = Done (st, w', s') -> flags_ok s')
  /\ (forall (W : Type) (P : Provider W) (image : gmap Z Z) (n : nat)
             (w w' : W) (s' : vm) (st : status),
        run n w (boot image) = Done (st, w', s') ->
        cond_of s' = FL_NEG \/ cond_of s' = FL_ZRO \/ cond_of s' = FL_POS).
Proof.
  split; [| split; [| split]].
  - intros image. split; reflexivity.
  - intros W r w s. exists (sign_flag (reg_at (reg s) r)).
    split; [apply sign_flag_is_flag | apply update_flags_run].
  - intros W P w w' s s' st Hs Hstep.
    refine (keeps_step flags_ok flags_ok_stable flags_ok_flag_free
              flags_ok_pc_free _ _ _ _ _ Hstep Hs).
  - intros W P image n w w' s' st Hrun.
    apply (run_flags_ok n _ _ _ _ _ Hrun (boot_flags_ok image)).
Qed.

(** * Who writes the program counter and the flags *)

Lemma pc_kept_stable v : stable (fun s => pc_of s = v).
Proof.
  split.
  - by intros s m.
  - by intros s o.
  - intros s i x Hi Hs. by rewrite pc_of_write_general.
Qed.

Lemma pc_kept_flag_free v : flag_free (fun s => pc_of s = v).
Proof. intros s x _ Hs. by rewrite pc_of_write_cond. Qed.

Lemma cond_kept_stable v : stable (fun s => cond_of s = v).
Proof.
  split.
  - by intros s m.
  - by intros s o.
  - intros s i x Hi Hs. rewrite cond_of_write_general; [done | lia].
Qed.

Lemma cond_kept_pc_free v : pc_free (fun s => cond_of s = v).
Proof.
  intros s x Hs. rewrite cond_of_write_general; [done | unfold R_PC; lia].
Qed.

Section FlagsFrom.

Context {W : Type} {P : Provider W}.

Lemma flags_from_bind {A B} r (m : M W A) (k : A -> M W B) :
  keeps wf m -> (forall a, flags_from r (k a)) -> flags_from r (m ≫= k).
Proof.
  intros Hm Hk w s b w' s' H Hwf.
  unfold mbind, vm_bind in H.
  destruct (m w s) as [[[a w1] s1] | |] eqn:E; try discriminate.
  eapply Hk; [exact H |]. eapply Hm; eauto.
Qed.

Lemma flags_from_update r (st : status) :
  0 <= r <= 7 -> flags_from r (update_flags r;; mret st : M W status).
Proof.
  intros Hr w s a w' s' H Hwf.
  unfold mbind, vm_bind in H. rewrite update_flags_run in H.
  inversion H; subst; clear H.
  rewrite cond_of_write_cond by done.
  unfold write_reg; simpl. f_equal. symmetry.
  apply reg_at_write_ne; unfold R_COND; lia.
Qed.

Ltac flags_from_step :=
  first
    [ apply flags_from_update; first [apply field3_range | unfold R_R0; lia]
    | apply flags_from_bind; [| intros ? ] ].

Ltac keeps_wf :=
  repeat first
    [ apply keeps_mem_read; apply wf_stable
    | apply keeps_wr_field; apply wf_stable
    | apply keeps_wr_r0; apply wf_stable
    | apply keeps_wr_r7; apply wf_stable
    | apply keeps_print; apply wf_stable
    | apply keeps_putc; apply wf_stable
    | keeps_step ].

Lemma flags_from_op_add i :
  flags_from (Z.land (Z.shiftr i 9) 0x7) (op_add i : M W status).
Proof. unfold op_add. cbv zeta. repeat flags_from_step. keeps_wf. Qed.

Lemma flags_from_op_and i :
  flags_from (Z.land (Z.shiftr i 9) 0x7) (op_and i : M W status).
Proof. unfold op_and. cbv zeta. repeat flags_from_step. keeps_wf. Qed.

Lemma flags_from_op_ld i :
  flags_from (Z.land (Z.shiftr i 9) 0x7) (op_ld i : M W status).
Proof. unfold op_ld. cbv zeta. repeat flags_from_step; keeps_wf. Qed.

Lemma flags_from_op_ldi i :
  flags_from (Z.land (Z.shiftr i 9) 0x7) (op_ldi i : M W status).
Proof. unfold op_ldi. cbv zeta. repeat flags_from_step; keeps_wf. Qed.

Lemma flags_from_op_ldr i :
  flags_from (Z.land (Z.shiftr i 9) 0x7) (op_ldr i : M W status).
Proof. unfold op_ldr. cbv zeta. repeat flags_from_step; keeps_wf. Qed.

Lemma flags_from_op_lea i :
  flags_from (Z.land (Z.shiftr i 9) 0x7) (op_lea i : M W status).
Proof. unfold op_lea. cbv zeta. repeat flags_from_step; keeps_wf. Qed.

Lemma flags_from_trap_getc : flags_from R_R0 (trap_getc : M W status).
Proof. unfold trap_getc. repeat flags_from_step; keeps_wf. Qed.

Lemma flags_from_trap_in : flags_from R_R0 (trap_in : M W status).
Proof. unfold trap_in. cbv zeta. repeat flags_from_step; keeps_wf. Qed.

Lemma flags_from_exec i :
  sets_flags i = true -> flags_from (flag_source i) (exec i : M W status).
Proof.
  unfold sets_flags, flag_source, exec. cbv zeta. intros Hsf.
  destruct (Z.eqb_spec (Z.shiftr i 12) OP_ADD) as [E | _];
    [rewrite E; apply flags_from_op_add |].
  destruct (Z.eqb_spec (Z.shiftr i 12) OP_AND) as [E | _];
    [rewrite E; apply flags_from_op_and |].
  destruct (Z.eqb_spec (Z.shiftr i 12) OP_NOT) as [E | _];
    [rewrite E in Hsf; discriminate |].
  destruct (Z.eqb_spec (Z.shiftr i 12) OP_BR) as [E | _];
    [rewrite E in Hsf; discriminate |].
  destruct (Z.eqb_spec (Z.shiftr i 12) OP_JMP) as [E | _];
    [rewrite E in Hsf; discriminate |].
  destruct (Z.eqb_spec (Z.shiftr i 12) OP_JSR) as [E | _];
    [rewrite E in Hsf; discriminate |].
  destruct (Z.eqb_spec (Z.shiftr i 12) OP_LD) as [E | _];
    [rewrite E; apply flags_from_op_ld |].
  destruct (Z.eqb_spec (Z.shiftr i 12) OP_LDI) as [E | _];
    [rewrite E; apply flags_from_op_ldi |].
  destruct (Z.eqb_spec (Z.shiftr i 12) OP_LDR) as [E | _];
    [rewrite E; apply flags_from_op_ldr |].
  destruct (Z.eqb_spec (Z.shiftr i 12) OP_LEA) as [E | _];
    [rewrite E; apply flags_from_op_lea |].
  destruct (Z.eqb_spec (Z.shiftr i 12) OP_ST) as [E | _];
    [rewrite E in Hsf; discriminate |].
  destruct (Z.eqb_spec (Z.shiftr i 12) OP_STI) as [E | _];
    [rewrite E in Hsf; discriminate |].
  destruct (Z.eqb_spec (Z.shiftr i 12) OP_STR) as [E | _];
    [rewrite E in Hsf; discriminate |].
  destruct (Z.eqb_spec (Z.shiftr i 12) OP_TRAP) as [E | Hne].
  - simpl in Hsf. unfold op_trap. cbv zeta.
    apply flags_from_bind; [apply keeps_rd | intros pc].
    apply flags_from_bind; [apply keeps_wr_r7, wf_stable | intros _].
    destruct (Z.eqb_spec (Z.land i 0xFF) TRAP_GETC) as [_ | _];
      [apply flags_from_trap_getc |].
    destruct (Z.eqb_spec (Z.land i 0xFF) TRAP_OUT) as [E' | _];
      [rewrite E' in Hsf; discriminate |].
    destruct (Z.eqb_spec (Z.land i 0xFF) TRAP_PUTS) as [E' | _];
      [rewrite E' in Hsf; discriminate |].
    destruct (Z.eqb_spec (Z.land i 0xFF) TRAP_IN) as [_ | _];
      [apply flags_from_trap_in |].
    discriminate.
  - intros w s a w' s' H. discriminate.
Qed.

End FlagsFrom.

Lemma fetch_run {W} {P : Provider W} (w w1 : W) (s s1 : vm) (i : Z) :
  (fetch : M W Z) w s = Done (i, w1, s1) ->
  exists s0, s0 = write_reg s R_PC (u16 (pc_of s + 1))
    /\ (mem_read (pc_of s) : M W Z) w s0 = Done (i, w1, s1).
Proof.
  intros H. exists (write_reg s R_PC (u16 (pc_of s + 1))). split; [done |].
  exact H.
Qed.

Lemma fetch_advances_pc {W} {P : Provider W} (w w1 : W) (s s1 : vm) (i : Z) :
  wf s -> (fetch : M W Z) w s = Done (i, w1, s1) ->
  pc_of s1 = u16 (pc_of s + 1) /\ wf s1.
Proof.
  intros Hwf H. apply fetch_run in H as (s0 & -> & H).
  assert (Hpc : pc_of (write_reg s R_PC (u16 (pc_of s + 1))) = u16 (pc_of s + 1)).
  { unfold pc_of at 1, write_reg; simpl. apply reg_at_write_eq.
    rewrite Hwf. unfold R_PC, R_COUNT. lia. }
  split.
  - rewrite <- Hpc.
    apply (keeps_mem_read _ (pc_kept_stable _) _ _ _ _ _ _ H eq_refl).
  - apply (keeps_mem_read _ wf_stable _ _ _ _ _ _ H).
    by apply wf_write_reg.
Qed.

(** C10. Every register selector decoded from an operand field is masked
    with 0x7 and so lies in 0..7; a write to [reg] at such an index leaves
    [reg[R_PC]] and [reg[R_COND]] as they were.  Hence the fetch is the
    increment of the program counter, only BR, JMP and JSR/JSRR change it
    while an instruction executes, and the condition flags change only in
    the instructions that call [update_flags], where they end up as the
    flags of the register it was called on. *)
Theorem operand_fields_cannot_reach_pc_or_cond :
  (forall instr : Z,
      0 <= Z.land (Z.shiftr instr 9) 0x7 <= 7
      /\ 0 <= Z.land (Z.shiftr instr 6) 0x7 <= 7
      /\ 0 <= Z.land instr 0x7 <= 7)
  /\ (forall (s : vm) (i v : Z), 0 <= i <= 7 ->
        pc_of (write_reg s i v) = pc_of s
        /\ cond_of (write_reg s i v) = cond_of s)
  /\ (forall (W : Type) (P : Provider W) (w w1 : W) (s s1 : vm) (instr : Z),
        wf s -> fetch w s = Done (instr, w1, s1) ->
        pc_of s1 = u16 (pc_of s + 1) /\ cond_of s1 = cond_of s)
  /\ (forall (W : Type) (P : Provider W) (instr : Z) (w w' : W) (s s' : vm)
             (st : status),
        exec instr w s = Done (st, w', s') ->
        (sets_pc instr = false -> pc_of s' = pc_of s)
        /\ (sets_flags instr = false -> cond_of s' = cond_of s)
        /\ (sets_flags instr = true -> wf s ->
              cond_of s' = sign_flag (reg_at (reg s') (flag_source instr)))).
Proof.
  split; [| split; [| split]].
  - intros instr. repeat split; apply field3_range.
  - intros s i v Hi. split.
    + by apply pc_of_write_general.
    + apply cond_of_write_general. lia.
  - intros W P w w1 s s1 instr Hwf Hf. split.
    + by destruct (fetch_advances_pc _ _ _ _ _ Hwf Hf).
    + apply (keeps_fetch _ (cond_kept_stable _) (cond_kept_pc_free _)
               _ _ _ _ _ Hf eq_refl).
  - intros W P instr w w' s s' st Hexec. split; [| split].
    + intros Hpc.
      refine (keeps_exec _ (pc_kept_stable (pc_of s)) instr _ _
                _ _ _ _ _ Hexec eq_refl).
      * intros _. apply pc_kept_flag_free.
      * intros Habs. congruence.
    + intros Hfl.
      refine (keeps_exec _ (cond_kept_stable (cond_of s)) instr _ _
                _ _ _ _ _ Hexec eq_refl).
      * intros Habs. congruence.
      * intros _. apply cond_kept_pc_free.
    + intros Hfl Hwf. by apply (flags_from_exec instr Hfl _ _ _ _ _ Hexec).
Qed.

(** * Sign extension *)

Lemma low_bit_test (x n : Z) :
  0 <= n -> (Z.land (Z.shiftr x n) 1 =? 0) = negb (Z.testbit x n).
Proof.
  intros Hn.
  assert (Hland : Z.land (Z.shiftr x n) 1 = Z.b2z (Z.testbit x n)).
  { apply Z.bits_inj'. intros k Hk.
    rewrite Z.land_spec, Z.shiftr_spec by lia.
    destruct (Z.eq_dec k 0) as [-> | Hk0].
    - rewrite Z.add_0_l. change (Z.testbit 1 0) with true.
      rewrite andb_true_r. by rewrite Z.b2z_bit0.
    - assert (Z.testbit 1 k = false) as -> by (apply (Z.bits_above_log2 1 k); simpl; lia).
      rewrite andb_false_r. symmetry.
      destruct (Z.testbit x n); simpl.
      + apply (Z.bits_above_log2 1 k); simpl; lia.
      + apply Z.bits_0. }
  rewrite Hland. by destruct (Z.testbit x n).
Qed.

Lemma sign_extend_clear (x w : Z) :
  1 <= w -> Z.testbit x (w - 1) = false -> sign_extend x w = x.
Proof.
  intros Hw Hbit. unfold sign_extend.
  rewrite low_bit_test by lia. by rewrite Hbit.
Qed.

Lemma sign_extend_set (x w : Z) :
  1 <= w -> Z.testbit x (w - 1) = true ->
  sign_extend x w = u16 (Z.lor x (Z.shiftl 0xFFFF w)).
Proof.
  intros Hw Hbit. unfold sign_extend.
  rewrite low_bit_test by lia. by rewrite Hbit.
Qed.

Lemma sign_extend_set_bits (x w i : Z) :
  1 <= w -> Z.testbit x (w - 1) = true -> 0 <= i < 16 ->
  Z.testbit (sign_extend x w) i = Z.testbit x i || (w <=? i).
Proof.
  intros Hw Hbit Hi. rewrite sign_extend_set by done. unfold u16.
  change 65536 with (2 ^ 16).
  rewrite Z.mod_pow2_bits_low by lia.
  rewrite Z.lor_spec, Z.shiftl_spec by lia. f_equal.
  destruct (Z.leb_spec w i) as [Hle | Hlt].
  - change 0xFFFF with (Z.ones 16). apply Z.ones_spec_low. lia.
  - apply Z.testbit_neg_r. lia.
Qed.

(** C4. For every width 1..16 and every 16-bit [x] whose bit [width - 1] is
    set, [sign_extend x width] is a 16-bit word with bits [width]..15 all 1
    and the low [width] bits those of [x]; when that bit is clear the input
    comes back unchanged (in particular when its bits above the width are
    zero).  [sign_extend 0x1F 5 = 0xFFFF] and [sign_extend 0x0F 5 = 0x000F]. *)
Theorem sign_extend_spec :
  (forall x width : Z, 1 <= width <= 16 -> 0 <= x < 65536 ->
     (Z.testbit x (width - 1) = true ->
        (forall i, width <= i < 16 -> Z.testbit (sign_extend x width) i = true)
        /\ (forall i, 0 <= i < width ->
              Z.testbit (sign_extend x width) i = Z.testbit x i)
        /\ sign_extend x width mod 2 ^ width = x mod 2 ^ width
        /\ 0 <= sign_extend x width < 65536)
     /\ (Z.testbit x (width - 1) = false ->
         (x < 2 ^ width -> sign_extend x width = x)
         /\ sign_extend x width = x))
  /\ sign_extend 0x1F 5 = 0xFFFF
  /\ sign_extend 0x0F 5 = 0x000F.
Proof.
  split; [| split; reflexivity].
  intros x width Hw Hx. split.
  - intros Hbit.
    assert (Hlow : forall i, 0 <= i < width ->
              Z.testbit (sign_extend x width) i = Z.testbit x i).
    { intros i Hi. rewrite sign_extend_set_bits by first [lia | done].
      destruct (Z.leb_spec width i); [lia |]. apply orb_false_r. }
    split; [| split; [| split]].
    + intros i Hi. rewrite sign_extend_set_bits by first [lia | done].
      destruct (Z.leb_spec width i); [| lia]. apply orb_true_r.
    + exact Hlow.
    + apply Z.bits_inj'. intros i Hi.
      destruct (Z.lt_ge_cases i width).
      * rewrite !Z.mod_pow2_bits_low by lia. apply Hlow. lia.
      * rewrite !Z.mod_pow2_bits_high by lia. reflexivity.
    + rewrite sign_extend_set by first [lia | done]. unfold u16.
      apply Z.mod_pos_bound. lia.
  - intros Hbit. split; [intros _ |]; apply sign_extend_clear; first [lia | done].
Qed.

(** * Reading memory *)

(** C7. [mem_read] changes the machine only when the address is the
    keyboard status register: there it asks the console whether a key is
    waiting and either stores [1 << 15] in the status word and the next
    input character in the data register [MR_KBDR], or stores 0 in the
    status word, and returns the status word just written.  At every other
    address, [MR_KBDR] included, it returns the cell and leaves memory,
    registers, output and console exactly as they were. *)
Theorem mem_read_polls_only_at_kbsr :
  forall (W : Type) (P : Provider W) (w : W) (s : vm),
    (forall address, address <> MR_KBSR ->
       mem_read address w s = Done (mem_at (memory s) address, w, s))
    /\ mem_read MR_KBDR w s = Done (mem_at (memory s) MR_KBDR, w, s)
    /\ (forall w1 c w2, check_key w = (true, w1) -> getchar w1 = (c, w2) ->
          let s' := set_memory s
                      (<[MR_KBDR := u16 c]> (<[MR_KBSR := 0x8000]> (memory s))) in
          mem_read MR_KBSR w s = Done (0x8000, w2, s')
          /\ mem_at (memory s') MR_KBSR = 0x8000
          /\ (0 <= c < 256 -> mem_at (memory s') MR_KBDR = c)
          /\ reg s' = reg s /\ output s' = output s)
    /\ (forall w1, check_key w = (false, w1) ->
          let s' := set_memory s (<[MR_KBSR := 0]> (memory s)) in
          mem_read MR_KBSR w s = Done (0, w1, s')
          /\ reg s' = reg s /\ output s' = output s).
Proof.
  intros W P w s.
  assert (Hplain : forall address, address <> MR_KBSR ->
            mem_read address w s = Done (mem_at (memory s) address, w, s)).
  { intros address Hne. unfold mem_read.
    destruct (Z.eqb_spec address MR_KBSR) as [E | _]; [done |].
    reflexivity. }
  split; [exact Hplain | split; [by apply Hplain | split]].
  - intros w1 c w2 Hk Hg s'.
    assert (Hrun : mem_read MR_KBSR w s = Done (0x8000, w2, s')).
    { unfold mem_read, poll_keyboard, mbind, vm_bind, host, mem_write, peek.
      simpl. rewrite Hk. simpl. rewrite Hg. simpl. unfold mem_at.
      rewrite lookup_insert_ne by done. by rewrite lookup_insert_eq. }
    split; [exact Hrun |]. split; [| split; [| done]].
    + unfold s', mem_at; simpl.
      rewrite lookup_insert_ne by done. by rewrite lookup_insert_eq.
    + intros Hc. unfold s', mem_at; simpl. rewrite lookup_insert_eq. simpl.
      unfold u16. apply Z.mod_small. lia.
  - intros w1 Hk s'. split; [| done].
    unfold mem_read, poll_keyboard, mbind, vm_bind, host, mem_write, peek.
    simpl. rewrite Hk. simpl. unfold mem_at. by rewrite lookup_insert_eq.
Qed.

(** * ADD and AND: the two operand modes *)

Section Arith.

Context {W : Type} {P : Provider W}.

(** The state an instruction leaves after writing [v] to register [r0] and
    calling [update_flags] on it. *)
Lemma write_then_flags (r0 v : Z) (w : W) (s : vm) :
  (wr r0 v;; update_flags r0;; mret Running : M W status) w s
  = Done (Running, w,
          write_reg (write_reg s r0 v) R_COND
            (sign_flag (reg_at (reg (write_reg s r0 v)) r0))).
Proof.
  unfold mbind, vm_bind at 1 2. unfold wr at 1.
  by rewrite update_flags_run.
Qed.

Lemma op_add_run (i : Z) (w : W) (s : vm) :
  (op_add i : M W status) w s
  = (wr (Z.land (Z.shiftr i 9) 0x7)
        (u16 (reg_at (reg s) (Z.land (Z.shiftr i 6) 0x7)
              + (if Z.land (Z.shiftr i 5) 0x1 =? 0
                 then reg_at (reg s) (Z.land i 0x7)
                 else sign_extend (Z.land i 0x1F) 5)));;
     update_flags (Z.land (Z.shiftr i 9) 0x7);; mret Running) w s.
Proof.
  unfold op_add. cbv zeta.
  destruct (Z.land (Z.shiftr i 5) 0x1 =? 0); reflexivity.
Qed.

Lemma op_and_run (i : Z) (w : W) (s : vm) :
  (op_and i : M W status) w s
  = (wr (Z.land (Z.shiftr i 9) 0x7)
        (Z.land (reg_at (reg s) (Z.land (Z.shiftr i 6) 0x7))
                (if Z.land (Z.shiftr i 5) 0x1 =? 0
                 then reg_at (reg s) (Z.land i 0x7)
                 else sign_extend (Z.land i 0x1F) 5));;
     update_flags (Z.land (Z.shiftr i 9) 0x7);; mret Running) w s.
Proof.
  unfold op_and. cbv zeta.
  destruct (Z.land (Z.shiftr i 5) 0x1 =? 0); reflexivity.
Qed.

Lemma exec_add (i : Z) : Z.shiftr i 12 = OP_ADD -> (exec i : M W status) = op_add i.
Proof. intros H. unfold exec. by rewrite H. Qed.

Lemma exec_and (i : Z) : Z.shiftr i 12 = OP_AND -> (exec i : M W status) = op_and i.
Proof. intros H. unfold exec. by rewrite H. Qed.

Lemma exec_jsr (i : Z) : Z.shiftr i 12 = OP_JSR -> (exec i : M W status) = op_jsr i.
Proof. intros H. unfold exec. by rewrite H. Qed.

Lemma exec_jmp (i : Z) : Z.shiftr i 12 = OP_JMP -> (exec i : M W status) = op_jmp i.
Proof. intros H. unfold exec. by rewrite H. Qed.

End Arith.


(** * Subroutine call and return *)

Section Calls.

Context {W : Type} {P : Provider W}.

Lemma mem_read_registers (a v : Z) (w w' : W) (s s' : vm) :
  (mem_read a : M W Z) w s = Done (v, w', s') ->
  reg s' = reg s /\ output s' = output s.
Proof.
  unfold mem_read, poll_keyboard, mbind, vm_bind, host, mem_write, peek,
    mret, vm_ret.
  destruct (a =? MR_KBSR).
  - destruct (check_key w) as [[|] w1].
    + destruct (getchar w1) as [c w2]. intros H. by inversion H; subst.
    + intros H. by inversion H; subst.
  - intros H. by inversion H; subst.
Qed.

Lemma fetch_registers (i : Z) (w w' : W) (s s' : vm) :
  (fetch : M W Z) w s = Done (i, w', s') ->
  reg s' = <[Z.to_nat R_PC := u16 (pc_of s + 1)]> (reg s).
Proof.
  intros H. apply fetch_run in H as (s0 & -> & H).
  by apply mem_read_registers in H as [-> _].
Qed.

Lemma op_jsr_run (i : Z) (w : W) (s : vm) :
  exists target : Z,
    (op_jsr i : M W status) w s
    = Done (Running, w,
            write_reg (write_reg s R_R7 (pc_of s)) R_PC target).
Proof.
  unfold op_jsr. cbv zeta.
  destruct (negb (Z.land (Z.shiftr i 11) 0x1 =? 0)); eexists; reflexivity.
Qed.

Lemma op_jsr_saves_pc (i : Z) (w w' : W) (s s' : vm) (st : status) :
  wf s -> (op_jsr i : M W status) w s = Done (st, w', s') ->
  st = Running /\ reg_at (reg s') R_R7 = pc_of s.
Proof.
  intros Hwf H. destruct (op_jsr_run i w s) as [target Hrun].
  rewrite Hrun in H. inversion H; subst. split; [done |].
  unfold write_reg; simpl.
  rewrite reg_at_write_ne by (unfold R_PC, R_R7; lia).
  apply reg_at_write_eq. rewrite Hwf. unfold R_R7, R_COUNT. lia.
Qed.

Lemma op_jmp_run (i : Z) (w : W) (s : vm) :
  (op_jmp i : M W status) w s
  = Done (Running, w,
          write_reg s R_PC (reg_at (reg s) (Z.land (Z.shiftr i 6) 0x7))).
Proof. reflexivity. Qed.

Lemma step_run (w : W) (s : vm) :
  (step : M W status) w s
  = match (fetch : M W Z) w s with
    | Done (i, w1, s1) => exec i w1 s1
    | Aborted => Aborted
    | Overrun => Overrun
    end.
Proof.
  unfold step, mbind, vm_bind.
  by destruct (fetch w s) as [[[i w1] s1] | |].
Qed.

End Calls.

(** C8. JSR (and JSRR) stores the program counter, already incremented by
    the fetch, so the address of the instruction after the JSR, in R7 before
    it transfers control.  Hence, if the code that runs next brings R7 back
    unchanged to a JMP R7, the step that executes this JMP leaves the
    program counter at the address right after the original JSR. *)
Theorem jsr_then_jmp_r7_returns :
  forall (W : Type) (P : Provider W) (w0 wa : W) (s0 sa : vm) (i : Z),
    wf s0 ->
    fetch w0 s0 = Done (i, wa, sa) ->
    Z.shiftr i 12 = OP_JSR ->
    exists (w1 : W) (s1 : vm),
      step w0 s0 = Done (Running, w1, s1)
      /\ reg_at (reg s1) R_R7 = u16 (pc_of s0 + 1)
      /\ forall (n : nat) (w2 wb : W) (s2 sb : vm) (j : Z),
           run n w1 s1 = Done (Running, w2, s2) ->
           reg_at (reg s2) R_R7 = reg_at (reg s1) R_R7 ->
           fetch w2 s2 = Done (j, wb, sb) ->
           Z.shiftr j 12 = OP_JMP ->
           Z.land (Z.shiftr j 6) 0x7 = R_R7 ->
           exists (w3 : W) (s3 : vm),
             step w2 s2 = Done (Running, w3, s3)
             /\ pc_of s3 = u16 (pc_of s0 + 1).
Proof.
  intros W P w0 wa s0 sa i Hwf Hfetch Hop.
  destruct (fetch_advances_pc _ _ _ _ _ Hwf Hfetch) as [Hpc Hwfa].
  destruct (op_jsr_run i wa sa) as [target Hjsr].
  exists wa, (write_reg (write_reg sa R_R7 (pc_of sa)) R_PC target).
  assert (Hstep : step w0 s0 = Done (Running, wa,
            write_reg (write_reg sa R_R7 (pc_of sa)) R_PC target)).
  { rewrite step_run, Hfetch, (exec_jsr _ Hop). exact Hjsr. }
  assert (Hr7 : reg_at (reg (write_reg (write_reg sa R_R7 (pc_of sa)) R_PC target))
                  R_R7 = u16 (pc_of s0 + 1)).
  { rewrite <- Hpc. by apply (op_jsr_saves_pc i wa wa sa _ Running Hwfa). }
  split; [exact Hstep | split; [exact Hr7 |]].
  intros n w2 wb s2 sb j Hrun Hkeep Hfetch2 Hop2 Hbase.
  assert (Hwf1 : wf (write_reg (write_reg sa R_R7 (pc_of sa)) R_PC target))
    by (do 2 apply wf_write_reg; exact Hwfa).
  assert (Hwf2 : wf s2).
  { exact (keeps_run wf wf_stable n wf_flag_free wf_pc_free _ _ _ _ _ Hrun Hwf1). }
  exists wb, (write_reg sb R_PC (reg_at (reg sb) (Z.land (Z.shiftr j 6) 0x7))).
  split.
  - rewrite step_run, Hfetch2, (exec_jmp _ Hop2). apply op_jmp_run.
  - assert (Hwfb : wf sb) by (by destruct (fetch_advances_pc _ _ _ _ _ Hwf2 Hfetch2)).
    unfold pc_of at 1, write_reg; simpl.
    rewrite reg_at_write_eq by (rewrite Hwfb; unfold R_PC, R_COUNT; lia).
    rewrite Hbase, (fetch_registers _ _ _ _ _ Hfetch2).
    rewrite reg_at_write_ne by (unfold R_PC, R_R7; lia).
    by rewrite Hkeep.
Qed.

(** * Determinism *)

Section Determinism.

Context {W1 W2 : Type} {P1 : Provider W1} {P2 : Provider W2}.

Variable R : W1 -> W2 -> Prop.
Hypothesis HR : same_answers R.

Lemma sim_ret {A} (a : A) : sim R (mret a) (mret a).
Proof. intros w1 w2 s Hw. simpl. auto. Qed.

Lemma sim_bind {A B} (m1 : M W1 A) (m2 : M W2 A)
    (k1 : A -> M W1 B) (k2 : A -> M W2 B) :
  sim R m1 m2 -> (forall a, sim R (k1 a) (k2 a)) ->
  sim R (m1 ≫= k1) (m2 ≫= k2).
Proof.
  intros Hm Hk w1 w2 s Hw. specialize (Hm w1 w2 s Hw).
  unfold mbind, vm_bind.
  destruct (m1 w1 s) as [[[a1 v1] s1] | |], (m2 w2 s) as [[[a2 v2] s2] | |];
    simpl in Hm; try done.
  destruct Hm as (-> & Hv & ->). by apply Hk.
Qed.

Lemma sim_rd i : sim R (rd i) (rd i).
Proof. intros w1 w2 s Hw. simpl. auto. Qed.

Lemma sim_wr i v : sim R (wr i v) (wr i v).
Proof. intros w1 w2 s Hw. simpl. auto. Qed.

Lemma sim_peek a : sim R (peek a) (peek a).
Proof. intros w1 w2 s Hw. simpl. auto. Qed.

Lemma sim_putc c : sim R (putc c) (putc c).
Proof. intros w1 w2 s Hw. simpl. auto. Qed.

Lemma sim_print str : sim R (print str) (print str).
Proof. intros w1 w2 s Hw. simpl. auto. Qed.

Lemma sim_mem_write a v : sim R (mem_write a v) (mem_write a v).
Proof. intros w1 w2 s Hw. simpl. auto. Qed.

Lemma sim_abort {A} : sim R (abort : M W1 A) (abort : M W2 A).
Proof. intros w1 w2 s Hw. exact Logic.I. Qed.

Lemma sim_overrun {A} : sim R (overrun : M W1 A) (overrun : M W2 A).
Proof. intros w1 w2 s Hw. exact Logic.I. Qed.

Lemma sim_check_key : sim R (host check_key) (host check_key).
Proof.
  intros w1 w2 s Hw. unfold host.
  destruct (same_check_key R HR w1 w2 Hw) as [Hb Hw'].
  destruct (check_key w1) as [b1 v1], (check_key w2) as [b2 v2].
  simpl in *. auto.
Qed.

Lemma sim_getchar : sim R (host getchar) (host getchar).
Proof.
  intros w1 w2 s Hw. unfold host.
  destruct (same_getchar R HR w1 w2 Hw) as [Hb Hw'].
  destruct (getchar w1) as [b1 v1], (getchar w2) as [b2 v2].
  simpl in *. auto.
Qed.

Ltac sim_step :=
  first
    [ apply sim_ret
    | apply sim_rd
    | apply sim_wr
    | apply sim_peek
    | apply sim_putc
    | apply sim_print
    | apply sim_mem_write
    | apply sim_abort
    | apply sim_overrun
    | apply sim_check_key
    | apply sim_getchar
    | apply sim_bind; [| intros ? ]
    | match goal with
      | |- sim _ (if ?b then _ else _) (if ?b then _ else _) => destruct b
      end ].

Lemma sim_update_flags r : sim R (update_flags r) (update_flags r).
Proof. unfold update_flags. repeat sim_step. Qed.

Lemma sim_mem_read a : sim R (mem_read a) (mem_read a).
Proof. unfold mem_read, poll_keyboard. repeat sim_step. Qed.

Lemma sim_puts_loop room a : sim R (puts_loop room a) (puts_loop room a).
Proof.
  revert a. induction room as [| room IH]; intros a; simpl.
  - apply sim_overrun.
  - repeat sim_step. apply IH.
Qed.

Lemma sim_putsp_loop room a : sim R (putsp_loop room a) (putsp_loop room a).
Proof.
  revert a. induction room as [| room IH]; intros a; simpl.
  - apply sim_overrun.
  - repeat sim_step; apply IH.
Qed.

Ltac sim_more :=
  cbv zeta;
  repeat first
    [ apply sim_update_flags
    | apply sim_mem_read
    | apply sim_puts_loop
    | apply sim_putsp_loop
    | sim_step ].

Lemma sim_op_trap i : sim R (op_trap i) (op_trap i).
Proof.
  unfold op_trap, trap_getc, trap_out, trap_puts, trap_in, trap_putsp,
    trap_halt.
  sim_more.
Qed.

Lemma sim_exec i : sim R (exec i) (exec i).
Proof.
  unfold exec. cbv zeta.
  repeat match goal with
  | |- sim _ (if ?b then _ else _) (if ?b then _ else _) => destruct b
  end;
  try apply sim_op_trap; try apply sim_abort.
  all: unfold op_add, op_and, op_not, op_br, op_jmp, op_jsr, op_ld, op_ldi,
         op_ldr, op_lea, op_st, op_sti, op_str; sim_more.
Qed.

Lemma sim_fetch : sim R fetch fetch.
Proof. unfold fetch. sim_more. Qed.

Lemma sim_step_loop : sim R step step.
Proof. unfold step. apply sim_bind; [apply sim_fetch | apply sim_exec]. Qed.

Lemma sim_run n : sim R (run n) (run n).
Proof.
  induction n as [| n IH]; simpl.
  - apply sim_ret.
  - apply sim_bind; [apply sim_step_loop | intros [|]].
    + exact IH.
    + apply sim_ret.
Qed.

End Determinism.

(** ** The answers a run receives *)

Section Replay.

Context {W1 W2 : Type} {P1 : Provider W1} {P2 : Provider W2}.

Lemma replays_quiet {A} (f : vm -> A * vm) :
  replays (fun (lw : logged W1) s => Done (fst (f s), lw, snd (f s)))
          (fun (w : W2) s => Done (fst (f s), w, snd (f s))).
Proof.
  intros lw s. exists []. split; [exact Logic.I |].
  split; [by rewrite app_nil_r |]. split; [by intros rest |].
  intros w2 rest Hw. by exists w2.
Qed.

Lemma replays_ret {A} (a : A) :
  replays (mret a : M (logged W1) A) (mret a : M W2 A).
Proof. exact (replays_quiet (fun s => (a, s))). Qed.

Lemma replays_rd i : replays (rd i : M (logged W1) Z) (rd i : M W2 Z).
Proof. exact (replays_quiet (fun s => (reg_at (reg s) i, s))). Qed.

Lemma replays_wr i v :
  replays (wr i v : M (logged W1) unit) (wr i v : M W2 unit).
Proof. exact (replays_quiet (fun s => (tt, write_reg s i v))). Qed.

Lemma replays_peek a : replays (peek a : M (logged W1) Z) (peek a : M W2 Z).
Proof. exact (replays_quiet (fun s => (mem_at (memory s) a, s))). Qed.

Lemma replays_putc c :
  replays (putc c : M (logged W1) unit) (putc c : M W2 unit).
Proof.
  exact (replays_quiet (fun s => (tt, set_output s (output s ++ [c mod 256])))).
Qed.

Lemma replays_print str :
  replays (print str : M (logged W1) unit) (print str : M W2 unit).
Proof.
  exact (replays_quiet
           (fun s => (tt, set_output s (output s ++ bytes_of_string str)))).
Qed.

Lemma replays_mem_write a v :
  replays (mem_write a v : M (logged W1) unit) (mem_write a v : M W2 unit).
Proof.
  exact (replays_quiet
           (fun s => (tt, set_memory s (<[a := v]> (memory s))))).
Qed.

Lemma replays_abort {A} : replays (abort : M (logged W1) A) (abort : M W2 A).
Proof. intros lw s. exists []. by split. Qed.

Lemma replays_overrun {A} :
  replays (overrun : M (logged W1) A) (overrun : M W2 A).
Proof. intros lw s. exists []. by split. Qed.

Lemma replays_check_key :
  replays (host check_key : M (logged W1) bool) (host check_key : M W2 bool).
Proof.
  intros lw s. exists [Ready (fst (check_key (inner lw)))].
  split; [by split |]. unfold host. cbn [check_key logged_provider].
  unfold logged_check_key.
  destruct (check_key (inner lw)) as [b w1] eqn:E. cbn [fst inner heard].
  split; [reflexivity |]. split.
  - intros rest Hrest. cbn [app answers_with]. by rewrite E.
  - intros w2 rest [Hb Hrest]. exists (snd (check_key w2)).
    destruct (check_key w2) as [b2 w2']. simpl in *. by subst.
Qed.

Lemma replays_getchar :
  replays (host getchar : M (logged W1) Z) (host getchar : M W2 Z).
Proof.
  intros lw s. exists [Char (fst (getchar (inner lw)))].
  split; [by split |]. unfold host. cbn [getchar logged_provider].
  unfold logged_getchar.
  destruct (getchar (inner lw)) as [c w1] eqn:E. cbn [fst inner heard].
  split; [reflexivity |]. split.
  - intros rest Hrest. cbn [app answers_with]. by rewrite E.
  - intros w2 rest [Hc Hrest]. exists (snd (getchar w2)).
    destruct (getchar w2) as [c2 w2']. simpl in *. by subst.
Qed.

Lemma replays_bind {A B} (m1 : M (logged W1) A) (m2 : M W2 A)
    (k1 : A -> M (logged W1) B) (k2 : A -> M W2 B) :
  replays m1 m2 -> (forall a, replays (k1 a) (k2 a)) ->
  replays (m1 ≫= k1) (m2 ≫= k2).
Proof.
  intros Hm Hk lw s. destruct (Hm lw s) as (e1 & Ha1 & Hm1).
  unfold mbind, vm_bind.
  destruct (m1 lw s) as [[[a lw'] s'] | |].
  - destruct Hm1 as (Hh & Hback & Hfwd).
    destruct (Hk a lw' s') as (e2 & Ha2 & Hk1).
    exists (e1 ++ e2). split; [by apply Hback |].
    destruct (k1 a lw' s') as [[[b lw''] s''] | |].
    + destruct Hk1 as (Hh2 & Hback2 & Hfwd2). split; [| split].
      * by rewrite Hh2, Hh, app_assoc.
      * intros rest Hrest. rewrite <- app_assoc. by apply Hback, Hback2.
      * intros w2 rest Hw. rewrite <- app_assoc in Hw.
        destruct (Hfwd w2 _ Hw) as (w2' & -> & Hw').
        exact (Hfwd2 w2' rest Hw').
    + intros w2 Hw. destruct (Hfwd w2 _ Hw) as (w2' & -> & Hw').
      exact (Hk1 w2' Hw').
    + intros w2 Hw. destruct (Hfwd w2 _ Hw) as (w2' & -> & Hw').
      exact (Hk1 w2' Hw').
  - exists e1. split; [exact Ha1 |]. intros w2 Hw. by rewrite (Hm1 w2 Hw).
  - exists e1. split; [exact Ha1 |]. intros w2 Hw. by rewrite (Hm1 w2 Hw).
Qed.

Ltac replay_step :=
  first
    [ apply replays_ret
    | apply replays_rd
    | apply replays_wr
    | apply replays_peek
    | apply replays_putc
    | apply replays_print
    | apply replays_mem_write
    | apply replays_abort
    | apply replays_overrun
    | apply replays_check_key
    | apply replays_getchar
    | apply replays_bind; [| intros ? ]
    | match goal with
      | |- replays (if ?b then _ else _) (if ?b then _ else _) => destruct b
      end ].

Lemma replays_update_flags r : replays (update_flags r : M (logged W1) unit) (update_flags r : M W2 unit).
Proof. unfold update_flags. repeat replay_step. Qed.

Lemma replays_mem_read a : replays (mem_read a : M (logged W1) Z) (mem_read a : M W2 Z).
Proof. unfold mem_read, poll_keyboard. repeat replay_step. Qed.

Lemma replays_puts_loop room a :
  replays (puts_loop room a : M (logged W1) unit)
          (puts_loop room a : M W2 unit).
Proof.
  revert a. induction room as [| room IH]; intros a; simpl.
  - apply replays_overrun.
  - repeat replay_step. apply IH.
Qed.

Lemma replays_putsp_loop room a :
  replays (putsp_loop room a : M (logged W1) unit)
          (putsp_loop room a : M W2 unit).
Proof.
  revert a. induction room as [| room IH]; intros a; simpl.
  - apply replays_overrun.
  - repeat replay_step; apply IH.
Qed.

Ltac replay_more :=
  cbv zeta;
  repeat first
    [ apply replays_update_flags
    | apply replays_mem_read
    | apply replays_puts_loop
    | apply replays_putsp_loop
    | replay_step ].

Lemma replays_op_trap i : replays (op_trap i : M (logged W1) status) (op_trap i : M W2 status).
Proof.
  unfold op_trap, trap_getc, trap_out, trap_puts, trap_in, trap_putsp,
    trap_halt.
  replay_more.
Qed.

Lemma replays_exec i : replays (exec i : M (logged W1) status) (exec i : M W2 status).
Proof.
  unfold exec. cbv zeta.
  repeat match goal with
  | |- replays (if ?b then _ else _) (if ?b then _ else _) => destruct b
  end;
  try apply replays_op_trap; try apply replays_abort.
  all: unfold op_add, op_and, op_not, op_br, op_jmp, op_jsr, op_ld, op_ldi,
         op_ldr, op_lea, op_st, op_sti, op_str; replay_more.
Qed.

Lemma replays_fetch : replays (fetch : M (logged W1) Z) (fetch : M W2 Z).
Proof. unfold fetch. replay_more. Qed.

Lemma replays_step : replays (step : M (logged W1) status) (step : M W2 status).
Proof. unfold step. apply replays_bind; [apply replays_fetch | apply replays_exec]. Qed.

Lemma replays_run n : replays (run n : M (logged W1) status) (run n : M W2 status).
Proof.
  induction n as [| n IH]; simpl.
  - apply replays_ret.
  - apply replays_bind; [apply replays_step | intros [|]].
    + exact IH.
    + apply replays_ret.
Qed.

End Replay.

Lemma logged_same_answers {W} {P : Provider W} :
  same_answers (fun (lw : logged W) (w : W) => inner lw = w).
Proof.
  split.
  - intros lw w <-. cbn [check_key logged_provider]. unfold logged_check_key.
    by destruct (check_key (inner lw)).
  - intros lw w <-. cbn [getchar logged_provider]. unfold logged_getchar.
    by destruct (getchar (inner lw)).
Qed.

Lemma script_answers (l : list answer) :
  forall (ks : list bool) (cs : list Z),
    answers_with {| keys := readiness l ++ ks; chars := input_bytes l ++ cs |} l.
Proof.
  induction l as [| [b | c] l IH]; intros ks cs; [exact Logic.I | |].
  - split; [reflexivity |]. apply IH.
  - split; [reflexivity |]. apply IH.
Qed.

Lemma run_on_transcript {W} {P : Provider W} (n : nat) (w : W) (s : vm)
    (st : status) (lw : logged W) (s' : vm) :
  run n (listen w) s = Done (st, lw, s') ->
  exists sc : script,
    run n {| keys := readiness (heard lw); chars := input_bytes (heard lw) |} s
    = Done (st, sc, s').
Proof.
  intros Hrun.
  destruct (replays_run (W2 := script) n (listen w) s) as (ext & _ & H).
  rewrite Hrun in H. destruct H as (Hh & _ & Hfwd). simpl in Hh. subst ext.
  destruct (Hfwd {| keys := readiness (heard lw) ++ [];
                    chars := input_bytes (heard lw) ++ [] |} [])
    as (sc & Hsc & _).
  { rewrite (app_nil_r (heard lw)). apply script_answers. }
  exists sc. by rewrite !app_nil_r in Hsc.
Qed.

(** C9. Execution is deterministic.  Take two runs of the loop from the
    same memory and registers (and the same output so far).

    If the two consoles may differ in everything, their timing included,
    except that they give the same readiness answers and the same input
    characters, then after every iteration, and after any number of
    iterations, the two runs have produced the same memory, registers and
    output bytes, or have both failed in the same way.

    Only the answers that are asked for count.  A console that records its
    answers behaves as the console it wraps.  If a run of [n] iterations
    completes, then against any console that gives the recorded answers,
    whatever it would have answered to other questions or afterwards, the
    [n] iterations complete with the same memory, registers and output.
    Two completed runs whose recorded readiness answers are the same
    sequence and whose recorded input bytes are the same sequence have the
    same memory, registers and output.  A run that calls [abort()] or runs
    off memory does so after finitely many answers, and so does every run
    that is given the same ones. *)
Theorem execution_is_deterministic :
  forall (W1 W2 : Type) (P1 : Provider W1) (P2 : Provider W2),
    (forall R : W1 -> W2 -> Prop,
        same_answers R ->
        forall (w1 : W1) (w2 : W2) (s : vm),
          R w1 w2 ->
          agree R (step w1 s) (step w2 s)
          /\ forall n : nat, agree R (run n w1 s) (run n w2 s))
    /\ (forall (n : nat) (w1 : W1) (s : vm),
          agree (fun lw w => inner lw = w) (run n (listen w1) s) (run n w1 s))
    /\ (forall (n : nat) (w1 : W1) (w2 : W2) (s : vm)
               (st : status) (lw : logged W1) (s' : vm),
          run n (listen w1) s = Done (st, lw, s') ->
          answers_with w2 (heard lw) ->
          answers_with w1 (heard lw)
          /\ exists w2' : W2, run n w2 s = Done (st, w2', s'))
    /\ (forall (n : nat) (w1 : W1) (w2 : W2) (s : vm)
               (st1 st2 : status) (lw1 : logged W1) (lw2 : logged W2)
               (s1 s2 : vm),
          run n (listen w1) s = Done (st1, lw1, s1) ->
          run n (listen w2) s = Done (st2, lw2, s2) ->
          readiness (heard lw1) = readiness (heard lw2) ->
          input_bytes (heard lw1) = input_bytes (heard lw2) ->
          st1 = st2 /\ s1 = s2)
    /\ (forall (n : nat) (w1 : W1) (s : vm),
          (run n w1 s = Aborted ->
           exists l : list answer,
             answers_with w1 l
             /\ forall w2 : W2, answers_with w2 l -> run n w2 s = Aborted)
          /\ (run n w1 s = Overrun ->
              exists l : list answer,
                answers_with w1 l
                /\ forall w2 : W2, answers_with w2 l -> run n w2 s = Overrun)).
Proof.
  intros W1 W2 P1 P2.
  assert (Hlog : forall (n : nat) (w1 : W1) (s : vm),
            agree (fun lw w => inner lw = w) (run n (listen w1) s) (run n w1 s)).
  { intros n w1 s. by apply (sim_run _ logged_same_answers). }
  split; [| split; [exact Hlog |]; split; [| split]].
  - intros R HR w1 w2 s Hw. split.
    + by apply sim_step_loop.
    + intros n. by apply sim_run.
  - intros n w1 w2 s st lw s' Hrun Hw2.
    destruct (replays_run (W2 := W2) n (listen w1) s) as (ext & Hw1 & H).
    rewrite Hrun in H. destruct H as (Hh & _ & Hfwd). simpl in Hh. subst ext.
    split; [exact Hw1 |].
    destruct (Hfwd w2 []) as (w2' & Hrun2 & _); [by rewrite app_nil_r |].
    by exists w2'.
  - intros n w1 w2 s st1 st2 lw1 lw2 s1 s2 Hrun1 Hrun2 Hkeys Hchars.
    destruct (run_on_transcript _ _ _ _ _ _ Hrun1) as (sc1 & H1).
    destruct (run_on_transcript _ _ _ _ _ _ Hrun2) as (sc2 & H2).
    rewrite Hkeys, Hchars, H2 in H1. by inversion H1.
  - intros n w1 s. specialize (Hlog n w1 s).
    destruct (replays_run (W2 := W2) n (listen w1) s) as (ext & Hw1 & H).
    split; intros Hfail; rewrite Hfail in Hlog;
      destruct (run n (listen w1) s) as [[[? ?] ?] | |]; try done;
      by exists ext.
Qed.


(** * LDI, NOT and unknown trap vectors *)

Lemma op_ldi_is_op_ld {W} {P : Provider W} (i : Z) :
  (op_ldi i : M W status) = op_ld i.
Proof. reflexivity. Qed.

(** C1. LDI reads memory once: [reg[r0] = mem_read(reg[R_PC] + pc_offset)],
    the very statement of LD.  With [LDI R0, #1] at 0x3000, the pointer cell
    [0x3002 = PC + 1] holding [0x4000] and the cell [0x4000] holding
    [0x0042], the step leaves [0x4000] in R0, not [0x0042], and the flags
    are those of [0x4000]. *)
Theorem ldi_loads_the_pointer_not_the_target :
  exists s' : vm,
    step console0 (boot ldi_image) = Done (Running, console0, s')
    /\ pc_of s' = 0x3001
    /\ mem_at (memory s') (u16 (pc_of s' + sign_extend 1 9)) = 0x4000
    /\ mem_at (memory s') 0x4000 = 0x0042
    /\ reg_at (reg s') R_R0 = 0x4000
    /\ reg_at (reg s') R_R0 <> 0x0042
    /\ exec 0xA001 console0 (boot ldi_image)
       = exec 0x2001 console0 (boot ldi_image).
Proof.
  eexists. split; [vm_compute; reflexivity |].
  repeat split; try (vm_compute; reflexivity).
  vm_compute. discriminate.
Qed.

(** C2. NOT writes the 16-bit complement of the source into the
    destination, but the case ends without calling [update_flags].  With
    [NOT R0, R1] at 0x3000, R1 = 0 and the flags at [FL_ZRO], the step
    leaves 0xFFFF in R0 and the flags still at [FL_ZRO], where the flags of
    0xFFFF are [FL_NEG]. *)
Theorem not_leaves_the_flags_stale :
  exists s' : vm,
    step console0 (boot not_image) = Done (Running, console0, s')
    /\ reg_at (reg (boot not_image)) R_R1 = 0
    /\ reg_at (reg s') R_R0 = 0xFFFF
    /\ cond_of s' = FL_ZRO
    /\ sign_flag (reg_at (reg s') R_R0) = FL_NEG
    /\ cond_of s' <> sign_flag (reg_at (reg s') R_R0).
Proof.
  eexists. split; [vm_compute; reflexivity |].
  repeat split; try (vm_compute; reflexivity).
  vm_compute. discriminate.
Qed.

(** C3. A TRAP with an unrecognised vector is not fatal in the code: the
    inner [switch] on the vector has no [default], so [TRAP 0xFF] at 0x3000
    (vector outside 0x20..0x25) only stores the program counter in R7, the
    loop goes on to the next fetch, here a HALT, and the run ends normally.
    At the same state the illegal opcodes RTI (0x8000) and RES (0xD000)
    reach [abort()] through the outer [switch]. *)
Theorem unknown_trap_vector_is_not_fatal :
  Z.shiftr 0xF0FF 12 = OP_TRAP
  /\ ~ (TRAP_GETC <= Z.land 0xF0FF 0xFF <= TRAP_HALT)
  /\ mem_at trap_image PC_START = 0xF0FF
  /\ step console0 (boot trap_image) <> Aborted
  /\ step console0 (boot trap_image)
     = Done (Running, console0,
             write_reg (write_reg (boot trap_image) R_PC 0x3001) R_R7 0x3001)
  /\ (exists s' : vm,
        run 2 console0 (boot trap_image) = Done (Halted, console0, s')
        /\ output s' = bytes_of_string ("HALT" ++ String (ascii_of_nat 10) EmptyString))
  /\ exec 0x8000 console0 (write_reg (boot trap_image) R_PC 0x3001) = Aborted
  /\ exec 0xD000 console0 (write_reg (boot trap_image) R_PC 0x3001) = Aborted.
Proof.
  split; [reflexivity |]. split; [vm_compute; intros [_ H]; apply H; reflexivity |].
  split; [vm_compute; reflexivity |].
  split; [vm_compute; discriminate |].
  split; [vm_compute; reflexivity |].
  split; [eexists; split; vm_compute; reflexivity |].
  split; reflexivity.
Qed.

Lemma op_trap_unknown {W} {P : Provider W} (i : Z) (w : W) (s : vm) :
  ~ (TRAP_GETC <= Z.land i 0xFF <= TRAP_HALT) ->
  (op_trap i : M W status) w s = Done (Running, w, write_reg s R_R7 (pc_of s)).
Proof.
  intros Hv. unfold op_trap. cbv zeta.
  unfold TRAP_GETC, TRAP_HALT in Hv.
  unfold mbind, vm_bind, rd, wr. 
  destruct (Z.eqb_spec (Z.land i 0xFF) TRAP_GETC); [unfold TRAP_GETC in *; lia |].
  destruct (Z.eqb_spec (Z.land i 0xFF) TRAP_OUT); [unfold TRAP_OUT in *; lia |].
  destruct (Z.eqb_spec (Z.land i 0xFF) TRAP_PUTS); [unfold TRAP_PUTS in *; lia |].
  destruct (Z.eqb_spec (Z.land i 0xFF) TRAP_IN); [unfold TRAP_IN in *; lia |].
  destruct (Z.eqb_spec (Z.land i 0xFF) TRAP_PUTSP); [unfold TRAP_PUTSP in *; lia |].
  destruct (Z.eqb_spec (Z.land i 0xFF) TRAP_HALT); [unfold TRAP_HALT in *; lia |].
  reflexivity.
Qed.

(** What the code does at every unrecognised vector, and at the two
    illegal opcodes. *)
Lemma exec_unknown_trap_vector {W} {P : Provider W} (instr : Z) (w : W)
    (s : vm) :
  (Z.shiftr instr 12 = OP_TRAP ->
   ~ (TRAP_GETC <= Z.land instr 0xFF <= TRAP_HALT) ->
   (exec instr : M W status) w s = Done (Running, w, write_reg s R_R7 (pc_of s)))
  /\ (Z.shiftr instr 12 = OP_RTI \/ Z.shiftr instr 12 = OP_RES ->
      (exec instr : M W status) w s = Aborted).
Proof.
  split.
  - intros Hop Hv. unfold exec. rewrite Hop. simpl.
    by apply op_trap_unknown.
  - intros [Hop | Hop]; unfold exec; rewrite Hop; reflexivity.
Qed.

(** * The theorems at concrete inputs *)

Lemma sign_extend_spec_witness :
  (forall i, 5 <= i < 16 -> Z.testbit (sign_extend 0x1F 5) i = true)
  /\ sign_extend 0x1F 5 mod 2 ^ 5 = 0x1F mod 2 ^ 5
  /\ sign_extend 0x0F 5 = 0x0F.
Proof.
  assert (Hw : 1 <= 5 <= 16) by lia.
  assert (Hx : 0 <= 0x1F < 65536) by lia.
  assert (Hy : 0 <= 0x0F < 65536) by lia.
  destruct (proj1 sign_extend_spec 0x1F 5 Hw Hx) as [Hset _].
  destruct (proj1 sign_extend_spec 0x0F 5 Hw Hy) as [_ Hclear].
  destruct (Hset eq_refl) as (Hhigh & _ & Hmod & _).
  destruct (Hclear eq_refl) as [_ Hsame].
  split; [exact Hhigh | split; [exact Hmod | exact Hsame]].
Defined.

Lemma cond_flag_always_one_of_three_witness :
  flags_ok (write_reg (write_reg (boot not_image) R_PC 0x3001) R_R0 0xFFFF)
  /\ (cond_of (write_reg (write_reg (boot not_image) R_PC 0x3001) R_R0 0xFFFF)
        = FL_NEG
      \/ cond_of (write_reg (write_reg (boot not_image) R_PC 0x3001) R_R0 0xFFFF)
        = FL_ZRO
      \/ cond_of (write_reg (write_reg (boot not_image) R_PC 0x3001) R_R0 0xFFFF)
        = FL_POS).
Proof.
  destruct cond_flag_always_one_of_three as (_ & _ & Hstep & Hrun).
  split.
  - apply (Hstep script _ console0 console0 (boot not_image) _ Running).
    + split; [reflexivity | right; left; reflexivity].
    + vm_compute. reflexivity.
  - apply (Hrun script _ not_image 1%nat console0 console0 _ Running).
    vm_compute. reflexivity.
Defined.

Lemma operand_fields_cannot_reach_pc_or_cond_witness :
  pc_of (write_reg (boot not_image) R_R7 0x1234) = PC_START
  /\ cond_of (write_reg (boot not_image) R_R7 0x1234) = FL_ZRO
  /\ pc_of (write_reg (boot not_image) R_PC 0x3001) = u16 (PC_START + 1)
  /\ pc_of (write_reg (boot not_image) R_R0 0xFFFF) = PC_START
  /\ cond_of (write_reg (boot not_image) R_R0 0xFFFF) = FL_ZRO
  /\ cond_of (write_reg (write_reg (boot not_image) R_R0 3) R_COND FL_POS)
     = sign_flag 3.
Proof.
  destruct operand_fields_cannot_reach_pc_or_cond as (_ & Hwr & Hfetch & Hexec).
  assert (H7 : 0 <= R_R7 <= 7) by (unfold R_R7; lia).
  destruct (Hwr (boot not_image) R_R7 0x1234 H7) as [Hpc Hcond].
  destruct (Hfetch script _ console0 console0 (boot not_image)
              (write_reg (boot not_image) R_PC 0x3001) 0x907F
              eq_refl eq_refl) as [Hpc1 _].
  destruct (Hexec script _ 0x907F console0 console0 (boot not_image)
              (write_reg (boot not_image) R_R0 0xFFFF) Running eq_refl)
    as (Hpc2 & Hcond2 & _).
  destruct (Hexec script _ 0x1023 console0 console0 (boot not_image)
              (write_reg (write_reg (boot not_image) R_R0 3) R_COND FL_POS)
              Running eq_refl)
    as (_ & _ & Hflags).
  split; [exact Hpc |]. split; [exact Hcond |]. split; [exact Hpc1 |].
  split; [exact (Hpc2 eq_refl) |]. split; [exact (Hcond2 eq_refl) |].
  exact (Hflags eq_refl eq_refl).
Defined.


Lemma mem_read_polls_only_at_kbsr_witness :
  mem_read 0x3000 console0 (boot not_image)
  = Done (0x907F, console0, boot not_image)
  /\ mem_read MR_KBSR console0 (boot not_image)
     = Done (0x8000, {| keys := [false]; chars := [0x42] |},
             set_memory (boot not_image)
               (<[MR_KBDR := u16 0x41]> (<[MR_KBSR := 0x8000]> not_image)))
  /\ mem_read MR_KBSR {| keys := [false]; chars := [0x42] |} (boot not_image)
     = Done (0, {| keys := []; chars := [0x42] |},
             set_memory (boot not_image) (<[MR_KBSR := 0]> not_image)).
Proof.
  destruct (mem_read_polls_only_at_kbsr script _ console0 (boot not_image))
    as (Hplain & _ & Hready & _).
  destruct (mem_read_polls_only_at_kbsr script _
              {| keys := [false]; chars := [0x42] |} (boot not_image))
    as (_ & _ & _ & Hidle).
  split; [| split].
  - apply (Hplain 0x3000). unfold MR_KBSR. lia.
  - apply (Hready {| keys := [false]; chars := [0x41; 0x42] |} 0x41
             {| keys := [false]; chars := [0x42] |}); reflexivity.
  - apply (Hidle {| keys := []; chars := [0x42] |}). reflexivity.
Defined.

Lemma jsr_then_jmp_r7_returns_witness :
  reg_at (reg (call_state 1)) R_R7 = 0x3001
  /\ exists (w3 : script) (s3 : vm),
       step console0 (call_state 2) = Done (Running, w3, s3)
       /\ pc_of s3 = u16 (pc_of (boot call_image) + 1).
Proof.
  destruct (jsr_then_jmp_r7_returns script _ console0 console0
              (boot call_image) (write_reg (boot call_image) R_PC 0x3001)
              0x4801 eq_refl eq_refl eq_refl)
    as (w1 & s1 & Hstep & Hr7 & Hret).
  assert (Hs : Done (Running, w1, s1)
               = Done (Running, console0, call_state 1)).
  { rewrite <- Hstep. vm_compute. reflexivity. }
  injection Hs as -> ->.
  split; [exact Hr7 |].
  apply (Hret 1%nat console0 console0 (call_state 2)
           (write_reg (call_state 2) R_PC 0x3004) 0xC1C0).
  - vm_compute. reflexivity.
  - vm_compute. reflexivity.
  - vm_compute. reflexivity.
  - reflexivity.
  - reflexivity.
Defined.

Lemma same_script_answers : same_answers same_script.
Proof.
  split.
  - intros w t <-. unfold same_script. simpl. unfold timed_check_key.
    destruct (script_check_key (pending t)) as [b p]. by simpl.
  - intros w t <-. unfold same_script. simpl. unfold timed_getchar.
    destruct (script_getchar (pending t)) as [c p]. by simpl.
Defined.

Lemma execution_is_deterministic_witness :
  (agree same_script (step console0 (boot keyboard_image))
         (step late_console (boot keyboard_image))
   /\ agree same_script (run 4 console0 (boot keyboard_image))
            (run 4 late_console (boot keyboard_image)))
  /\ (answers_with eager_console [Char 0x41]
      /\ exists w2' : script,
           run 2 idle_console (boot getc_image)
           = Done (Halted, w2',
                   {| memory := getc_image;
                      reg := [0x41; 0; 0; 0; 0; 0; 0; 0x3002; 0x3002; FL_POS];
                      output := bytes_of_string ("HALT" ++ newline) |}))
  /\ (exists l : list answer,
        answers_with eager_console l
        /\ forall w2 : script,
             answers_with w2 l ->
             run 1 w2 (write_reg (boot trap_image) R_PC 0xFE00) = Aborted).
Proof.
  destruct (execution_is_deterministic script timed _ _) as (Hsame & _).
  destruct (execution_is_deterministic script script _ _)
    as (_ & _ & Hreplay & _ & Hfail).
  split; [| split].
  - destruct (Hsame same_script same_script_answers console0 late_console
                (boot keyboard_image) eq_refl) as [Hstep Hrun].
    split; [exact Hstep | exact (Hrun 4%nat)].
  - apply (Hreplay 2%nat eager_console idle_console (boot getc_image) Halted
             {| inner := {| keys := [true]; chars := [0x42] |};
                heard := [Char 0x41] |}).
    + vm_compute. reflexivity.
    + vm_compute. split; [reflexivity | exact Logic.I].
  - apply (proj1 (Hfail 1%nat eager_console
                    (write_reg (boot trap_image) R_PC 0xFE00))).
    vm_compute. reflexivity.
Defined.

(** * Byte order *)

Lemma word_high_bits (x i : Z) : is_word x -> 16 <= i -> Z.testbit x i = false.
Proof.
  intros Hx Hi. rewrite <- (Z.mod_small x (2 ^ 16)) by (unfold is_word in Hx; lia).
  apply Z.mod_pow2_bits_high. lia.
Qed.

Lemma u16_is_word (z : Z) : is_word (u16 z).
Proof. unfold is_word, u16. apply Z.mod_pos_bound. lia. Qed.

Lemma u16_word (z : Z) : is_word z -> u16 z = z.
Proof. intros Hz. unfold u16. apply Z.mod_small. exact Hz. Qed.

Lemma swap16_bits (x i : Z) :
  is_word x -> 0 <= i ->
  Z.testbit (swap16 x) i
  = if i <? 8 then Z.testbit x (i + 8)
    else if i <? 16 then Z.testbit x (i - 8) else false.
Proof.
  intros Hx Hi. unfold swap16, u16. change 65536 with (2 ^ 16).
  destruct (Z.ltb_spec i 8) as [H8 | H8].
  - rewrite Z.mod_pow2_bits_low by lia.
    rewrite Z.lor_spec, Z.shiftl_spec, Z.shiftr_spec by lia.
    rewrite (Z.testbit_neg_r x (i - 8)) by lia. reflexivity.
  - destruct (Z.ltb_spec i 16) as [H16 | H16].
    + rewrite Z.mod_pow2_bits_low by lia.
      rewrite Z.lor_spec, Z.shiftl_spec, Z.shiftr_spec by lia.
      rewrite (word_high_bits x (i + 8)) by (done || lia).
      apply orb_false_r.
    + apply Z.mod_pow2_bits_high. lia.
Qed.

Lemma swap16_involutive (x : Z) : is_word x -> swap16 (swap16 x) = x.
Proof.
  intros Hx. apply Z.bits_inj'. intros i Hi.
  rewrite swap16_bits by (apply u16_is_word || lia).
  destruct (Z.ltb_spec i 8) as [H8 | H8].
  - rewrite swap16_bits by (done || lia).
    destruct (Z.ltb_spec (i + 8) 8); [lia |].
    destruct (Z.ltb_spec (i + 8) 16); [| lia].
    f_equal. lia.
  - destruct (Z.ltb_spec i 16) as [H16 | H16].
    + rewrite swap16_bits by (done || lia).
      destruct (Z.ltb_spec (i - 8) 8); [| lia].
      f_equal. lia.
    + symmetry. by apply word_high_bits.
Qed.

Lemma swap16_value (x : Z) :
  is_word x -> swap16 x = 256 * (x mod 256) + x / 256.
Proof.
  intros Hx. unfold swap16, u16.
  assert (Hdisj : Z.land (Z.shiftl x 8) (Z.shiftr x 8) = 0).
  { apply Z.bits_inj'. intros i Hi.
    rewrite Z.land_spec, Z.shiftl_spec, Z.shiftr_spec, Z.bits_0 by lia.
    destruct (Z.lt_ge_cases i 8).
    - rewrite (Z.testbit_neg_r x (i - 8)) by lia. reflexivity.
    - rewrite (word_high_bits x (i + 8)) by (done || lia).
      apply andb_false_r. }
  rewrite <- (Z.add_nocarry_lor _ _ Hdisj).
  rewrite Z.shiftl_mul_pow2, Z.shiftr_div_pow2 by lia.
  change (2 ^ 8) with 256.
  unfold is_word in Hx.
  pose proof (Z.div_mod x 256 ltac:(lia)) as Hdm.
  pose proof (Z.mod_pos_bound x 256 ltac:(lia)) as Hr.
  assert (Hq : 0 <= x / 256 < 256).
  { split; [apply Z.div_pos; lia | apply Z.div_lt_upper_bound; lia]. }
  replace (x * 256 + x / 256)
    with ((256 * (x mod 256) + x / 256) + (x / 256) * 65536) by lia.
  rewrite Z.mod_add by lia. apply Z.mod_small. lia.
Qed.

(** X1. [swap16] exchanges the two bytes of a 16-bit word: the result is a
    16-bit word with the low byte of the input on top and its high byte
    below, swapping twice gives the word back, and the two bytes [b0], [b1]
    that a little-endian host reads from a file as one word come out as the
    big-endian number [256 * b0 + b1]. *)
Theorem swap16_exchanges_bytes :
  forall x : Z, 0 <= x < 65536 ->
    swap16 x = 256 * (x mod 256) + x / 256
    /\ 0 <= swap16 x < 65536
    /\ swap16 (swap16 x) = x
    /\ (forall b0 b1 : Z, 0 <= b0 < 256 -> 0 <= b1 < 256 ->
          x = le_word b0 b1 -> swap16 x = 256 * b0 + b1).
Proof.
  intros x Hx. split; [by apply swap16_value |].
  split; [apply u16_is_word |]. split; [by apply swap16_involutive |].
  intros b0 b1 H0 H1 ->. rewrite swap16_value by exact Hx.
  unfold le_word.
  replace ((b0 + 256 * b1) mod 256) with b0.
  - replace ((b0 + 256 * b1) / 256) with b1; [reflexivity |].
    apply (Z.div_unique _ 256 b1 b0); lia.
  - apply (Z.mod_unique _ 256 b1 b0); lia.
Qed.

Lemma swap16_exchanges_bytes_witness :
  swap16 0x3000 = 256 * (0x3000 mod 256) + 0x3000 / 256
  /\ swap16 (swap16 0x3000) = 0x3000
  /\ swap16 (le_word 0x30 0x00) = 256 * 0x30 + 0x00.
Proof.
  assert (Hx : 0 <= 0x3000 < 65536) by lia.
  assert (Hy : 0 <= le_word 0x30 0x00 < 65536) by (unfold le_word; lia).
  destruct (swap16_exchanges_bytes 0x3000 Hx) as (Hv & _ & Hinv & _).
  destruct (swap16_exchanges_bytes (le_word 0x30 0x00) Hy) as (_ & _ & _ & Hle).
  split; [exact Hv | split; [exact Hinv |]].
  apply (Hle 0x30 0x00); [lia | lia | reflexivity].
Defined.

(** * Offsets as signed numbers *)

Lemma small_high_bits (x w i : Z) :
  0 <= w -> 0 <= x < 2 ^ w -> w <= i -> Z.testbit x i = false.
Proof.
  intros Hw Hx Hi. rewrite <- (Z.mod_small x (2 ^ w)) by lia.
  apply Z.mod_pow2_bits_high. lia.
Qed.

Lemma sign_bit_of_field (x w : Z) :
  1 <= w -> 0 <= x < 2 ^ w ->
  Z.testbit x (w - 1) = negb (x <? 2 ^ (w - 1)).
Proof.
  intros Hw Hx.
  assert (Hpow : 2 ^ w = 2 * 2 ^ (w - 1)).
  { replace w with (Z.succ (w - 1)) at 1 by lia. apply Z.pow_succ_r. lia. }
  assert (Hpos : 0 < 2 ^ (w - 1)) by (apply Z.pow_pos_nonneg; lia).
  destruct (Z.ltb_spec x (2 ^ (w - 1))) as [Hlt | Hge]; simpl.
  - apply (small_high_bits x (w - 1)); lia.
  - apply Z.testbit_true; [lia |].
    assert (Hq : x / 2 ^ (w - 1) = 1).
    { symmetry. apply (Z.div_unique x (2 ^ (w - 1)) 1 (x - 2 ^ (w - 1))); lia. }
    rewrite Hq. reflexivity.
Qed.

Lemma sign_extend_signed (x w : Z) :
  1 <= w <= 16 -> 0 <= x < 2 ^ w -> sign_extend x w = u16 (signed w x).
Proof.
  intros Hw Hx. unfold signed.
  assert (Hpos : 0 < 2 ^ (w - 1)) by (apply Z.pow_pos_nonneg; lia).
  assert (Hpow : 2 ^ w = 2 * 2 ^ (w - 1)).
  { replace w with (Z.succ (w - 1)) at 1 by lia. apply Z.pow_succ_r. lia. }
  assert (Hle : 2 ^ w <= 2 ^ 16) by (apply Z.pow_le_mono_r; lia).
  change (2 ^ 16) with 65536 in Hle.
  pose proof (sign_bit_of_field x w ltac:(lia) Hx) as Hbit.
  destruct (Z.ltb_spec x (2 ^ (w - 1))) as [Hlt | Hge]; simpl in Hbit.
  - rewrite sign_extend_clear by (done || lia).
    symmetry. apply u16_word. unfold is_word. lia.
  - rewrite sign_extend_set by (done || lia).
    assert (Hdisj : Z.land x (Z.shiftl 0xFFFF w) = 0).
    { apply Z.bits_inj'. intros i Hi.
      rewrite Z.land_spec, Z.shiftl_spec, Z.bits_0 by lia.
      destruct (Z.lt_ge_cases i w).
      - rewrite (Z.testbit_neg_r 0xFFFF (i - w)) by lia. apply andb_false_r.
      - rewrite (small_high_bits x w i) by lia. reflexivity. }
    rewrite <- (Z.add_nocarry_lor _ _ Hdisj).
    rewrite Z.shiftl_mul_pow2 by lia. unfold u16.
    replace (x + 65535 * 2 ^ w) with (x - 2 ^ w + 2 ^ w * 65536) by lia.
    apply Z.mod_add. lia.
Qed.

(** X2. On a [width]-bit field (width 1..16), [sign_extend] yields the
    16-bit two's-complement encoding of the signed number the field stands
    for, which lies in [-2^(width-1), 2^(width-1)); so adding a
    sign-extended offset to a word and wrapping to 16 bits, as every
    PC-relative and base-relative instruction does, adds that signed number
    modulo 2^16. *)
Theorem sign_extend_is_twos_complement :
  forall width x : Z, 1 <= width <= 16 -> 0 <= x < 2 ^ width ->
    sign_extend x width = u16 (signed width x)
    /\ - 2 ^ (width - 1) <= signed width x < 2 ^ (width - 1)
    /\ forall base : Z,
         u16 (base + sign_extend x width) = u16 (base + signed width x).
Proof.
  intros width x Hw Hx.
  assert (Hpos : 0 < 2 ^ (width - 1)) by (apply Z.pow_pos_nonneg; lia).
  assert (Hpow : 2 ^ width = 2 * 2 ^ (width - 1)).
  { replace width with (Z.succ (width - 1)) at 1 by lia.
    apply Z.pow_succ_r. lia. }
  split; [by apply sign_extend_signed |]. split.
  - unfold signed. destruct (Z.ltb_spec x (2 ^ (width - 1))); lia.
  - intros base. rewrite sign_extend_signed by done. unfold u16.
    apply Zplus_mod_idemp_r.
Qed.

Lemma sign_extend_is_twos_complement_witness :
  sign_extend 0x1FF 9 = u16 (-1)
  /\ u16 (0x3001 + sign_extend 0x1FF 9) = 0x3000.
Proof.
  assert (Hw : 1 <= 9 <= 16) by lia.
  assert (Hx : 0 <= 0x1FF < 2 ^ 9) by (change (2 ^ 9) with 512; lia).
  destruct (sign_extend_is_twos_complement 9 0x1FF Hw Hx) as (Hv & _ & Hadd).
  split; [exact Hv | exact (Hadd 0x3001)].
Defined.

(** * The flags as the sign of a word *)

Lemma sign_flag_cases (v : Z) :
  is_word v ->
  (sign_flag v = FL_ZRO <-> v = 0)
  /\ (sign_flag v = FL_NEG <-> 32768 <= v)
  /\ (sign_flag v = FL_POS <-> 0 < v < 32768).
Proof.
  intros Hv. unfold is_word in Hv. unfold sign_flag.
  rewrite Z.shiftr_div_pow2 by lia. change (2 ^ 15) with 32768.
  destruct (Z.eqb_spec v 0) as [-> | Hnz].
  - unfold FL_ZRO, FL_NEG, FL_POS. simpl. repeat split; intros; (done || lia).
  - destruct (Z.eqb_spec (v / 32768) 0) as [Hq | Hq]; simpl.
    + assert (v < 32768).
      { apply Z.div_small_iff in Hq; lia. }
      unfold FL_ZRO, FL_NEG, FL_POS. simpl.
      repeat split; intros; (done || lia).
    + assert (32768 <= v).
      { destruct (Z.lt_ge_cases v 32768); [| done].
        exfalso. apply Hq. apply Z.div_small. lia. }
      unfold FL_ZRO, FL_NEG, FL_POS. simpl.
      repeat split; intros; (done || lia).
Qed.

(** X3. [update_flags r], for a register R0..R7 holding a 16-bit word,
    stores exactly one flag matching the word read as a two's-complement
    number: [FL_ZRO] iff it is 0, [FL_NEG] iff bit 15 is set (at least
    0x8000), [FL_POS] iff it is in 1..0x7FFF.  It always completes, and
    changes no other register, no memory cell, no output and not the
    console. *)
Theorem update_flags_tracks_sign :
  forall (W : Type) (r : Z) (w : W) (s : vm),
    wf s -> 0 <= r <= 7 -> is_word (reg_at (reg s) r) ->
    exists s' : vm,
      update_flags r w s = Done (tt, w, s')
      /\ (cond_of s' = FL_ZRO <-> reg_at (reg s) r = 0)
      /\ (cond_of s' = FL_NEG <-> 32768 <= reg_at (reg s) r)
      /\ (cond_of s' = FL_POS <-> 0 < reg_at (reg s) r < 32768)
      /\ (forall j : Z, 0 <= j -> j <> R_COND ->
            reg_at (reg s') j = reg_at (reg s) j)
      /\ memory s' = memory s /\ output s' = output s.
Proof.
  intros W r w s Hwf Hr Hv.
  exists (write_reg s R_COND (sign_flag (reg_at (reg s) r))).
  split; [apply update_flags_run |].
  rewrite cond_of_write_cond by done.
  destruct (sign_flag_cases _ Hv) as (Hz & Hn & Hp).
  split; [exact Hz |]. split; [exact Hn |]. split; [exact Hp |].
  split; [| done].
  intros j Hj Hne. unfold write_reg; simpl.
  apply reg_at_write_ne; unfold R_COND in *; lia.
Qed.

Lemma update_flags_tracks_sign_witness :
  exists s' : vm,
    update_flags R_R0 console0 (write_reg (boot not_image) R_R0 0x8001)
    = Done (tt, console0, s')
    /\ (cond_of s' = FL_NEG
        <-> 32768 <= reg_at (reg (write_reg (boot not_image) R_R0 0x8001)) R_R0).
Proof.
  destruct (update_flags_tracks_sign script R_R0 console0
              (write_reg (boot not_image) R_R0 0x8001) eq_refl)
    as (s' & Hrun & _ & Hneg & _).
  - unfold R_R0. lia.
  - vm_compute. split; [discriminate | reflexivity].
  - exists s'. split; [exact Hrun | exact Hneg].
Defined.

(** * Sixteen-bit words everywhere *)

Lemma land_word (a b : Z) : is_word a -> is_word (Z.land a b).
Proof.
  intros Ha. unfold is_word in *.
  assert (Hm : Z.land a b = Z.land a b mod 2 ^ 16).
  { rewrite <- Z.land_ones by lia.
    rewrite <- Z.land_assoc, (Z.land_comm b), Z.land_assoc.
    rewrite Z.land_ones by lia. f_equal. symmetry. apply Z.mod_small. lia. }
  rewrite Hm. apply Z.mod_pos_bound. lia.
Qed.

Lemma reg_at_is_word (r : list Z) (i : Z) :
  Forall is_word r -> is_word (reg_at r i).
Proof.
  intros Hr. unfold reg_at.
  destruct (r !! Z.to_nat i) as [v |] eqn:E; simpl.
  - by apply (Forall_lookup_1 _ _ _ _ Hr E).
  - unfold is_word. lia.
Qed.

Lemma mem_at_is_word (m : gmap Z Z) (a : Z) :
  map_Forall (fun a v => is_word a /\ is_word v) m -> is_word (mem_at m a).
Proof.
  intros Hm. unfold mem_at.
  destruct (m !! a) as [v |] eqn:E; simpl.
  - by destruct (Hm a v E).
  - unfold is_word. lia.
Qed.

Lemma words_ok_write_reg (s : vm) (i v : Z) :
  is_word v -> words_ok s -> words_ok (write_reg s i v).
Proof.
  intros Hv (Hwf & Hr & Hm). split; [by apply wf_write_reg |].
  split; [| done]. unfold write_reg; simpl. by apply Forall_insert.
Qed.

Lemma words_ok_store (s : vm) (a v : Z) :
  is_word a -> is_word v -> words_ok s ->
  words_ok (set_memory s (<[a := v]> (memory s))).
Proof.
  intros Ha Hv (Hwf & Hr & Hm). split; [done |]. split; [done |].
  simpl. by apply map_Forall_insert_2.
Qed.

Lemma words_ok_set_output (s : vm) (o : list Z) :
  words_ok s -> words_ok (set_output s o).
Proof. by intros (Hwf & Hr & Hm). Qed.

Section Yields.

Context {W : Type} {P : Provider W}.

Lemma yields_ret {A} (I : vm -> Prop) (Q : A -> Prop) (a : A) :
  Q a -> yields I Q (mret a : M W A).
Proof. intros Ha w s a' w' s' H Hs. by inversion H; subst. Qed.

Lemma yields_bind {A B} (I : vm -> Prop) (Q : A -> Prop) (Q' : B -> Prop)
    (m : M W A) (k : A -> M W B) :
  yields I Q m -> (forall a, Q a -> yields I Q' (k a)) ->
  yields I Q' (m ≫= k).
Proof.
  intros Hm Hk w s b w' s' H Hs.
  unfold mbind, vm_bind in H.
  destruct (m w s) as [[[a w1] s1] | |] eqn:E; try discriminate.
  destruct (Hm _ _ _ _ _ E Hs) as [Hs1 Ha].
  by apply (Hk a Ha _ _ _ _ _ H).
Qed.

Lemma yields_any {A} (I : vm -> Prop) (Q : A -> Prop) (m : M W A) :
  yields I Q m -> yields I (fun _ => True) m.
Proof. intros Hm w s a w' s' H Hs. by destruct (Hm _ _ _ _ _ H Hs). Qed.

Lemma yields_rd i : yields words_ok is_word (rd i : M W Z).
Proof.
  intros w s a w' s' H Hs. inversion H; subst. split; [done |].
  destruct Hs as (_ & Hr & _). by apply reg_at_is_word.
Qed.

Lemma yields_peek a : yields words_ok is_word (peek a : M W Z).
Proof.
  intros w s x w' s' H Hs. inversion H; subst. split; [done |].
  destruct Hs as (_ & _ & Hm). by apply mem_at_is_word.
Qed.

Lemma yields_wr i v :
  is_word v -> yields words_ok (fun _ => True) (wr i v : M W unit).
Proof.
  intros Hv w s x w' s' H Hs. inversion H; subst.
  split; [by apply words_ok_write_reg | done].
Qed.

Lemma yields_mem_write a v :
  is_word a -> is_word v ->
  yields words_ok (fun _ => True) (mem_write a v : M W unit).
Proof.
  intros Ha Hv w s x w' s' H Hs. inversion H; subst.
  split; [by apply words_ok_store | done].
Qed.

Lemma yields_putc c : yields words_ok (fun _ => True) (putc c : M W unit).
Proof.
  intros w s x w' s' H Hs. inversion H; subst.
  split; [by apply words_ok_set_output | done].
Qed.

Lemma yields_print str : yields words_ok (fun _ => True) (print str : M W unit).
Proof.
  intros w s x w' s' H Hs. inversion H; subst.
  split; [by apply words_ok_set_output | done].
Qed.

Lemma yields_host {A} (f : W -> A * W) :
  yields words_ok (fun _ => True) (host f).
Proof.
  intros w s x w' s' H Hs. unfold host in H.
  destruct (f w). by inversion H; subst.
Qed.

Lemma yields_abort {A} (Q : A -> Prop) : yields words_ok Q (abort : M W A).
Proof. intros w s x w' s' H. discriminate. Qed.

Lemma yields_overrun {A} (Q : A -> Prop) : yields words_ok Q (overrun : M W A).
Proof. intros w s x w' s' H. discriminate. Qed.

Lemma flag_words : is_word FL_ZRO /\ is_word FL_NEG /\ is_word FL_POS.
Proof. repeat split; vm_compute; (discriminate || reflexivity). Qed.

Lemma kbsr_words :
  is_word MR_KBSR /\ is_word MR_KBDR /\ is_word (Z.shiftl 1 15) /\ is_word 0.
Proof. repeat split; vm_compute; (discriminate || reflexivity). Qed.

Ltac word_side :=
  first
    [ assumption
    | apply u16_is_word
    | apply land_word; assumption
    | apply flag_words
    | apply kbsr_words
    | exact Logic.I ].

Ltac yields_step :=
  first
    [ apply yields_ret; word_side
    | apply yields_rd
    | apply yields_peek
    | apply yields_wr; word_side
    | apply yields_mem_write; word_side
    | apply yields_putc
    | apply yields_print
    | apply yields_host
    | apply yields_abort
    | apply yields_overrun
    | eapply yields_bind; [| intros ? ? ]
    | match goal with
      | |- yields _ _ (if ?b then _ else _) => destruct b
      end ].

Lemma yields_update_flags r :
  yields words_ok (fun _ => True) (update_flags r : M W unit).
Proof. unfold update_flags. repeat yields_step. Qed.

Lemma yields_poll_keyboard :
  yields words_ok (fun _ => True) (poll_keyboard : M W unit).
Proof. unfold poll_keyboard. repeat yields_step. Qed.

Lemma yields_mem_read a :
  is_word a -> yields words_ok is_word (mem_read a : M W Z).
Proof.
  intros Ha. unfold mem_read.
  eapply yields_bind; [| intros ? ?; apply yields_peek].
  destruct (a =? MR_KBSR); [apply yields_poll_keyboard |].
  by apply yields_ret.
Qed.

Lemma yields_puts_loop room a :
  yields words_ok (fun _ => True) (puts_loop room a : M W unit).
Proof.
  revert a. induction room as [| room IH]; intros a; simpl.
  - apply yields_overrun.
  - repeat yields_step. apply IH.
Qed.

Lemma yields_putsp_loop room a :
  yields words_ok (fun _ => True) (putsp_loop room a : M W unit).
Proof.
  revert a. induction room as [| room IH]; intros a; simpl.
  - apply yields_overrun.
  - repeat yields_step; apply IH.
Qed.

Ltac yields_more :=
  cbv zeta;
  repeat first
    [ apply yields_update_flags
    | apply yields_mem_read; word_side
    | apply yields_puts_loop
    | apply yields_putsp_loop
    | yields_step ].

Lemma yields_op_trap i :
  yields words_ok (fun _ => True) (op_trap i : M W status).
Proof.
  unfold op_trap, trap_getc, trap_out, trap_puts, trap_in, trap_putsp,
    trap_halt.
  yields_more.
Qed.

Lemma yields_exec i : yields words_ok (fun _ => True) (exec i : M W status).
Proof.
  unfold exec. cbv zeta.
  repeat match goal with
  | |- yields _ _ (if ?b then _ else _) => destruct b
  end;
  try apply yields_op_trap; try apply yields_abort.
  all: unfold op_add, op_and, op_not, op_br, op_jmp, op_jsr, op_ld, op_ldi,
         op_ldr, op_lea, op_st, op_sti, op_str; yields_more.
Qed.

Lemma yields_fetch : yields words_ok is_word (fetch : M W Z).
Proof. unfold fetch. yields_more. Qed.

Lemma yields_step_loop : yields words_ok (fun _ => True) (step : M W status).
Proof.
  unfold step. eapply yields_bind; [apply yields_fetch |].
  intros i _. apply yields_exec.
Qed.

Lemma yields_run n : yields words_ok (fun _ => True) (run n : M W status).
Proof.
  induction n as [| n IH]; simpl.
  - by apply yields_ret.
  - eapply yields_bind; [apply yields_step_loop | intros [|] _].
    + exact IH.
    + by apply yields_ret.
Qed.

End Yields.

Lemma boot_words_ok (image : gmap Z Z) :
  map_Forall (fun a v => is_word a /\ is_word v) image -> words_ok (boot image).
Proof.
  intros Him. split; [reflexivity |]. split; [| exact Him].
  unfold boot; simpl. repeat constructor; vm_compute; (discriminate || reflexivity).
Qed.

(** X4. The machine never leaves the 16-bit world: if every register and
    every memory cell holds a value in 0..65535 and [memory] has no cell
    outside addresses 0..65535, the same is true after every iteration of
    the loop that completes, and after any number of iterations, whatever
    the instructions and whatever the console delivers ([EOF] included).
    The start-up state has the property as soon as the loaded image has
    it. *)
Theorem words_stay_sixteen_bit :
  forall (W : Type) (P : Provider W),
    (forall image : gmap Z Z,
        map_Forall (fun a v => is_word a /\ is_word v) image ->
        words_ok (boot image))
    /\ (forall (w w' : W) (s s' : vm) (st : status),
          words_ok s -> step w s = Done (st, w', s') -> words_ok s')
    /\ (forall (n : nat) (w w' : W) (s s' : vm) (st : status),
          words_ok s -> run n w s = Done (st, w', s') -> words_ok s').
Proof.
  intros W P. split; [exact boot_words_ok |]. split.
  - intros w w' s s' st Hs Hstep.
    by destruct (yields_step_loop _ _ _ _ _ Hstep Hs).
  - intros n w w' s s' st Hs Hrun.
    by destruct (yields_run n _ _ _ _ _ Hrun Hs).
Qed.

Lemma words_stay_sixteen_bit_witness :
  words_ok (boot keyboard_image)
  /\ words_ok (match run 3 console0 (boot keyboard_image) with
               | Done (_, _, s) => s
               | _ => boot keyboard_image
               end).
Proof.
  destruct (words_stay_sixteen_bit script _) as (Hboot & _ & Hrun).
  assert (Him : map_Forall (fun a v => is_word a /\ is_word v) keyboard_image).
  { eapply (@bool_decide_unpack _ (map_Forall_dec _ _)). vm_compute. reflexivity. }
  split; [exact (Hboot _ Him) |].
  refine (Hrun 3%nat console0 _ (boot keyboard_image) _ Running
            (Hboot _ Him) _).
  vm_compute. reflexivity.
Defined.

(** * Stores and loads *)

Lemma mem_at_insert_eq (m : gmap Z Z) (a v : Z) : mem_at (<[a := v]> m) a = v.
Proof. unfold mem_at. by rewrite lookup_insert_eq. Qed.

Lemma mem_at_insert_ne (m : gmap Z Z) (a b v : Z) :
  a <> b -> mem_at (<[a := v]> m) b = mem_at m b.
Proof. intros Hne. unfold mem_at. by rewrite lookup_insert_ne. Qed.

Section LoadStore.

Context {W : Type} {P : Provider W}.

Lemma mem_read_plain (a : Z) (w : W) (s : vm) :
  a <> MR_KBSR -> (mem_read a : M W Z) w s = Done (mem_at (memory s) a, w, s).
Proof.
  intros Hne. unfold mem_read.
  destruct (Z.eqb_spec a MR_KBSR) as [E | _]; [done | reflexivity].
Qed.

Lemma mem_read_kbsr_value (v : Z) (w w' : W) (s s' : vm) :
  (mem_read MR_KBSR : M W Z) w s = Done (v, w', s') ->
  (v = 0x8000 \/ v = 0) /\ mem_at (memory s') MR_KBSR = v.
Proof.
  unfold mem_read, poll_keyboard, mbind, vm_bind, host, mem_write, peek.
  simpl. destruct (check_key w) as [[|] w1]; simpl.
  - destruct (getchar w1) as [c w2]; simpl. intros H. inversion H; subst; clear H.
    simpl. rewrite mem_at_insert_ne by done. rewrite mem_at_insert_eq. auto.
  - intros H. inversion H; subst; clear H. simpl.
    rewrite mem_at_insert_eq. auto.
Qed.

Lemma load_run (r0 a : Z) (w : W) (s : vm) :
  a <> MR_KBSR ->
  (v ← mem_read a; wr r0 v;; update_flags r0;; mret Running : M W status) w s
  = Done (Running, w,
          write_reg (write_reg s r0 (mem_at (memory s) a)) R_COND
            (sign_flag (reg_at (reg (write_reg s r0 (mem_at (memory s) a))) r0))).
Proof.
  intros Hne. unfold mbind at 1, vm_bind at 1.
  rewrite mem_read_plain by done. apply write_then_flags.
Qed.

Lemma loaded_state (s : vm) (r0 v : Z) :
  wf s -> 0 <= r0 <= 7 ->
  let s' := write_reg (write_reg s r0 v) R_COND
              (sign_flag (reg_at (reg (write_reg s r0 v)) r0)) in
  reg_at (reg s') r0 = v /\ cond_of s' = sign_flag v
  /\ pc_of s' = pc_of s /\ memory s' = memory s /\ output s' = output s
  /\ (forall j, 0 <= j <= 7 -> j <> r0 -> reg_at (reg s') j = reg_at (reg s) j).
Proof.
  intros Hwf Hr s'.
  assert (Hv : reg_at (reg (write_reg s r0 v)) r0 = v).
  { unfold write_reg; simpl. apply reg_at_write_eq. rewrite Hwf.
    unfold R_COUNT. lia. }
  subst s'. rewrite Hv. split.
  { unfold write_reg at 1; simpl.
    rewrite reg_at_write_ne by (unfold R_COND; lia). exact Hv. }
  split; [apply cond_of_write_cond; by apply wf_write_reg |].
  split; [by rewrite pc_of_write_cond, pc_of_write_general |].
  split; [done |]. split; [done |].
  intros j Hj Hne. unfold write_reg; simpl.
  rewrite reg_at_write_ne by (unfold R_COND; lia).
  apply reg_at_write_ne; lia.
Qed.

End LoadStore.

(** X5. Memory is plain storage everywhere except at the keyboard status
    register: a [mem_write] followed by a [mem_read] of the same address
    returns the value written, touches no other cell and does not consult
    the console; at [MR_KBSR] the value read back is whatever the poll put
    there, 0x8000 or 0, not the value written. *)
Theorem mem_write_then_mem_read :
  forall (W : Type) (P : Provider W) (a v : Z) (w : W) (s : vm),
    (a <> MR_KBSR ->
       (mem_write a v;; mem_read a) w s
       = Done (v, w, set_memory s (<[a := v]> (memory s)))
       /\ forall b : Z, b <> a ->
            mem_at (<[a := v]> (memory s)) b = mem_at (memory s) b)
    /\ (forall (x : Z) (w' : W) (s' : vm),
          (mem_write MR_KBSR v;; mem_read MR_KBSR) w s = Done (x, w', s') ->
          x = 0x8000 \/ x = 0).
Proof.
  intros W P a v w s. split.
  - intros Hne. split.
    + unfold mbind, vm_bind, mem_write. rewrite mem_read_plain by done.
      simpl. by rewrite mem_at_insert_eq.
    + intros b Hb. apply mem_at_insert_ne. congruence.
  - intros x w' s' H. unfold mbind, vm_bind, mem_write in H.
    by destruct (mem_read_kbsr_value _ _ _ _ _ H).
Qed.

Lemma mem_write_then_mem_read_witness :
  (mem_write 0x4000 0x1234;; mem_read 0x4000) console0 (boot not_image)
  = Done (0x1234, console0,
          set_memory (boot not_image) (<[0x4000 := 0x1234]> not_image))
  /\ exists (x : Z) (w' : script) (s' : vm),
       (mem_write MR_KBSR 0x1234;; mem_read MR_KBSR) console0 (boot not_image)
       = Done (x, w', s')
       /\ (x = 0x8000 \/ x = 0).
Proof.
  destruct (mem_write_then_mem_read script _ 0x4000 0x1234 console0
              (boot not_image)) as [Hplain _].
  destruct (mem_write_then_mem_read script _ MR_KBSR 0x1234 console0
              (boot not_image)) as [_ Hkb].
  split.
  - apply Hplain. unfold MR_KBSR. lia.
  - exists 0x8000, {| keys := [false]; chars := [0x42] |},
      (set_memory (boot not_image)
         (<[MR_KBDR := 0x41]>
            (<[MR_KBSR := 0x8000]> (<[MR_KBSR := 0x1234]> not_image)))).
    assert (Hrun : (mem_write MR_KBSR 0x1234;; mem_read MR_KBSR) console0
                     (boot not_image)
                   = Done (0x8000, {| keys := [false]; chars := [0x42] |},
                           set_memory (boot not_image)
                             (<[MR_KBDR := 0x41]>
                                (<[MR_KBSR := 0x8000]>
                                   (<[MR_KBSR := 0x1234]> not_image)))))
      by (vm_compute; reflexivity).
    split; [exact Hrun | exact (Hkb _ _ _ Hrun)].
Defined.

Lemma low_field_range (i k : Z) :
  0 <= k -> 0 <= Z.land i (Z.ones k) < 2 ^ k.
Proof.
  intros Hk. rewrite Z.land_ones by lia. apply Z.mod_pos_bound.
  apply Z.pow_pos_nonneg; lia.
Qed.

Lemma add_sign_extend (base x w : Z) :
  1 <= w <= 16 -> 0 <= x < 2 ^ w ->
  u16 (base + sign_extend x w) = u16 (base + signed w x).
Proof.
  intros Hw Hx. rewrite sign_extend_signed by done. unfold u16.
  apply Zplus_mod_idemp_r.
Qed.

Section LoadStoreInstructions.

Context {W : Type} {P : Provider W}.

Lemma exec_ld (i : Z) : Z.shiftr i 12 = OP_LD -> (exec i : M W status) = op_ld i.
Proof. intros H. unfold exec. by rewrite H. Qed.

Lemma exec_ldr (i : Z) : Z.shiftr i 12 = OP_LDR -> (exec i : M W status) = op_ldr i.
Proof. intros H. unfold exec. by rewrite H. Qed.

Lemma exec_st (i : Z) : Z.shiftr i 12 = OP_ST -> (exec i : M W status) = op_st i.
Proof. intros H. unfold exec. by rewrite H. Qed.

Lemma exec_sti (i : Z) : Z.shiftr i 12 = OP_STI -> (exec i : M W status) = op_sti i.
Proof. intros H. unfold exec. by rewrite H. Qed.

Lemma exec_str (i : Z) : Z.shiftr i 12 = OP_STR -> (exec i : M W status) = op_str i.
Proof. intros H. unfold exec. by rewrite H. Qed.

Lemma op_st_run (i : Z) (w : W) (s : vm) :
  (op_st i : M W status) w s
  = Done (Running, w,
          set_memory s
            (<[u16 (pc_of s + sign_extend (Z.land i 0x1FF) 9)
               := reg_at (reg s) (Z.land (Z.shiftr i 9) 0x7)]> (memory s))).
Proof. reflexivity. Qed.

Lemma op_str_run (i : Z) (w : W) (s : vm) :
  (op_str i : M W status) w s
  = Done (Running, w,
          set_memory s
            (<[u16 (reg_at (reg s) (Z.land (Z.shiftr i 6) 0x7)
                    + sign_extend (Z.land i 0x3F) 6)
               := reg_at (reg s) (Z.land (Z.shiftr i 9) 0x7)]> (memory s))).
Proof. reflexivity. Qed.

Lemma op_sti_run (i : Z) (w : W) (s : vm) :
  u16 (pc_of s + sign_extend (Z.land i 0x1FF) 9) <> MR_KBSR ->
  (op_sti i : M W status) w s
  = Done (Running, w,
          set_memory s
            (<[mem_at (memory s) (u16 (pc_of s + sign_extend (Z.land i 0x1FF) 9))
               := reg_at (reg s) (Z.land (Z.shiftr i 9) 0x7)]> (memory s))).
Proof.
  intros Hne. unfold op_sti. cbv zeta.
  unfold mbind at 1, vm_bind at 1, rd at 1.
  unfold mbind at 1, vm_bind at 1. fold (pc_of s).
  rewrite mem_read_plain by done. reflexivity.
Qed.

Lemma op_ld_run (i : Z) (w : W) (s : vm) :
  u16 (pc_of s + sign_extend (Z.land i 0x1FF) 9) <> MR_KBSR ->
  (op_ld i : M W status) w s
  = Done (Running, w,
          let r0 := Z.land (Z.shiftr i 9) 0x7 in
          let v := mem_at (memory s)
                     (u16 (pc_of s + sign_extend (Z.land i 0x1FF) 9)) in
          write_reg (write_reg s r0 v) R_COND
            (sign_flag (reg_at (reg (write_reg s r0 v)) r0))).
Proof.
  intros Hne. unfold op_ld. cbv zeta.
  unfold mbind at 1, vm_bind at 1, rd at 1. fold (pc_of s).
  by apply load_run.
Qed.

Lemma op_ldr_run (i : Z) (w : W) (s : vm) :
  u16 (reg_at (reg s) (Z.land (Z.shiftr i 6) 0x7)
       + sign_extend (Z.land i 0x3F) 6) <> MR_KBSR ->
  (op_ldr i : M W status) w s
  = Done (Running, w,
          let r0 := Z.land (Z.shiftr i 9) 0x7 in
          let v := mem_at (memory s)
                     (u16 (reg_at (reg s) (Z.land (Z.shiftr i 6) 0x7)
                           + sign_extend (Z.land i 0x3F) 6)) in
          write_reg (write_reg s r0 v) R_COND
            (sign_flag (reg_at (reg (write_reg s r0 v)) r0))).
Proof.
  intros Hne. unfold op_ldr. cbv zeta.
  unfold mbind at 1, vm_bind at 1, rd at 1.
  by apply load_run.
Qed.

End LoadStoreInstructions.

(** X6. ST then LD round trip.  ST stores the source register at
    [PC + offset9] (the incremented PC plus the signed offset, modulo 2^16),
    whatever that address is, and changes nothing else: no other cell, no
    register, no flag.  If that address is not the keyboard status
    register, an LD that later addresses
    the same cell, while the cell still holds what ST stored, loads the
    stored value into its destination, sets the flags to its sign, and
    leaves memory, the program counter and the other general registers
    alone. *)
Theorem st_then_ld_round_trip :
  forall (W : Type) (P : Provider W) (i_st i_ld : Z) (w w2 : W) (s s2 : vm),
    Z.shiftr i_st 12 = OP_ST ->
    Z.shiftr i_ld 12 = OP_LD ->
    exists s1 : vm,
      exec i_st w s = Done (Running, w, s1)
      /\ mem_at (memory s1) (u16 (pc_of s + signed 9 (Z.land i_st 0x1FF)))
         = reg_at (reg s) (Z.land (Z.shiftr i_st 9) 0x7)
      /\ (forall b : Z,
            b <> u16 (pc_of s + sign_extend (Z.land i_st 0x1FF) 9) ->
            mem_at (memory s1) b = mem_at (memory s) b)
      /\ reg s1 = reg s /\ output s1 = output s
      /\ (u16 (pc_of s + sign_extend (Z.land i_st 0x1FF) 9) <> MR_KBSR ->
          wf s2 ->
          u16 (pc_of s2 + sign_extend (Z.land i_ld 0x1FF) 9)
          = u16 (pc_of s + sign_extend (Z.land i_st 0x1FF) 9) ->
          mem_at (memory s2) (u16 (pc_of s + sign_extend (Z.land i_st 0x1FF) 9))
          = mem_at (memory s1) (u16 (pc_of s + sign_extend (Z.land i_st 0x1FF) 9)) ->
          exists s3 : vm,
            exec i_ld w2 s2 = Done (Running, w2, s3)
            /\ reg_at (reg s3) (Z.land (Z.shiftr i_ld 9) 0x7)
               = reg_at (reg s) (Z.land (Z.shiftr i_st 9) 0x7)
            /\ cond_of s3
               = sign_flag (reg_at (reg s) (Z.land (Z.shiftr i_st 9) 0x7))
            /\ memory s3 = memory s2 /\ pc_of s3 = pc_of s2
            /\ forall j : Z, 0 <= j <= 7 -> j <> Z.land (Z.shiftr i_ld 9) 0x7 ->
                 reg_at (reg s3) j = reg_at (reg s2) j).
Proof.
  intros W P i_st i_ld w w2 s s2 Hst Hld.
  eexists. split; [rewrite (exec_st _ Hst); apply op_st_run |].
  split.
  { simpl.
    rewrite <- (add_sign_extend _ _ 9) by (lia || apply (low_field_range _ 9); lia).
    apply mem_at_insert_eq. }
  split; [intros b Hb; simpl; apply mem_at_insert_ne; congruence |].
  split; [done |]. split; [done |].
  intros Hne Hwf2 Haddr Hcell.
  eexists. split.
  { rewrite (exec_ld _ Hld). apply op_ld_run. by rewrite Haddr. }
  cbv zeta. rewrite Haddr, Hcell. simpl memory. rewrite mem_at_insert_eq.
  destruct (loaded_state s2 (Z.land (Z.shiftr i_ld 9) 0x7)
              (reg_at (reg s) (Z.land (Z.shiftr i_st 9) 0x7)) Hwf2
              (field3_range _)) as (Hv & Hc & Hpc & Hm & _ & Hother).
  split; [exact Hv |]. split; [exact Hc |]. split; [exact Hm |].
  split; [exact Hpc | exact Hother].
Qed.

Lemma st_then_ld_round_trip_witness :
  exists s3 : vm,
    exec 0x2405 console0
      (set_memory (write_reg (boot not_image) R_R1 0x1234)
         (<[0x3005 := 0x1234]> not_image))
    = Done (Running, console0, s3)
    /\ reg_at (reg s3) R_R2 = 0x1234.
Proof.
  destruct (st_then_ld_round_trip script _ 0x3205 0x2405 console0 console0
              (write_reg (boot not_image) R_R1 0x1234)
              (set_memory (write_reg (boot not_image) R_R1 0x1234)
                 (<[0x3005 := 0x1234]> not_image))
              eq_refl eq_refl)
    as (s1 & Hst & Hcell & _ & _ & _ & Hld).
  destruct Hld as (s3 & Hrun & Hv & _).
  - vm_compute. discriminate.
  - reflexivity.
  - reflexivity.
  - transitivity 0x1234; [vm_compute; reflexivity | symmetry; exact Hcell].
  - exists s3. split; [exact Hrun | exact Hv].
Defined.

(** X7. STI stores through a pointer: with the pointer cell at
    [PC + offset9] (not the keyboard status register), it writes the source
    register to the address that cell holds, and changes no other cell, no
    register, no flag and no output. *)
Theorem sti_stores_through_pointer :
  forall (W : Type) (P : Provider W) (i : Z) (w : W) (s : vm),
    Z.shiftr i 12 = OP_STI ->
    u16 (pc_of s + sign_extend (Z.land i 0x1FF) 9) <> MR_KBSR ->
    exists s1 : vm,
      exec i w s = Done (Running, w, s1)
      /\ mem_at (memory s1)
           (mem_at (memory s) (u16 (pc_of s + signed 9 (Z.land i 0x1FF))))
         = reg_at (reg s) (Z.land (Z.shiftr i 9) 0x7)
      /\ (forall b : Z,
            b <> mem_at (memory s) (u16 (pc_of s + signed 9 (Z.land i 0x1FF))) ->
            mem_at (memory s1) b = mem_at (memory s) b)
      /\ reg s1 = reg s /\ output s1 = output s.
Proof.
  intros W P i w s Hop Hne.
  eexists. split; [rewrite (exec_sti _ Hop); by apply op_sti_run |].
  rewrite <- (add_sign_extend _ _ 9) by (lia || apply (low_field_range _ 9); lia).
  simpl. split; [apply mem_at_insert_eq |].
  split; [| done]. intros b Hb. apply mem_at_insert_ne. congruence.
Qed.

Lemma sti_stores_through_pointer_witness :
  exists s1 : vm,
    exec 0xB002 console0 (write_reg (boot ldi_image) R_R0 0x0007)
    = Done (Running, console0, s1)
    /\ mem_at (memory s1) 0x4000 = 0x0007.
Proof.
  destruct (sti_stores_through_pointer script _ 0xB002 console0
              (write_reg (boot ldi_image) R_R0 0x0007) eq_refl)
    as (s1 & Hrun & Hv & _).
  - vm_compute. discriminate.
  - exists s1. split; [exact Hrun | exact Hv].
Defined.

(** X8. STR then LDR round trip.  STR stores the source register at
    [base + offset6] (base register plus signed offset, modulo 2^16),
    whatever that address is, and changes nothing else.  If that address is not the keyboard status
    register, an LDR whose base and offset later give the same address,
    while the cell still holds what STR stored, loads that value into its
    destination and sets the flags to its sign, leaving memory and the
    program counter alone. *)
Theorem str_then_ldr_round_trip :
  forall (W : Type) (P : Provider W) (i_st i_ld : Z) (w w2 : W) (s s2 : vm),
    Z.shiftr i_st 12 = OP_STR ->
    Z.shiftr i_ld 12 = OP_LDR ->
    exists s1 : vm,
      exec i_st w s = Done (Running, w, s1)
      /\ mem_at (memory s1)
           (u16 (reg_at (reg s) (Z.land (Z.shiftr i_st 6) 0x7)
                 + signed 6 (Z.land i_st 0x3F)))
         = reg_at (reg s) (Z.land (Z.shiftr i_st 9) 0x7)
      /\ (forall b : Z,
            b <> u16 (reg_at (reg s) (Z.land (Z.shiftr i_st 6) 0x7)
                      + sign_extend (Z.land i_st 0x3F) 6) ->
            mem_at (memory s1) b = mem_at (memory s) b)
      /\ reg s1 = reg s /\ output s1 = output s
      /\ (u16 (reg_at (reg s) (Z.land (Z.shiftr i_st 6) 0x7)
               + sign_extend (Z.land i_st 0x3F) 6) <> MR_KBSR ->
          wf s2 ->
          u16 (reg_at (reg s2) (Z.land (Z.shiftr i_ld 6) 0x7)
               + sign_extend (Z.land i_ld 0x3F) 6)
          = u16 (reg_at (reg s) (Z.land (Z.shiftr i_st 6) 0x7)
                 + sign_extend (Z.land i_st 0x3F) 6) ->
          mem_at (memory s2)
            (u16 (reg_at (reg s) (Z.land (Z.shiftr i_st 6) 0x7)
                  + sign_extend (Z.land i_st 0x3F) 6))
          = mem_at (memory s1)
              (u16 (reg_at (reg s) (Z.land (Z.shiftr i_st 6) 0x7)
                    + sign_extend (Z.land i_st 0x3F) 6)) ->
          exists s3 : vm,
            exec i_ld w2 s2 = Done (Running, w2, s3)
            /\ reg_at (reg s3) (Z.land (Z.shiftr i_ld 9) 0x7)
               = reg_at (reg s) (Z.land (Z.shiftr i_st 9) 0x7)
            /\ cond_of s3
               = sign_flag (reg_at (reg s) (Z.land (Z.shiftr i_st 9) 0x7))
            /\ memory s3 = memory s2 /\ pc_of s3 = pc_of s2).
Proof.
  intros W P i_st i_ld w w2 s s2 Hst Hld.
  eexists. split; [rewrite (exec_str _ Hst); apply op_str_run |].
  split.
  { simpl.
    rewrite <- (add_sign_extend _ _ 6) by (lia || apply (low_field_range _ 6); lia).
    apply mem_at_insert_eq. }
  split; [intros b Hb; simpl; apply mem_at_insert_ne; congruence |].
  split; [done |]. split; [done |].
  intros Hne Hwf2 Haddr Hcell.
  eexists. split.
  { rewrite (exec_ldr _ Hld). apply op_ldr_run. by rewrite Haddr. }
  cbv zeta. rewrite Haddr, Hcell. simpl memory. rewrite mem_at_insert_eq.
  destruct (loaded_state s2 (Z.land (Z.shiftr i_ld 9) 0x7)
              (reg_at (reg s) (Z.land (Z.shiftr i_st 9) 0x7)) Hwf2
              (field3_range _)) as (Hv & Hc & Hpc & Hm & _ & Hother).
  split; [exact Hv |]. split; [exact Hc |]. split; [exact Hm | exact Hpc].
Qed.

Lemma str_then_ldr_round_trip_witness :
  exists s3 : vm,
    exec 0x64BF console0
      (set_memory
         (write_reg (write_reg (boot not_image) R_R1 0x1234) R_R2 0x5000)
         (<[0x4FFF := 0x1234]> not_image))
    = Done (Running, console0, s3)
    /\ reg_at (reg s3) R_R2 = 0x1234.
Proof.
  destruct (str_then_ldr_round_trip script _ 0x72BF 0x64BF console0 console0
              (write_reg (write_reg (boot not_image) R_R1 0x1234) R_R2 0x5000)
              (set_memory
                 (write_reg (write_reg (boot not_image) R_R1 0x1234) R_R2 0x5000)
                 (<[0x4FFF := 0x1234]> not_image))
              eq_refl eq_refl)
    as (s1 & Hst & Hcell & _ & _ & _ & Hld).
  destruct Hld as (s3 & Hrun & Hv & _).
  - vm_compute. discriminate.
  - reflexivity.
  - reflexivity.
  - transitivity 0x1234; [vm_compute; reflexivity | symmetry; exact Hcell].
  - exists s3. split; [exact Hrun | exact Hv].
Defined.

(** * Branches and calls *)

Lemma land_pow2_test (n k : Z) :
  0 <= k -> (Z.land n (2 ^ k) =? 0) = negb (Z.testbit n k).
Proof.
  intros Hk. destruct (Z.testbit n k) eqn:Hbit; simpl.
  - assert (Z.land n (2 ^ k) = 2 ^ k) as ->.
    { apply Z.bits_inj'. intros j Hj. rewrite Z.land_spec.
      destruct (Z.eq_dec j k) as [-> | Hne].
      - rewrite Hbit. reflexivity.
      - rewrite (Z.pow2_bits_false k j) by lia. apply andb_false_r. }
    apply Z.eqb_neq. pose proof (Z.pow_pos_nonneg 2 k). lia.
  - assert (Z.land n (2 ^ k) = 0) as ->; [| reflexivity].
    apply Z.bits_inj'. intros j Hj. rewrite Z.land_spec, Z.bits_0.
    destruct (Z.eq_dec j k) as [-> | Hne].
    + rewrite Hbit. reflexivity.
    + rewrite (Z.pow2_bits_false k j) by lia. apply andb_false_r.
Qed.

Lemma nzp_bit (i k : Z) :
  0 <= k <= 2 ->
  Z.testbit (Z.land (Z.shiftr i 9) 0x7) k = Z.testbit i (k + 9).
Proof.
  intros Hk. rewrite Z.land_spec, Z.shiftr_spec by lia.
  change 0x7 with (Z.ones 3). rewrite Z.ones_spec_low by lia.
  apply andb_true_r.
Qed.

Section Branch.

Context {W : Type} {P : Provider W}.

Lemma exec_br (i : Z) : Z.shiftr i 12 = OP_BR -> (exec i : M W status) = op_br i.
Proof. intros H. unfold exec. by rewrite H. Qed.

Lemma op_br_run (i : Z) (w : W) (s : vm) :
  (op_br i : M W status) w s
  = Done (Running, w,
          if Z.land (Z.land (Z.shiftr i 9) 0x7) (cond_of s) =? 0 then s
          else write_reg s R_PC
                 (u16 (pc_of s + sign_extend (Z.land i 0x1FF) 9))).
Proof.
  unfold op_br. cbv zeta.
  unfold mbind at 1, vm_bind at 1, rd at 1. fold (cond_of s).
  destruct (Z.land (Z.land (Z.shiftr i 9) 7) (cond_of s) =? 0); reflexivity.
Qed.

End Branch.

(** X9. BR reads its mask as the n, z and p bits (instruction bits 11, 10
    and 9): with the flag register holding one of the three flags, the
    branch is taken exactly when the bit of that flag is set in the mask.
    A taken branch adds the signed 9-bit offset to the incremented program
    counter modulo 2^16 and changes nothing else; a branch not taken
    changes nothing at all.  So an all-zero mask never branches and an
    all-ones mask always does. *)
Theorem br_taken_iff_flag_in_mask :
  forall (W : Type) (P : Provider W) (i : Z) (w : W) (s : vm),
    Z.shiftr i 12 = OP_BR -> flags_ok s ->
    ((cond_of s = FL_NEG /\ Z.testbit i 11 = true)
     \/ (cond_of s = FL_ZRO /\ Z.testbit i 10 = true)
     \/ (cond_of s = FL_POS /\ Z.testbit i 9 = true) ->
     exec i w s
     = Done (Running, w,
             write_reg s R_PC (u16 (pc_of s + signed 9 (Z.land i 0x1FF))))
     /\ pc_of (write_reg s R_PC (u16 (pc_of s + signed 9 (Z.land i 0x1FF))))
        = u16 (pc_of s + signed 9 (Z.land i 0x1FF)))
    /\ (~ ((cond_of s = FL_NEG /\ Z.testbit i 11 = true)
           \/ (cond_of s = FL_ZRO /\ Z.testbit i 10 = true)
           \/ (cond_of s = FL_POS /\ Z.testbit i 9 = true)) ->
        exec i w s = Done (Running, w, s)).
Proof.
  intros W P i w s Hop [Hwf Hflag].
  rewrite (exec_br _ Hop), op_br_run.
  rewrite (add_sign_extend _ _ 9) by (lia || apply (low_field_range _ 9); lia).
  assert (Htest : (Z.land (Z.land (Z.shiftr i 9) 0x7) (cond_of s) =? 0)
                  = negb ((if cond_of s =? FL_NEG then Z.testbit i 11 else false)
                          || (if cond_of s =? FL_ZRO then Z.testbit i 10 else false)
                          || (if cond_of s =? FL_POS then Z.testbit i 9 else false))).
  { destruct Hflag as [-> | [-> | ->]].
    - change FL_NEG with (2 ^ 2). rewrite land_pow2_test, nzp_bit by lia.
      simpl. by rewrite !orb_false_r.
    - change FL_ZRO with (2 ^ 1). rewrite land_pow2_test, nzp_bit by lia.
      simpl. by rewrite !orb_false_r.
    - change FL_POS with (2 ^ 0). rewrite land_pow2_test, nzp_bit by lia.
      simpl. reflexivity. }
  rewrite Htest. split.
  - intros Htaken.
    assert (Hb : (if cond_of s =? FL_NEG then Z.testbit i 11 else false)
                 || (if cond_of s =? FL_ZRO then Z.testbit i 10 else false)
                 || (if cond_of s =? FL_POS then Z.testbit i 9 else false) = true).
    { destruct Htaken as [[-> ->] | [[-> ->] | [-> ->]]]; reflexivity. }
    rewrite Hb. simpl. split; [reflexivity |].
    unfold pc_of at 1, write_reg; simpl. apply reg_at_write_eq.
    rewrite Hwf. unfold R_PC, R_COUNT. lia.
  - intros Hnot.
    assert (Hb : (if cond_of s =? FL_NEG then Z.testbit i 11 else false)
                 || (if cond_of s =? FL_ZRO then Z.testbit i 10 else false)
                 || (if cond_of s =? FL_POS then Z.testbit i 9 else false) = false).
    { apply not_true_is_false. intros Hb. apply Hnot.
      apply orb_prop in Hb as [Hb | Hb]; [apply orb_prop in Hb as [Hb | Hb] |].
      - destruct (Z.eqb_spec (cond_of s) FL_NEG); [auto | discriminate].
      - destruct (Z.eqb_spec (cond_of s) FL_ZRO); [auto | discriminate].
      - destruct (Z.eqb_spec (cond_of s) FL_POS); [auto | discriminate]. }
    rewrite Hb. reflexivity.
Qed.

Lemma br_taken_iff_flag_in_mask_witness :
  exec 0x0402 console0 (boot not_image)
  = Done (Running, console0, write_reg (boot not_image) R_PC 0x3002)
  /\ exec 0x0A02 console0 (boot not_image)
     = Done (Running, console0, boot not_image).
Proof.
  destruct (br_taken_iff_flag_in_mask script _ 0x0402 console0
              (boot not_image) eq_refl (boot_flags_ok not_image))
    as [Htaken _].
  destruct (br_taken_iff_flag_in_mask script _ 0x0A02 console0
              (boot not_image) eq_refl (boot_flags_ok not_image))
    as [_ Hnot].
  split.
  - apply Htaken. right. left. split; reflexivity.
  - apply Hnot. intros [[H _] | [[_ H] | [H _]]]; discriminate.
Defined.

Lemma pc_of_write_pc (s : vm) (v : Z) : wf s -> pc_of (write_reg s R_PC v) = v.
Proof.
  intros Hwf. unfold pc_of, write_reg; simpl. apply reg_at_write_eq.
  rewrite Hwf. unfold R_PC, R_COUNT. lia.
Qed.

Lemma reg_at_write_same (s : vm) (i v : Z) :
  wf s -> 0 <= i <= 9 -> reg_at (reg (write_reg s i v)) i = v.
Proof.
  intros Hwf Hi. unfold write_reg; simpl. apply reg_at_write_eq.
  rewrite Hwf. unfold R_COUNT. lia.
Qed.

Lemma reg_at_write_other (s : vm) (i j v : Z) :
  0 <= i -> 0 <= j -> i <> j ->
  reg_at (reg (write_reg s i v)) j = reg_at (reg s) j.
Proof. intros Hi Hj Hne. unfold write_reg; simpl. by apply reg_at_write_ne. Qed.

(** X10. JSRR (opcode JSR with bit 11 clear) writes R7 before it reads the
    base register.  With a base register other than R7 it jumps to the
    address in the base register and leaves the return address in R7; with
    R7 as the base it reads the return address it has just stored, so the
    program counter stays at the next instruction and the address that was
    in R7 is lost.  Nothing else changes: not the flags, not memory. *)
Theorem jsrr_reads_base_after_saving_r7 :
  forall (W : Type) (P : Provider W) (i : Z) (w : W) (s : vm),
    Z.shiftr i 12 = OP_JSR ->
    Z.land (Z.shiftr i 11) 0x1 = 0 ->
    wf s ->
    exists s' : vm,
      exec i w s = Done (Running, w, s')
      /\ reg_at (reg s') R_R7 = pc_of s
      /\ (Z.land (Z.shiftr i 6) 0x7 <> R_R7 ->
          pc_of s' = reg_at (reg s) (Z.land (Z.shiftr i 6) 0x7))
      /\ (Z.land (Z.shiftr i 6) 0x7 = R_R7 -> pc_of s' = pc_of s)
      /\ cond_of s' = cond_of s
      /\ memory s' = memory s /\ output s' = output s.
Proof.
  intros W P i w s Hop Hlong Hwf.
  exists (write_reg (write_reg s R_R7 (pc_of s)) R_PC
            (reg_at (reg (write_reg s R_R7 (pc_of s)))
               (Z.land (Z.shiftr i 6) 0x7))).
  split.
  { rewrite (exec_jsr _ Hop). unfold op_jsr. cbv zeta. rewrite Hlong.
    reflexivity. }
  assert (Hwf7 : wf (write_reg s R_R7 (pc_of s))) by by apply wf_write_reg.
  pose proof (field3_range (Z.shiftr i 6)) as Hbase.
  split.
  { rewrite reg_at_write_other by (unfold R_PC, R_R7; lia).
    apply reg_at_write_same; [done | unfold R_R7; lia]. }
  split.
  { intros Hne. rewrite pc_of_write_pc by done.
    apply reg_at_write_other; unfold R_R7 in *; lia. }
  split.
  { intros ->. rewrite pc_of_write_pc by done.
    apply reg_at_write_same; [done | unfold R_R7; lia]. }
  split; [| done].
  rewrite !cond_of_write_general; [done | unfold R_R7; lia | unfold R_PC; lia].
Qed.

Lemma jsrr_reads_base_after_saving_r7_witness :
  exists s' : vm,
    exec 0x41C0 console0 (write_reg (boot not_image) R_R7 0x5000)
    = Done (Running, console0, s')
    /\ reg_at (reg s') R_R7 = PC_START
    /\ pc_of s' = PC_START.
Proof.
  destruct (jsrr_reads_base_after_saving_r7 script _ 0x41C0 console0
              (write_reg (boot not_image) R_R7 0x5000)
              eq_refl eq_refl eq_refl)
    as (s' & Hrun & Hr7 & _ & Hpc & _).
  exists s'. split; [exact Hrun |]. split; [exact Hr7 |].
  exact (Hpc eq_refl).
Defined.

(** * The arithmetic instructions *)

Lemma lnot_word (v : Z) : is_word v -> u16 (Z.lnot v) = 65535 - v.
Proof.
  intros Hv. unfold is_word in Hv. unfold u16, Z.lnot.
  replace (Z.pred (- v)) with (65535 - v + (-1) * 65536) by lia.
  rewrite Z.mod_add by lia. apply Z.mod_small. lia.
Qed.

Lemma write_reg_twice (s : vm) (i v v' : Z) :
  write_reg (write_reg s i v) i v' = write_reg s i v'.
Proof.
  unfold write_reg, set_reg; simpl. f_equal. apply list_insert_insert_eq.
Qed.

Lemma write_reg_same (s : vm) (i : Z) :
  wf s -> 0 <= i <= 9 -> write_reg s i (reg_at (reg s) i) = s.
Proof.
  intros Hwf Hi. unfold write_reg, set_reg, reg_at. destruct s as [m r o].
  simpl in *. f_equal. unfold wf in Hwf; simpl in Hwf.
  destruct (r !! Z.to_nat i) as [x |] eqn:E; simpl.
  - by apply list_insert_id.
  - apply lookup_ge_None in E. unfold R_COUNT in Hwf. lia.
Qed.

Section Arithmetic.

Context {W : Type} {P : Provider W}.

Lemma exec_not (i : Z) : Z.shiftr i 12 = OP_NOT -> (exec i : M W status) = op_not i.
Proof. intros H. unfold exec. by rewrite H. Qed.

Lemma op_not_run (i : Z) (w : W) (s : vm) :
  (op_not i : M W status) w s
  = Done (Running, w,
          write_reg s (Z.land (Z.shiftr i 9) 0x7)
            (u16 (Z.lnot (reg_at (reg s) (Z.land (Z.shiftr i 6) 0x7))))).
Proof. reflexivity. Qed.

End Arithmetic.

(** X11. NOT puts [0xFFFF - v] in the destination, [v] being the 16-bit
    word in the source, and changes nothing else: not the flags, not the
    program counter, not memory.  Complementing a register in place twice
    brings the machine back to the state it started from. *)
Theorem not_complements_and_is_involutive :
  forall (W : Type) (P : Provider W) (i : Z) (w : W) (s : vm),
    Z.shiftr i 12 = OP_NOT ->
    wf s ->
    is_word (reg_at (reg s) (Z.land (Z.shiftr i 6) 0x7)) ->
    exists s' : vm,
      exec i w s = Done (Running, w, s')
      /\ reg_at (reg s') (Z.land (Z.shiftr i 9) 0x7)
         = 65535 - reg_at (reg s) (Z.land (Z.shiftr i 6) 0x7)
      /\ cond_of s' = cond_of s /\ pc_of s' = pc_of s
      /\ memory s' = memory s /\ output s' = output s
      /\ (Z.land (Z.shiftr i 9) 0x7 = Z.land (Z.shiftr i 6) 0x7 ->
          exec i w s' = Done (Running, w, s)).
Proof.
  intros W P i w s Hop Hwf Hv.
  pose proof (field3_range (Z.shiftr i 9)) as Hdst.
  eexists. split; [rewrite (exec_not _ Hop); apply op_not_run |].
  rewrite lnot_word by done.
  split; [apply reg_at_write_same; [done | lia] |].
  split; [apply cond_of_write_general; lia |].
  split; [by apply pc_of_write_general |].
  split; [done |]. split; [done |].
  intros Hsame. rewrite (exec_not _ Hop), op_not_run.
  rewrite <- Hsame in *. rewrite reg_at_write_same by (done || lia).
  rewrite write_reg_twice. rewrite lnot_word by (unfold is_word in *; lia).
  replace (65535 - (65535 - reg_at (reg s) (Z.land (Z.shiftr i 9) 7)))
    with (reg_at (reg s) (Z.land (Z.shiftr i 9) 7)) by lia.
  rewrite write_reg_same; [done | done | lia].
Qed.

Lemma not_complements_and_is_involutive_witness :
  exists s' : vm,
    exec 0x903F console0 (write_reg (boot not_image) R_R0 0x00FF)
    = Done (Running, console0, s')
    /\ reg_at (reg s') R_R0 = 0xFF00
    /\ exec 0x903F console0 s'
       = Done (Running, console0, write_reg (boot not_image) R_R0 0x00FF).
Proof.
  destruct (not_complements_and_is_involutive script _ 0x903F console0
              (write_reg (boot not_image) R_R0 0x00FF) eq_refl eq_refl)
    as (s' & Hrun & Hv & _ & _ & _ & _ & Hback).
  - vm_compute. split; [discriminate | reflexivity].
  - exists s'. split; [exact Hrun |]. split; [exact Hv |].
    exact (Hback eq_refl).
Defined.

Lemma imm_flag_test (i : Z) :
  (Z.land (Z.shiftr i 5) 0x1 =? 0) = negb (Z.testbit i 5).
Proof. apply low_bit_test. lia. Qed.

(** X12. ADD computes a sum modulo 2^16: the destination receives the
    first source plus the second operand, wrapped to 16 bits, where the
    second operand is the signed 5-bit immediate (-16..15) when bit 5 of the
    instruction is set and the second source register otherwise.  The flags
    become the sign of the result; the program counter, memory, output and
    the other general registers are unchanged. *)
Theorem add_is_sum_modulo_word :
  forall (W : Type) (P : Provider W) (i : Z) (w : W) (s : vm),
    Z.shiftr i 12 = OP_ADD -> wf s ->
    exists s' : vm,
      exec i w s = Done (Running, w, s')
      /\ reg_at (reg s') (Z.land (Z.shiftr i 9) 0x7)
         = u16 (reg_at (reg s) (Z.land (Z.shiftr i 6) 0x7)
                + (if Z.testbit i 5 then signed 5 (Z.land i 0x1F)
                   else reg_at (reg s) (Z.land i 0x7)))
      /\ cond_of s' = sign_flag (reg_at (reg s') (Z.land (Z.shiftr i 9) 0x7))
      /\ pc_of s' = pc_of s /\ memory s' = memory s /\ output s' = output s
      /\ (forall j : Z, 0 <= j <= 7 -> j <> Z.land (Z.shiftr i 9) 0x7 ->
            reg_at (reg s') j = reg_at (reg s) j).
Proof.
  intros W P i w s Hop Hwf.
  eexists. split.
  { rewrite (exec_add _ Hop), op_add_run. apply write_then_flags. }
  match goal with
  | |- context [write_reg (write_reg s ?r ?v) R_COND _] =>
      destruct (loaded_state s r v Hwf (field3_range _))
        as (Hv & Hc & Hpc & Hm & Ho & Hother)
  end.
  rewrite Hv, Hc. split.
  { rewrite imm_flag_test. destruct (Z.testbit i 5); simpl; [| reflexivity].
    apply (add_sign_extend _ _ 5); [lia | apply (low_field_range _ 5); lia]. }
  split; [reflexivity |]. split; [exact Hpc |]. split; [exact Hm |].
  split; [exact Ho | exact Hother].
Qed.

Lemma add_is_sum_modulo_word_witness :
  exists s' : vm,
    exec 0x103F console0 (boot not_image) = Done (Running, console0, s')
    /\ reg_at (reg s') R_R0 = 0xFFFF
    /\ cond_of s' = FL_NEG.
Proof.
  destruct (add_is_sum_modulo_word script _ 0x103F console0 (boot not_image)
              eq_refl eq_refl) as (s' & Hrun & Hv & Hc & _).
  exists s'. split; [exact Hrun |]. split; [exact Hv |].
  rewrite Hc. change (Z.land (Z.shiftr 0x103F 9) 0x7) with R_R0.
  replace (reg_at (reg s') R_R0) with 0xFFFF by (symmetry; exact Hv).
  reflexivity.
Defined.

Lemma land_all_ones (a : Z) : is_word a -> Z.land a 0xFFFF = a.
Proof.
  intros Ha. change 0xFFFF with (Z.ones 16). rewrite Z.land_ones by lia.
  apply Z.mod_small. exact Ha.
Qed.

(** X13. AND computes the bitwise conjunction of the first source and the
    second operand, which is the sign-extended 5-bit immediate when bit 5 is
    set and the second source register otherwise; the flags become the sign
    of the result and nothing else changes.  In particular, with the
    immediate 0 the destination is cleared and the flags are [FL_ZRO], and
    with the immediate -1 (field 0x1F) the destination receives the 16-bit
    source unchanged. *)
Theorem and_is_bitwise_conjunction :
  forall (W : Type) (P : Provider W) (i : Z) (w : W) (s : vm),
    Z.shiftr i 12 = OP_AND -> wf s ->
    exists s' : vm,
      exec i w s = Done (Running, w, s')
      /\ reg_at (reg s') (Z.land (Z.shiftr i 9) 0x7)
         = Z.land (reg_at (reg s) (Z.land (Z.shiftr i 6) 0x7))
             (if Z.testbit i 5 then sign_extend (Z.land i 0x1F) 5
              else reg_at (reg s) (Z.land i 0x7))
      /\ cond_of s' = sign_flag (reg_at (reg s') (Z.land (Z.shiftr i 9) 0x7))
      /\ pc_of s' = pc_of s /\ memory s' = memory s /\ output s' = output s
      /\ (forall j : Z, 0 <= j <= 7 -> j <> Z.land (Z.shiftr i 9) 0x7 ->
            reg_at (reg s') j = reg_at (reg s) j)
      /\ (Z.testbit i 5 = true -> Z.land i 0x1F = 0 ->
          reg_at (reg s') (Z.land (Z.shiftr i 9) 0x7) = 0
          /\ cond_of s' = FL_ZRO)
      /\ (Z.testbit i 5 = true -> Z.land i 0x1F = 0x1F ->
          is_word (reg_at (reg s) (Z.land (Z.shiftr i 6) 0x7)) ->
          reg_at (reg s') (Z.land (Z.shiftr i 9) 0x7)
          = reg_at (reg s) (Z.land (Z.shiftr i 6) 0x7)).
Proof.
  intros W P i w s Hop Hwf.
  eexists. split.
  { rewrite (exec_and _ Hop), op_and_run. apply write_then_flags. }
  rewrite imm_flag_test.
  match goal with
  | |- context [write_reg (write_reg s ?r ?v) R_COND _] =>
      destruct (loaded_state s r v Hwf (field3_range _))
        as (Hv & Hc & Hpc & Hm & Ho & Hother)
  end.
  rewrite Hv, Hc.
  split; [by destruct (Z.testbit i 5) |].
  split; [reflexivity |]. split; [exact Hpc |]. split; [exact Hm |].
  split; [exact Ho |]. split; [exact Hother |]. split.
  - intros -> ->. simpl. rewrite Z.land_0_r. split; reflexivity.
  - intros -> -> Ha. simpl.
    change (sign_extend 31 5) with 0xFFFF. by apply land_all_ones.
Qed.

Lemma and_is_bitwise_conjunction_witness :
  exists s' : vm,
    exec 0x5260 console0 (write_reg (boot not_image) R_R1 0x1234)
    = Done (Running, console0, s')
    /\ reg_at (reg s') R_R1 = 0
    /\ cond_of s' = FL_ZRO.
Proof.
  destruct (and_is_bitwise_conjunction script _ 0x5260 console0
              (write_reg (boot not_image) R_R1 0x1234) eq_refl eq_refl)
    as (s' & Hrun & _ & _ & _ & _ & _ & _ & Hclear & _).
  exists s'. split; [exact Hrun |]. exact (Hclear eq_refl eq_refl).
Defined.

(** * Trap routines *)

Lemma to_char_mod (v : Z) : to_char v mod 256 = v mod 256.
Proof.
  unfold to_char.
  pose proof (Z.div_mod (v + 128) 256 ltac:(lia)) as Hdm.
  replace ((v + 128) mod 256 - 128)
    with (v + (- ((v + 128) / 256)) * 256) by lia.
  apply Z.mod_add. lia.
Qed.

Lemma cells_S (m : gmap Z Z) (a : Z) (n : nat) :
  cells m a (S n) = mem_at m a :: cells m (a + 1) n.
Proof.
  unfold cells. simpl. rewrite Z.add_0_r. f_equal.
  rewrite <- seq_shift, map_map. apply map_ext. intros k. f_equal. lia.
Qed.

Section Traps.

Context {W : Type} {P : Provider W}.

Lemma exec_trap (i : Z) :
  Z.shiftr i 12 = OP_TRAP -> (exec i : M W status) = op_trap i.
Proof. intros H. unfold exec. by rewrite H. Qed.

Lemma op_trap_run (i : Z) (w : W) (s : vm) :
  (op_trap i : M W status) w s
  = (let vector := Z.land i 0xFF in
     if vector =? TRAP_GETC then trap_getc
     else if vector =? TRAP_OUT then trap_out
     else if vector =? TRAP_PUTS then trap_puts
     else if vector =? TRAP_IN then trap_in
     else if vector =? TRAP_PUTSP then trap_putsp
     else if vector =? TRAP_HALT then trap_halt
     else mret Running) w (write_reg s R_R7 (pc_of s)).
Proof. reflexivity. Qed.

Lemma trap_routine (i vector : Z) (w : W) (s : vm) :
  Z.shiftr i 12 = OP_TRAP -> Z.land i 0xFF = vector ->
  (exec i : M W status) w s
  = (if vector =? TRAP_GETC then trap_getc
     else if vector =? TRAP_OUT then trap_out
     else if vector =? TRAP_PUTS then trap_puts
     else if vector =? TRAP_IN then trap_in
     else if vector =? TRAP_PUTSP then trap_putsp
     else if vector =? TRAP_HALT then trap_halt
     else mret Running) w (write_reg s R_R7 (pc_of s)).
Proof. intros Hop <-. rewrite (exec_trap _ Hop). apply op_trap_run. Qed.

Lemma puts_loop_string (k : nat) :
  forall (room : nat) (a : Z) (w : W) (s : vm),
    (k < room)%nat ->
    (forall j : nat, (j < k)%nat -> mem_at (memory s) (a + Z.of_nat j) <> 0) ->
    mem_at (memory s) (a + Z.of_nat k) = 0 ->
    (puts_loop room a : M W unit) w s
    = Done (tt, w,
            set_output s
              (output s ++ map (fun c => c mod 256) (cells (memory s) a k))).
Proof.
  induction k as [| k IH]; intros room a w s Hroom Hnz Hz.
  - destruct room as [| room]; [lia |]. simpl.
    unfold mbind, vm_bind, peek. rewrite Z.add_0_r in Hz. rewrite Hz. simpl.
    unfold cells; simpl. rewrite app_nil_r. by destruct s.
  - destruct room as [| room]; [lia |]. cbn [puts_loop].
    unfold mbind at 1, vm_bind at 1, peek at 1.
    pose proof (Hnz 0%nat ltac:(lia)) as H0. rewrite Z.add_0_r in H0.
    destruct (Z.eqb_spec (mem_at (memory s) a) 0) as [E | _]; [done |].
    unfold mbind at 1, vm_bind at 1, putc at 1.
    rewrite cells_S.
    rewrite (IH room (a + 1) w).
    + unfold set_output; cbn [memory reg output map].
      rewrite to_char_mod, <- app_assoc. reflexivity.
    + lia.
    + intros j Hj. cbn [memory set_output].
      replace (a + 1 + Z.of_nat j) with (a + Z.of_nat (S j)) by lia.
      apply Hnz. lia.
    + cbn [memory set_output].
      replace (a + 1 + Z.of_nat k) with (a + Z.of_nat (S k)) by lia. exact Hz.
Qed.

Lemma puts_loop_overrun (room : nat) :
  forall (a : Z) (w : W) (s : vm),
    (forall j : nat, (j < room)%nat -> mem_at (memory s) (a + Z.of_nat j) <> 0) ->
    (puts_loop room a : M W unit) w s = Overrun.
Proof.
  induction room as [| room IH]; intros a w s Hnz; [reflexivity |]. simpl.
  unfold mbind at 1, vm_bind at 1, peek at 1.
  pose proof (Hnz 0%nat ltac:(lia)) as H0. rewrite Z.add_0_r in H0.
  destruct (Z.eqb_spec (mem_at (memory s) a) 0) as [E | _]; [done |].
  unfold mbind at 1, vm_bind at 1, putc at 1.
  rewrite IH; [reflexivity |]. cbn [memory set_output].
  intros j Hj. replace (a + 1 + Z.of_nat j) with (a + Z.of_nat (S j)) by lia.
  apply Hnz. lia.
Qed.

End Traps.

(** X14. TRAP PUTS writes a zero-terminated string: if the [k] cells from
    the address in R0 are nonzero, the next cell is zero and it lies inside
    memory, the trap appends the low byte of each of the [k] words to the
    output, in order, and stops at the zero word.  Apart from the output
    and R7, which receives the program counter, nothing changes, and the
    console is not consulted. *)
Theorem puts_writes_string_up_to_zero :
  forall (W : Type) (P : Provider W) (i : Z) (w : W) (s : vm) (k : nat),
    Z.shiftr i 12 = OP_TRAP -> Z.land i 0xFF = TRAP_PUTS ->
    (forall j : nat, (j < k)%nat ->
       mem_at (memory s) (reg_at (reg s) R_R0 + Z.of_nat j) <> 0) ->
    mem_at (memory s) (reg_at (reg s) R_R0 + Z.of_nat k) = 0 ->
    reg_at (reg s) R_R0 + Z.of_nat k < 65536 ->
    exec i w s
    = Done (Running, w,
            set_output (write_reg s R_R7 (pc_of s))
              (output s
               ++ map (fun c => c mod 256)
                    (cells (memory s) (reg_at (reg s) R_R0) k))).
Proof.
  intros W P i w s k Hop Hvec Hnz Hz Hin.
  rewrite (trap_routine i TRAP_PUTS w s Hop Hvec). simpl.
  unfold trap_puts. unfold mbind at 1, vm_bind at 1, rd at 1.
  assert (Hr0 : reg_at (reg (write_reg s R_R7 (pc_of s))) R_R0
                = reg_at (reg s) R_R0).
  { apply reg_at_write_other; unfold R_R7, R_R0; lia. }
  rewrite Hr0. unfold mbind at 1, vm_bind at 1.
  rewrite (puts_loop_string k); [reflexivity | | exact Hnz | exact Hz].
  unfold MEMORY_MAX. change (Z.shiftl 1 16) with 65536. lia.
Qed.

Lemma puts_writes_string_up_to_zero_witness :
  exec 0xF022 console0 (write_reg (boot hi_image) R_R0 0x3100)
  = Done (Running, console0,
          set_output
            (write_reg (write_reg (boot hi_image) R_R0 0x3100) R_R7 PC_START)
            [0x48; 0x49]).
Proof.
  apply (puts_writes_string_up_to_zero script _ 0xF022 console0
           (write_reg (boot hi_image) R_R0 0x3100) 2%nat).
  - reflexivity.
  - reflexivity.
  - intros j Hj. destruct j as [| [| j]]; [vm_compute; discriminate .. | lia].
  - reflexivity.
  - vm_compute. reflexivity.
Defined.

Section TrapsPacked.

Context {W : Type} {P : Provider W}.

Lemma putsp_loop_overrun (room : nat) :
  forall (a : Z) (w : W) (s : vm),
    (forall j : nat, (j < room)%nat -> mem_at (memory s) (a + Z.of_nat j) <> 0) ->
    (putsp_loop room a : M W unit) w s = Overrun.
Proof.
  induction room as [| room IH]; intros a w s Hnz; [reflexivity |].
  cbn [putsp_loop].
  unfold mbind at 1, vm_bind at 1, peek at 1.
  pose proof (Hnz 0%nat ltac:(lia)) as H0. rewrite Z.add_0_r in H0.
  destruct (Z.eqb_spec (mem_at (memory s) a) 0) as [E | _]; [done |].
  cbv zeta. unfold mbind at 1, vm_bind at 1, putc at 1.
  unfold mbind at 1, vm_bind at 1.
  assert (Hnext : forall s1 : vm, memory s1 = memory s ->
            (putsp_loop room (a + 1) : M W unit) w s1 = Overrun).
  { intros s1 Hs1. apply IH. rewrite Hs1. intros j Hj.
    replace (a + 1 + Z.of_nat j) with (a + Z.of_nat (S j)) by lia.
    apply Hnz. lia. }
  destruct (negb (to_char (Z.shiftr (mem_at (memory s) a) 8) =? 0)).
  - unfold putc. by rewrite Hnext.
  - unfold mret, vm_ret. by rewrite Hnext.
Qed.

Lemma high_byte_char (ch : Z) :
  is_word ch ->
  (to_char (Z.shiftr ch 8) =? 0) = (Z.shiftr ch 8 =? 0)
  /\ to_char (Z.shiftr ch 8) mod 256 = Z.shiftr ch 8.
Proof.
  intros Hch. unfold is_word in Hch.
  assert (Hq : 0 <= Z.shiftr ch 8 < 256).
  { rewrite Z.shiftr_div_pow2 by lia. change (2 ^ 8) with 256.
    split; [apply Z.div_pos; lia | apply Z.div_lt_upper_bound; lia]. }
  split.
  - unfold to_char.
    destruct (Z.lt_ge_cases (Z.shiftr ch 8) 128).
    + rewrite Z.mod_small by lia.
      replace (Z.shiftr ch 8 + 128 - 128) with (Z.shiftr ch 8) by lia.
      reflexivity.
    + replace (Z.shiftr ch 8 + 128) with (Z.shiftr ch 8 - 128 + 1 * 256) by lia.
      rewrite Z.mod_add, Z.mod_small by lia.
      destruct (Z.eqb_spec (Z.shiftr ch 8 - 128 - 128) 0),
        (Z.eqb_spec (Z.shiftr ch 8) 0); (reflexivity || lia).
  - rewrite to_char_mod. apply Z.mod_small. lia.
Qed.

Lemma low_byte_char (ch : Z) : to_char (Z.land ch 0xFF) mod 256 = Z.land ch 0xFF.
Proof.
  rewrite to_char_mod. apply Z.mod_small.
  apply (low_field_range ch 8). lia.
Qed.

Lemma putsp_loop_string (k : nat) :
  forall (room : nat) (a : Z) (w : W) (s : vm),
    (k < room)%nat ->
    (forall j : nat, (j < k)%nat ->
       mem_at (memory s) (a + Z.of_nat j) <> 0
       /\ is_word (mem_at (memory s) (a + Z.of_nat j))) ->
    mem_at (memory s) (a + Z.of_nat k) = 0 ->
    (putsp_loop room a : M W unit) w s
    = Done (tt, w,
            set_output s
              (output s ++ flat_map unpack (cells (memory s) a k))).
Proof.
  induction k as [| k IH]; intros room a w s Hroom Hnz Hz.
  - destruct room as [| room]; [lia |]. cbn [putsp_loop].
    unfold mbind, vm_bind, peek. rewrite Z.add_0_r in Hz. rewrite Hz. simpl.
    unfold cells; simpl. rewrite app_nil_r. by destruct s.
  - destruct room as [| room]; [lia |]. cbn [putsp_loop].
    unfold mbind at 1, vm_bind at 1, peek at 1.
    destruct (Hnz 0%nat ltac:(lia)) as [H0 Hw0]. rewrite Z.add_0_r in H0, Hw0.
    destruct (Z.eqb_spec (mem_at (memory s) a) 0) as [E | _]; [done |].
    cbv zeta. rewrite cells_S. cbn [flat_map].
    destruct (high_byte_char _ Hw0) as [Htest Hhigh].
    unfold mbind at 1, vm_bind at 1, putc at 1.
    unfold mbind at 1, vm_bind at 1.
    rewrite Htest. unfold unpack at 1.
    destruct (Z.shiftr (mem_at (memory s) a) 8 =? 0); cbn [negb].
    + unfold mret, vm_ret. rewrite (IH room (a + 1) w).
      * unfold set_output; cbn [memory reg output].
        rewrite low_byte_char, <- app_assoc. reflexivity.
      * lia.
      * intros j Hj. cbn [memory set_output].
        replace (a + 1 + Z.of_nat j) with (a + Z.of_nat (S j)) by lia.
        apply Hnz. lia.
      * cbn [memory set_output].
        replace (a + 1 + Z.of_nat k) with (a + Z.of_nat (S k)) by lia. exact Hz.
    + unfold putc. rewrite (IH room (a + 1) w).
      * unfold set_output; cbn [memory reg output].
        rewrite low_byte_char, Hhigh, <- !app_assoc. reflexivity.
      * lia.
      * intros j Hj. cbn [memory set_output].
        replace (a + 1 + Z.of_nat j) with (a + Z.of_nat (S j)) by lia.
        apply Hnz. lia.
      * cbn [memory set_output].
        replace (a + 1 + Z.of_nat k) with (a + Z.of_nat (S k)) by lia. exact Hz.
Qed.

End TrapsPacked.

(** X15. The string traps have no bound of their own: if no cell from the
    address in R0 to the end of memory holds zero, PUTS and PUTSP scan past
    the last cell of [memory], which the model reports as [Overrun]. *)
Theorem string_traps_overrun_without_terminator :
  forall (W : Type) (P : Provider W) (i : Z) (w : W) (s : vm),
    Z.shiftr i 12 = OP_TRAP ->
    Z.land i 0xFF = TRAP_PUTS \/ Z.land i 0xFF = TRAP_PUTSP ->
    (forall b : Z, reg_at (reg s) R_R0 <= b < 65536 -> mem_at (memory s) b <> 0) ->
    exec i w s = Overrun.
Proof.
  intros W P i w s Hop Hvec Hnz.
  assert (Hr0 : reg_at (reg (write_reg s R_R7 (pc_of s))) R_R0
                = reg_at (reg s) R_R0).
  { apply reg_at_write_other; unfold R_R7, R_R0; lia. }
  assert (Hcells : forall j : nat,
            (j < Z.to_nat (MEMORY_MAX - reg_at (reg s) R_R0))%nat ->
            mem_at (memory s) (reg_at (reg s) R_R0 + Z.of_nat j) <> 0).
  { intros j Hj. apply Hnz. unfold MEMORY_MAX in Hj.
    change (Z.shiftl 1 16) with 65536 in Hj. lia. }
  destruct Hvec as [Hvec | Hvec].
  - rewrite (trap_routine i TRAP_PUTS w s Hop Hvec). simpl.
    unfold trap_puts. unfold mbind at 1, vm_bind at 1, rd at 1.
    rewrite Hr0. unfold mbind at 1, vm_bind at 1.
    by rewrite puts_loop_overrun.
  - rewrite (trap_routine i TRAP_PUTSP w s Hop Hvec). simpl.
    unfold trap_putsp. unfold mbind at 1, vm_bind at 1, rd at 1.
    rewrite Hr0. unfold mbind at 1, vm_bind at 1.
    by rewrite putsp_loop_overrun.
Qed.

Lemma string_traps_overrun_without_terminator_witness :
  exec 0xF022 console0 (write_reg (boot unterminated_image) R_R0 0xFFFE)
  = Overrun.
Proof.
  apply (string_traps_overrun_without_terminator script _ 0xF022 console0
           (write_reg (boot unterminated_image) R_R0 0xFFFE)).
  - reflexivity.
  - left. reflexivity.
  - intros b Hb. change (reg_at _ R_R0) with 0xFFFE in Hb.
    assert (Hcase : b = 0xFFFE \/ b = 0xFFFF) by lia.
    destruct Hcase as [-> | ->]; vm_compute; discriminate.
Defined.

(** X16. TRAP PUTSP writes a packed string: for the [k] nonzero 16-bit
    words from the address in R0 up to the first zero word (inside memory),
    it appends to the output the low byte of each word followed by its high
    byte unless that is zero; a zero low byte under a nonzero high byte is
    written as it is.  Apart from the output and R7 nothing changes. *)
Theorem putsp_writes_packed_string :
  forall (W : Type) (P : Provider W) (i : Z) (w : W) (s : vm) (k : nat),
    Z.shiftr i 12 = OP_TRAP -> Z.land i 0xFF = TRAP_PUTSP ->
    (forall j : nat, (j < k)%nat ->
       mem_at (memory s) (reg_at (reg s) R_R0 + Z.of_nat j) <> 0
       /\ is_word (mem_at (memory s) (reg_at (reg s) R_R0 + Z.of_nat j))) ->
    mem_at (memory s) (reg_at (reg s) R_R0 + Z.of_nat k) = 0 ->
    reg_at (reg s) R_R0 + Z.of_nat k < 65536 ->
    exec i w s
    = Done (Running, w,
            set_output (write_reg s R_R7 (pc_of s))
              (output s
               ++ flat_map unpack (cells (memory s) (reg_at (reg s) R_R0) k))).
Proof.
  intros W P i w s k Hop Hvec Hnz Hz Hin.
  rewrite (trap_routine i TRAP_PUTSP w s Hop Hvec). simpl.
  unfold trap_putsp. unfold mbind at 1, vm_bind at 1, rd at 1.
  assert (Hr0 : reg_at (reg (write_reg s R_R7 (pc_of s))) R_R0
                = reg_at (reg s) R_R0).
  { apply reg_at_write_other; unfold R_R7, R_R0; lia. }
  rewrite Hr0. unfold mbind at 1, vm_bind at 1.
  rewrite (putsp_loop_string k); [reflexivity | | exact Hnz | exact Hz].
  unfold MEMORY_MAX. change (Z.shiftl 1 16) with 65536. lia.
Qed.

Lemma putsp_writes_packed_string_witness :
  exec 0xF024 console0 (write_reg (boot hi_image) R_R0 0x3200)
  = Done (Running, console0,
          set_output
            (write_reg (write_reg (boot hi_image) R_R0 0x3200) R_R7 PC_START)
            [0x48; 0x49]).
Proof.
  apply (putsp_writes_packed_string script _ 0xF024 console0
           (write_reg (boot hi_image) R_R0 0x3200) 1%nat).
  - reflexivity.
  - reflexivity.
  - intros j Hj. destruct j as [| j]; [| lia].
    split; [vm_compute; discriminate |].
    vm_compute. split; [discriminate | reflexivity].
  - reflexivity.
  - vm_compute. reflexivity.
Defined.

Lemma unpack_pair (b0 b1 : Z) :
  0 < b0 < 256 -> 0 < b1 < 256 -> unpack (b0 + 256 * b1) = [b0; b1].
Proof.
  intros H0 H1. unfold unpack.
  assert (Hlow : Z.land (b0 + 256 * b1) 0xFF = b0).
  { change 0xFF with (Z.ones 8). rewrite Z.land_ones by lia.
    change (2 ^ 8) with 256. symmetry.
    apply (Z.mod_unique _ 256 b1 b0); lia. }
  assert (Hhigh : Z.shiftr (b0 + 256 * b1) 8 = b1).
  { rewrite Z.shiftr_div_pow2 by lia. change (2 ^ 8) with 256. symmetry.
    apply (Z.div_unique _ 256 b1 b0); lia. }
  rewrite Hlow, Hhigh.
  destruct (Z.eqb_spec b1 0); [lia | reflexivity].
Qed.

Lemma unpack_single (b0 : Z) : 0 < b0 < 256 -> unpack b0 = [b0].
Proof.
  intros H0. unfold unpack.
  assert (Hlow : Z.land b0 0xFF = b0).
  { change 0xFF with (Z.ones 8). rewrite Z.land_ones by lia.
    apply Z.mod_small. change (2 ^ 8) with 256. lia. }
  assert (Hhigh : Z.shiftr b0 8 = 0).
  { rewrite Z.shiftr_div_pow2 by lia. apply Z.div_small.
    change (2 ^ 8) with 256. lia. }
  by rewrite Hlow, Hhigh.
Qed.

Lemma pack_spec (n : nat) :
  forall bytes : list Z,
    (length bytes <= n)%nat ->
    Forall (fun b => 0 < b < 256) bytes ->
    flat_map unpack (pack bytes) = bytes
    /\ Forall (fun c => c <> 0 /\ is_word c) (pack bytes).
Proof.
  induction n as [| n IH]; intros bytes Hlen Hbytes.
  - destruct bytes; [by split | simpl in Hlen; lia].
  - destruct bytes as [| b0 [| b1 rest]].
    + by split.
    + inversion Hbytes as [| ? ? H0 _]; subst. cbn [pack flat_map].
      rewrite unpack_single by done. split; [reflexivity |].
      constructor; [| constructor]. unfold is_word. lia.
    + inversion Hbytes as [| ? ? H0 Hrest]; subst.
      inversion Hrest as [| ? ? H1 Hrest']; subst.
      destruct (IH rest) as [Hflat Hwords]; [simpl in Hlen; lia | done |].
      cbn [pack flat_map]. rewrite unpack_pair by done. rewrite Hflat.
      split; [reflexivity |].
      constructor; [| exact Hwords]. unfold is_word. lia.
Qed.

Lemma cells_lookup (m : gmap Z Z) (a : Z) (n j : nat) :
  (j < n)%nat -> cells m a n !! j = Some (mem_at m (a + Z.of_nat j)).
Proof.
  intros Hj. unfold cells. rewrite list_lookup_fmap.
  rewrite lookup_seq_lt by done. reflexivity.
Qed.

(** X17. PUTSP undoes the packing of a string: if the cells from the
    address in R0 hold a string of nonzero bytes packed two to a word, first
    character in the low byte, followed by a zero word inside memory, then
    TRAP PUTSP appends exactly the bytes of the string to the output. *)
Theorem putsp_unpacks_packed_bytes :
  forall (W : Type) (P : Provider W) (i : Z) (w : W) (s : vm)
         (bytes : list Z),
    Z.shiftr i 12 = OP_TRAP -> Z.land i 0xFF = TRAP_PUTSP ->
    Forall (fun b => 0 < b < 256) bytes ->
    cells (memory s) (reg_at (reg s) R_R0) (length (pack bytes)) = pack bytes ->
    mem_at (memory s) (reg_at (reg s) R_R0 + Z.of_nat (length (pack bytes))) = 0 ->
    reg_at (reg s) R_R0 + Z.of_nat (length (pack bytes)) < 65536 ->
    exec i w s
    = Done (Running, w,
            set_output (write_reg s R_R7 (pc_of s)) (output s ++ bytes)).
Proof.
  intros W P i w s bytes Hop Hvec Hbytes Hcells Hz Hin.
  destruct (pack_spec (length bytes) bytes (le_n _) Hbytes) as [Hflat Hwords].
  assert (Hnz : forall j : nat, (j < length (pack bytes))%nat ->
            mem_at (memory s) (reg_at (reg s) R_R0 + Z.of_nat j) <> 0
            /\ is_word (mem_at (memory s) (reg_at (reg s) R_R0 + Z.of_nat j))).
  { intros j Hj. pose proof (cells_lookup (memory s) (reg_at (reg s) R_R0) _ j Hj) as Hl.
    rewrite Hcells in Hl.
    exact (proj1 (Forall_lookup _ _) Hwords j _ Hl). }
  rewrite (trap_routine i TRAP_PUTSP w s Hop Hvec). simpl.
  unfold trap_putsp. unfold mbind at 1, vm_bind at 1, rd at 1.
  assert (Hr0 : reg_at (reg (write_reg s R_R7 (pc_of s))) R_R0
                = reg_at (reg s) R_R0).
  { apply reg_at_write_other; unfold R_R7, R_R0; lia. }
  rewrite Hr0. unfold mbind at 1, vm_bind at 1.
  rewrite (putsp_loop_string (length (pack bytes))); [| | exact Hnz | exact Hz].
  - cbn [memory write_reg set_reg]. rewrite Hcells, Hflat. reflexivity.
  - unfold MEMORY_MAX. change (Z.shiftl 1 16) with 65536. lia.
Qed.

Lemma putsp_unpacks_packed_bytes_witness :
  exec 0xF024 console0 (write_reg (boot hi_image) R_R0 0x3200)
  = Done (Running, console0,
          set_output
            (write_reg (write_reg (boot hi_image) R_R0 0x3200) R_R7 PC_START)
            ([] ++ [0x48; 0x49])).
Proof.
  apply (putsp_unpacks_packed_bytes script _ 0xF024 console0
           (write_reg (boot hi_image) R_R0 0x3200) [0x48; 0x49]).
  - reflexivity.
  - reflexivity.
  - repeat constructor.
  - vm_compute. reflexivity.
  - reflexivity.
  - vm_compute. reflexivity.
Defined.

Section TrapsInput.

Context {W : Type} {P : Provider W}.

Lemma trap_getc_run (w w' : W) (s : vm) (c : Z) :
  getchar w = (c, w') ->
  (trap_getc : M W status) w s
  = Done (Running, w',
          write_reg (write_reg s R_R0 (u16 c)) R_COND
            (sign_flag (reg_at (reg (write_reg s R_R0 (u16 c))) R_R0))).
Proof.
  intros Hget. unfold trap_getc.
  unfold mbind at 1, vm_bind at 1, host at 1. rewrite Hget.
  apply write_then_flags.
Qed.

Lemma trap_in_run (w w' : W) (s : vm) (c : Z) :
  getchar w = (c, w') ->
  (trap_in : M W status) w s
  = Done (Running, w',
          let s1 := set_output s
                      (output s ++ bytes_of_string "Enter a character:"
                       ++ [c mod 256]) in
          write_reg (write_reg s1 R_R0 (u16 (to_char c))) R_COND
            (sign_flag (reg_at (reg (write_reg s1 R_R0 (u16 (to_char c)))) R_R0))).
Proof.
  intros Hget. unfold trap_in.
  unfold mbind at 1, vm_bind at 1, print at 1.
  unfold mbind at 1, vm_bind at 1, host at 1. rewrite Hget. cbv zeta.
  unfold mbind at 1, vm_bind at 1, putc at 1.
  rewrite write_then_flags. unfold set_output; cbn [memory reg output].
  rewrite to_char_mod, <- app_assoc. reflexivity.
Qed.

End TrapsInput.

(** X18. TRAP GETC takes one character from the console without writing
    anything to the output: R0 receives the character as a 16-bit word, the
    flags become its sign, R7 receives the program counter, and the program
    counter and memory are unchanged.  A byte 0..255 arrives as itself; at
    end of input ([getchar] returns -1) R0 becomes 0xFFFF and the flags
    [FL_NEG]. *)
Theorem getc_reads_one_character :
  forall (W : Type) (P : Provider W) (i : Z) (w w' : W) (s : vm) (c : Z),
    Z.shiftr i 12 = OP_TRAP -> Z.land i 0xFF = TRAP_GETC ->
    wf s -> getchar w = (c, w') ->
    exists s' : vm,
      exec i w s = Done (Running, w', s')
      /\ reg_at (reg s') R_R0 = u16 c
      /\ cond_of s' = sign_flag (u16 c)
      /\ reg_at (reg s') R_R7 = pc_of s
      /\ pc_of s' = pc_of s /\ memory s' = memory s /\ output s' = output s
      /\ (0 <= c < 256 -> reg_at (reg s') R_R0 = c)
      /\ (c = -1 -> reg_at (reg s') R_R0 = 0xFFFF /\ cond_of s' = FL_NEG).
Proof.
  intros W P i w w' s c Hop Hvec Hwf Hget.
  eexists. split.
  { rewrite (trap_routine i TRAP_GETC w s Hop Hvec). simpl.
    by apply trap_getc_run. }
  assert (Hwf7 : wf (write_reg s R_R7 (pc_of s))) by by apply wf_write_reg.
  destruct (loaded_state (write_reg s R_R7 (pc_of s)) R_R0 (u16 c) Hwf7
              ltac:(unfold R_R0; lia)) as (Hv & Hc & Hpc & Hm & Ho & Hother).
  split; [exact Hv |]. split; [exact Hc |]. split.
  { rewrite Hother by (unfold R_R7, R_R0; lia).
    apply reg_at_write_same; [done | unfold R_R7; lia]. }
  split; [rewrite Hpc; apply pc_of_write_general; unfold R_R7; lia |].
  split; [exact Hm |]. split; [exact Ho |]. split.
  - intros Hbyte. rewrite Hv. apply u16_word. unfold is_word. lia.
  - intros ->. rewrite Hv, Hc. split; reflexivity.
Qed.

Lemma getc_reads_one_character_witness :
  exists s' : vm,
    exec 0xF020 console0 (boot not_image)
    = Done (Running, {| keys := [true; false]; chars := [0x42] |}, s')
    /\ reg_at (reg s') R_R0 = 0x41
    /\ output s' = [].
Proof.
  destruct (getc_reads_one_character script script_provider 0xF020 console0
              {| keys := [true; false]; chars := [0x42] |}
              (boot not_image) 0x41 eq_refl eq_refl eq_refl eq_refl)
    as (s' & Hrun & _ & _ & _ & _ & _ & Hout & Hbyte & _).
  exists s'. split; [exact Hrun |]. split; [| exact Hout].
  apply Hbyte. lia.
Defined.

(** X19. TRAP IN prompts and echoes: it appends "Enter a character:" and
    then the character read to the output, stores the character in R0 (an
    ASCII character 0..127 as itself; in general the [char] it was read
    into, converted to 16 bits), sets the flags to the sign of R0, and
    stores the program counter in R7.  The program counter and memory are
    unchanged and exactly one character is taken from the console. *)
Theorem in_prompts_and_echoes :
  forall (W : Type) (P : Provider W) (i : Z) (w w' : W) (s : vm) (c : Z),
    Z.shiftr i 12 = OP_TRAP -> Z.land i 0xFF = TRAP_IN ->
    wf s -> getchar w = (c, w') ->
    exists s' : vm,
      exec i w s = Done (Running, w', s')
      /\ output s'
         = output s ++ bytes_of_string "Enter a character:" ++ [c mod 256]
      /\ reg_at (reg s') R_R0 = u16 (to_char c)
      /\ (0 <= c < 128 -> reg_at (reg s') R_R0 = c)
      /\ cond_of s' = sign_flag (reg_at (reg s') R_R0)
      /\ reg_at (reg s') R_R7 = pc_of s
      /\ pc_of s' = pc_of s /\ memory s' = memory s.
Proof.
  intros W P i w w' s c Hop Hvec Hwf Hget.
  eexists. split.
  { rewrite (trap_routine i TRAP_IN w s Hop Hvec). simpl.
    by apply trap_in_run. }
  cbv zeta.
  match goal with
  | |- context [write_reg (write_reg ?s1 R_R0 ?v) R_COND _] =>
      assert (Hwf1 : wf s1) by (by apply wf_write_reg);
      destruct (loaded_state s1 R_R0 v Hwf1 ltac:(unfold R_R0; lia))
        as (Hv & Hc & Hpc & Hm & Ho & Hother)
  end.
  split; [rewrite Ho; reflexivity |]. split; [exact Hv |]. split.
  { intros Hbyte. rewrite Hv. unfold to_char.
    rewrite Z.mod_small by lia. replace (c + 128 - 128) with c by lia.
    apply u16_word. unfold is_word. lia. }
  split; [by rewrite Hc, Hv |]. split.
  { rewrite Hother by (unfold R_R7, R_R0; lia).
    cbn [reg set_output]. apply reg_at_write_same; [done | unfold R_R7; lia]. }
  split; [| exact Hm].
  rewrite Hpc. unfold pc_of; cbn [reg set_output].
  apply reg_at_write_other; unfold R_R7, R_PC; lia.
Qed.

Lemma in_prompts_and_echoes_witness :
  exists s' : vm,
    exec 0xF023 console0 (boot not_image)
    = Done (Running, {| keys := [true; false]; chars := [0x42] |}, s')
    /\ output s' = bytes_of_string "Enter a character:A"
    /\ reg_at (reg s') R_R0 = 0x41.
Proof.
  destruct (in_prompts_and_echoes script script_provider 0xF023 console0
              {| keys := [true; false]; chars := [0x42] |}
              (boot not_image) 0x41 eq_refl eq_refl eq_refl eq_refl)
    as (s' & Hrun & Hout & _ & Hbyte & _).
  exists s'. split; [exact Hrun |]. split; [exact Hout |].
  apply Hbyte. lia.
Defined.

(** * Halting *)

Section Halting.

Context {W : Type} {P : Provider W}.

Lemma returns_ret {A} (Q : A -> Prop) (a : A) :
  Q a -> returns Q (mret a : M W A).
Proof. intros Ha w s a' w' s' H. by inversion H; subst. Qed.

Lemma returns_tail {A B} (Q : B -> Prop) (m : M W A) (k : A -> M W B) :
  (forall a, returns Q (k a)) -> returns Q (m ≫= k).
Proof.
  intros Hk w s b w' s' H. unfold mbind, vm_bind in H.
  destruct (m w s) as [[[a w1] s1] | |]; try discriminate.
  by apply (Hk a _ _ _ _ _ H).
Qed.

Lemma returns_abort {A} (Q : A -> Prop) : returns Q (abort : M W A).
Proof. intros w s a w' s' H. discriminate. Qed.

Ltac returns_running :=
  cbv zeta;
  repeat first
    [ apply returns_ret; reflexivity
    | apply returns_abort
    | apply returns_tail; intros ? ].

Lemma exec_halted (i : Z) (w w' : W) (s s' : vm) :
  (exec i : M W status) w s = Done (Halted, w', s') ->
  Z.shiftr i 12 = OP_TRAP /\ Z.land i 0xFF = TRAP_HALT.
Proof.
  intros H.
  assert (Hrun : forall (m : M W status) (s0 : vm),
            returns (fun st => st = Running) m -> m w s0 <> Done (Halted, w', s')).
  { intros m s0 Hm Habs. specialize (Hm _ _ _ _ _ Habs). discriminate. }
  revert H. unfold exec. cbv zeta.
  repeat match goal with
  | |- (if ?x =? ?c then _ else _) w s = _ -> _ =>
      destruct (Z.eqb_spec x c) as [E | _];
      [ first
          [ intros H; exfalso; revert H; apply Hrun;
            unfold op_add, op_and, op_not, op_br, op_jmp, op_jsr, op_ld,
              op_ldi, op_ldr, op_lea, op_st, op_sti, op_str;
            solve [returns_running]
          | idtac ]
      | ]
  end.
  - intros H. split; [exact E |]. revert H. rewrite op_trap_run. cbv zeta.
    repeat match goal with
    | |- (if ?x =? ?c then _ else _) _ _ = _ -> _ =>
        destruct (Z.eqb_spec x c) as [E' | _];
        [ first
            [ intros H; exfalso; revert H; apply Hrun;
              unfold trap_getc, trap_out, trap_puts, trap_in, trap_putsp;
              solve [returns_running]
            | idtac ]
        | ]
    end.
    + intros _. exact E'.
    + intros H. inversion H.
  - intros H. discriminate.
Qed.

Lemma exec_halt (i : Z) (w : W) (s : vm) :
  Z.shiftr i 12 = OP_TRAP -> Z.land i 0xFF = TRAP_HALT ->
  (exec i : M W status) w s
  = Done (Halted, w,
          set_output (write_reg s R_R7 (pc_of s))
            (output s ++ bytes_of_string ("HALT" ++ newline))).
Proof.
  intros Hop Hvec. rewrite (trap_routine i TRAP_HALT w s Hop Hvec).
  reflexivity.
Qed.

End Halting.

(** X20. HALT is the only way out of the loop: an instruction ends the loop
    if and only if it is a TRAP with vector 0x25.  That trap writes "HALT"
    and a newline to the output, stores the program counter in R7 and
    changes nothing else; every other instruction that completes leaves the
    loop running. *)
Theorem only_halt_stops_the_loop :
  forall (W : Type) (P : Provider W) (i : Z) (w : W) (s : vm),
    (Z.shiftr i 12 = OP_TRAP -> Z.land i 0xFF = TRAP_HALT ->
     exec i w s
     = Done (Halted, w,
             set_output (write_reg s R_R7 (pc_of s))
               (output s ++ bytes_of_string ("HALT" ++ newline))))
    /\ (forall (w' : W) (s' : vm),
          exec i w s = Done (Halted, w', s') ->
          Z.shiftr i 12 = OP_TRAP /\ Z.land i 0xFF = TRAP_HALT).
Proof.
  intros W P i w s. split.
  - apply exec_halt.
  - intros w' s'. apply exec_halted.
Qed.

Lemma only_halt_stops_the_loop_witness :
  exec 0xF025 console0 (boot not_image)
  = Done (Halted, console0,
          set_output (write_reg (boot not_image) R_R7 PC_START)
            (bytes_of_string ("HALT" ++ newline)))
  /\ Z.shiftr 0xF025 12 = OP_TRAP /\ Z.land 0xF025 0xFF = TRAP_HALT.
Proof.
  destruct (only_halt_stops_the_loop script _ 0xF025 console0 (boot not_image))
    as [Hhalt Honly].
  assert (Hrun : exec 0xF025 console0 (boot not_image)
                 = Done (Halted, console0,
                         set_output (write_reg (boot not_image) R_R7 PC_START)
                           (bytes_of_string ("HALT" ++ newline))))
    by exact (Hhalt eq_refl eq_refl).
  split; [exact Hrun | exact (Honly _ _ Hrun)].
Defined.

(** * The keyboard registers *)

Section Keyboard.

Context {W : Type} {P : Provider W}.

Lemma mem_read_kbsr_ready (w w1 w2 : W) (s : vm) (c : Z) :
  check_key w = (true, w1) -> getchar w1 = (c, w2) ->
  (mem_read MR_KBSR : M W Z) w s
  = Done (0x8000, w2,
          set_memory s (<[MR_KBDR := u16 c]> (<[MR_KBSR := 0x8000]> (memory s)))).
Proof.
  intros Hk Hg.
  unfold mem_read, poll_keyboard, mbind, vm_bind, host, mem_write, peek.
  simpl. rewrite Hk. simpl. rewrite Hg. simpl. unfold mem_at.
  rewrite lookup_insert_ne by done. by rewrite lookup_insert_eq.
Qed.

Lemma mem_read_kbsr_idle (w w1 : W) (s : vm) :
  check_key w = (false, w1) ->
  (mem_read MR_KBSR : M W Z) w s
  = Done (0, w1, set_memory s (<[MR_KBSR := 0]> (memory s))).
Proof.
  intros Hk.
  unfold mem_read, poll_keyboard, mbind, vm_bind, host, mem_write, peek.
  simpl. rewrite Hk. simpl. unfold mem_at. by rewrite lookup_insert_eq.
Qed.

End Keyboard.

(** X22. The keyboard protocol.  Reading the status register and then the
    data register yields the next character of the console when a key is
    ready, with the status word read as 0x8000; when no key is ready the
    status reads 0, nothing is taken from the console and the data register
    still reads what it held.  Every read of the status register with a key
    ready takes a character: after two such reads in a row the data
    register holds the second character, and the first is lost. *)
Theorem keyboard_poll_then_data :
  forall (W : Type) (P : Provider W) (w : W) (s : vm),
    (forall (w1 w2 : W) (c : Z),
        check_key w = (true, w1) -> getchar w1 = (c, w2) ->
        exists s' : vm,
          (status ← mem_read MR_KBSR; data ← mem_read MR_KBDR;
           mret (status, data)) w s
          = Done ((0x8000, u16 c), w2, s')
          /\ reg s' = reg s /\ output s' = output s)
    /\ (forall w1 : W,
          check_key w = (false, w1) ->
          exists s' : vm,
            (status ← mem_read MR_KBSR; data ← mem_read MR_KBDR;
             mret (status, data)) w s
            = Done ((0, mem_at (memory s) MR_KBDR), w1, s')
            /\ reg s' = reg s /\ output s' = output s)
    /\ (forall (w1 w2 w3 w4 : W) (c1 c2 : Z),
          check_key w = (true, w1) -> getchar w1 = (c1, w2) ->
          check_key w2 = (true, w3) -> getchar w3 = (c2, w4) ->
          exists s' : vm,
            (mem_read MR_KBSR;; mem_read MR_KBSR;; mem_read MR_KBDR) w s
            = Done (u16 c2, w4, s')).
Proof.
  intros W P w s. split; [| split].
  - intros w1 w2 c Hk Hg. eexists. split.
    + unfold mbind at 1, vm_bind at 1.
      rewrite (mem_read_kbsr_ready _ _ _ _ _ Hk Hg).
      unfold mbind at 1, vm_bind at 1.
      rewrite mem_read_plain by done. cbn [memory set_memory].
      rewrite mem_at_insert_eq. reflexivity.
    + done.
  - intros w1 Hk. eexists. split.
    + unfold mbind at 1, vm_bind at 1.
      rewrite (mem_read_kbsr_idle _ _ _ Hk).
      unfold mbind at 1, vm_bind at 1.
      rewrite mem_read_plain by done. cbn [memory set_memory].
      rewrite mem_at_insert_ne by done. reflexivity.
    + done.
  - intros w1 w2 w3 w4 c1 c2 Hk1 Hg1 Hk2 Hg2. eexists.
    unfold mbind at 1, vm_bind at 1.
    rewrite (mem_read_kbsr_ready _ _ _ _ _ Hk1 Hg1).
    unfold mbind at 1, vm_bind at 1.
    rewrite (mem_read_kbsr_ready _ _ _ _ _ Hk2 Hg2).
    rewrite mem_read_plain by done. cbn [memory set_memory].
    rewrite mem_at_insert_eq. reflexivity.
Qed.

Lemma keyboard_poll_then_data_witness :
  (exists s' : vm,
      (status ← mem_read MR_KBSR; data ← mem_read MR_KBDR;
       mret (status, data)) console0 (boot not_image)
      = Done ((0x8000, 0x41), {| keys := [false]; chars := [0x42] |}, s'))
  /\ (exists s' : vm,
        (mem_read MR_KBSR;; mem_read MR_KBSR;; mem_read MR_KBDR)
          {| keys := [true; true]; chars := [0x41; 0x42] |} (boot not_image)
        = Done (0x42, {| keys := []; chars := [] |}, s')).
Proof.
  destruct (keyboard_poll_then_data script script_provider console0
              (boot not_image)) as (Hready & _ & _).
  destruct (keyboard_poll_then_data script script_provider
              {| keys := [true; true]; chars := [0x41; 0x42] |}
              (boot not_image)) as (_ & _ & Htwice).
  split.
  - destruct (Hready {| keys := [false]; chars := [0x41; 0x42] |}
                {| keys := [false]; chars := [0x42] |} 0x41 eq_refl eq_refl)
      as (s' & Hrun & _).
    exists s'. exact Hrun.
  - exact (Htwice {| keys := [true]; chars := [0x41; 0x42] |}
             {| keys := [true]; chars := [0x42] |}
             {| keys := []; chars := [0x42] |}
             {| keys := []; chars := [] |} 0x41 0x42
             eq_refl eq_refl eq_refl eq_refl).
Defined.

(** * Loading an image *)

Lemma swap16_le_word (b0 b1 : Z) :
  0 <= b0 < 256 -> 0 <= b1 < 256 -> swap16 (le_word b0 b1) = 256 * b0 + b1.
Proof.
  intros H0 H1. rewrite swap16_value by (unfold is_word, le_word; lia).
  unfold le_word.
  replace ((b0 + 256 * b1) mod 256) with b0
    by (apply (Z.mod_unique _ 256 b1 b0); lia).
  replace ((b0 + 256 * b1) / 256) with b1
    by (apply (Z.div_unique _ 256 b1 b0); lia).
  reflexivity.
Qed.

Lemma fread_words_spec (n : nat) :
  forall (bytes ws rest : list Z),
    fread_words n bytes = (ws, rest) ->
    length ws = Nat.min n (length (be_words bytes))
    /\ rest = drop (2 * length ws) bytes
    /\ length bytes = (2 * length ws + length rest)%nat
    /\ ((length ws < n)%nat -> (length rest <= 1)%nat)
    /\ (Forall (fun b => 0 <= b < 256) bytes ->
        map swap16 ws = take (length ws) (be_words bytes)).
Proof.
  induction n as [| n IH]; intros bytes ws rest H.
  - simpl in H. inversion H; subst. simpl.
    repeat split; try lia; try done.
  - destruct bytes as [| b0 [| b1 bytes']].
    + simpl in H. inversion H; subst. simpl. repeat split; try lia; try done.
    + simpl in H. inversion H; subst. simpl. repeat split; try lia; try done.
    + cbn [fread_words] in H.
      destruct (fread_words n bytes') as [ws' rest'] eqn:E.
      inversion H; subst; clear H.
      destruct (IH _ _ _ E) as (Hlen & Hrest & Hbytes & Hshort & Hswap).
      cbn [be_words length]. rewrite Hlen.
      split; [lia |].
      split.
      { rewrite Hrest, Hlen.
        replace (2 * S (n `min` length (be_words bytes')))%nat
          with (S (S (2 * (n `min` length (be_words bytes')))))%nat by lia.
        reflexivity. }
      split; [rewrite Hlen in Hbytes; simpl; lia |].
      split; [intros Hlt; apply Hshort; lia |].
      intros Hall. inversion Hall as [| ? ? H0 Hall']; subst.
      inversion Hall' as [| ? ? H1 Hall'']; subst.
      cbn [map take]. rewrite swap16_le_word by done.
      rewrite <- Hlen. f_equal. by apply Hswap.
Qed.

Lemma store_words_lookup (ws : list Z) :
  forall (p a : Z) (m : gmap Z Z),
    store_words p ws m !! a
    = if decide (p <= a < p + Z.of_nat (length ws))
      then ws !! Z.to_nat (a - p) else m !! a.
Proof.
  induction ws as [| x ws IH]; intros p a m.
  - simpl. destruct (decide _); [lia | reflexivity].
  - cbn [store_words length]. rewrite IH.
    destruct (decide (p + 1 <= a < p + 1 + Z.of_nat (length ws))) as [Hin | Hout].
    + destruct (decide _) as [_ | Hn]; [| lia].
      replace (Z.to_nat (a - p)) with (S (Z.to_nat (a - (p + 1)))) by lia.
      reflexivity.
    + destruct (decide (p <= a < p + Z.of_nat (S (length ws)))) as [Hin' | Hout'].
      * assert (a = p) as -> by lia. rewrite lookup_insert_eq.
        replace (p - p) with 0 by lia. reflexivity.
      * apply lookup_insert_ne. lia.
Qed.

Lemma swap_loop_lookup (n : nat) :
  forall (p a : Z) (m : gmap Z Z),
    swap_loop n p m !! a
    = if decide (p <= a < p + Z.of_nat n)
      then Some (swap16 (mem_at m a)) else m !! a.
Proof.
  induction n as [| n IH]; intros p a m.
  - simpl. destruct (decide _); [lia | reflexivity].
  - cbn [swap_loop]. rewrite IH.
    destruct (decide (p + 1 <= a < p + 1 + Z.of_nat n)) as [Hin | Hout].
    + destruct (decide _) as [_ | Hn]; [| lia].
      rewrite mem_at_insert_ne by lia. reflexivity.
    + destruct (decide (p <= a < p + Z.of_nat (S n))) as [Hin' | Hout'].
      * assert (a = p) as -> by lia. by rewrite lookup_insert_eq.
      * apply lookup_insert_ne. lia.
Qed.

Lemma origin_word (b0 b1 : Z) :
  0 <= b0 < 256 -> 0 <= b1 < 256 ->
  0 <= 256 * b0 + b1 < 65536
  /\ u16 (MEMORY_MAX - (256 * b0 + b1))
     = if 256 * b0 + b1 =? 0 then 0 else 65536 - (256 * b0 + b1).
Proof.
  intros H0 H1. split; [lia |]. unfold u16, MEMORY_MAX.
  change (Z.shiftl 1 16) with 65536.
  destruct (Z.eqb_spec (256 * b0 + b1) 0) as [-> | Hne].
  - reflexivity.
  - apply Z.mod_small. lia.
Qed.

Lemma partial_word_is_word (old b : Z) :
  0 <= b < 256 -> is_word (partial_word old b).
Proof.
  intros Hb. unfold partial_word.
  assert (H : Z.lor (Z.land old 0xFF00) b mod 2 ^ 16
              = Z.lor (Z.land old 0xFF00) b).
  { rewrite <- Z.land_ones by lia. apply Z.bits_inj'. intros i Hi.
    rewrite Z.land_spec, Z.lor_spec, Z.land_spec.
    destruct (Z.ltb_spec i 16) as [Hlt | Hge].
    - rewrite Z.ones_spec_low by lia. by rewrite andb_true_r.
    - rewrite Z.ones_spec_high by lia. rewrite andb_false_r.
      replace (Z.testbit 0xFF00 i) with false.
      2:{ symmetry. apply (Z.bits_above_log2 0xFF00 i); [lia |].
          change (Z.log2 0xFF00) with 15. lia. }
      rewrite andb_false_r. simpl. symmetry.
      destruct (Z.eq_dec b 0) as [-> | Hnz]; [apply Z.bits_0 |].
      apply Z.bits_above_log2; [lia |].
      assert (Z.log2 b < 8) by (apply Z.log2_lt_pow2; lia). lia. }
  unfold is_word. rewrite <- H.
  pose proof (Z.mod_pos_bound (Z.lor (Z.land old 0xFF00) b) (2 ^ 16) eq_refl).
  change (2 ^ 16) with 65536 in *. lia.
Qed.

(** X23. [read_image_file] places a big-endian image.  The first two bytes
    of the file are the origin, high byte first; the following bytes are
    taken two at a time, high byte first, and stored in consecutive cells
    from the origin.  At most [65536 - origin] words are stored, so loading
    never goes past the last cell and never wraps to low addresses, and every
    cell outside the loaded range keeps its contents.  When the file ends in
    the middle of a word with room left, the odd byte replaces the low byte
    of the cell after the last word and is not swapped; otherwise that cell
    keeps its contents too.  An image whose origin is 0 loads nothing at
    all, because the word count [MEMORY_MAX - origin] is held in 16 bits.
    A file with no complete origin word leaves memory as it was.  Loading
    keeps every cell a 16-bit word. *)
Theorem read_image_file_places_big_endian_words :
  (forall m : gmap Z Z, read_image_file [] m = m)
  /\ (forall (b : Z) (m : gmap Z Z), read_image_file [b] m = m)
  /\ (forall (b0 b1 : Z) (payload : list Z) (m : gmap Z Z),
        Forall (fun b => 0 <= b < 256) (b0 :: b1 :: payload) ->
        let origin := 256 * b0 + b1 in
        let max_read := u16 (MEMORY_MAX - origin) in
        let words := be_words payload in
        let count := Z.min (Z.of_nat (length words)) max_read in
        let m' := read_image_file (b0 :: b1 :: payload) m in
        (forall k : Z,
            0 <= k < count -> m' !! (origin + k) = words !! Z.to_nat k)
        /\ (forall a : Z, ~ (origin <= a <= origin + count) -> m' !! a = m !! a)
        /\ (forall b : Z,
              Z.of_nat (length words) < max_read ->
              drop (2 * length words) payload = [b] ->
              m' !! (origin + count)
              = Some (partial_word (mem_at m (origin + count)) b))
        /\ (max_read <= Z.of_nat (length words)
            \/ length payload = (2 * length words)%nat ->
            m' !! (origin + count) = m !! (origin + count))
        /\ origin + count <= 65536
        /\ (origin = 0 -> m' = m)
        /\ (map_Forall (fun a v => is_word a /\ is_word v) m ->
            map_Forall (fun a v => is_word a /\ is_word v) m')).
Proof.
  split; [reflexivity |]. split; [reflexivity |].
  intros b0 b1 payload m Hbytes origin max_read words count m'.
  inversion Hbytes as [| ? ? H0 Hbytes']; subst.
  inversion Hbytes' as [| ? ? H1 Hpayload]; subst.
  destruct (origin_word b0 b1 H0 H1) as [Horigin Hmax].
  fold origin in Horigin, Hmax. fold max_read in Hmax.
  assert (Hmax0 : 0 <= max_read /\ origin + max_read <= 65536).
  { rewrite Hmax. destruct (Z.eqb_spec origin 0); lia. }
  subst m'. unfold read_image_file. cbn [fread_words].
  rewrite swap16_le_word by done. fold origin. cbv zeta. fold max_read.
  destruct (fread_words (Z.to_nat max_read) payload) as [ws rest'] eqn:E.
  destruct (fread_words_spec _ _ _ _ E)
    as (Hlen & Hrest & Hsplit & Hshort & Hswap).
  specialize (Hswap Hpayload). fold words in Hlen, Hswap.
  assert (Hcount : count = Z.of_nat (length ws)) by (unfold count; lia).
  rewrite Hcount.
  set (p := origin + Z.of_nat (length ws)).
  set (stored := store_words origin ws m).
  set (lone := if Z.of_nat (length ws) <? max_read then head rest' else None).
  set (stored' := match lone with
                  | Some b => <[p := partial_word (mem_at stored p) b]> stored
                  | None => stored
                  end).
  assert (Hlone : forall b, lone = Some b ->
            Z.of_nat (length ws) < max_read /\ 0 <= b < 256).
  { intros b. unfold lone.
    destruct (Z.ltb_spec (Z.of_nat (length ws)) max_read) as [Hlt | Hge];
      [| discriminate].
    intros Hb. split; [exact Hlt |].
    assert (Hall : Forall (fun b => 0 <= b < 256) rest')
      by (rewrite Hrest; by apply Forall_drop).
    destruct rest' as [| b' r]; [discriminate |]. simpl in Hb.
    inversion Hb; subst. by inversion Hall. }
  assert (Hstored : forall a : Z,
            ~ (origin <= a < p) -> stored !! a = m !! a).
  { intros a Ha. unfold stored. rewrite store_words_lookup.
    destruct (decide _) as [Hy | _]; [unfold p in Ha; lia | done]. }
  assert (Hin : forall a : Z,
            origin <= a < p ->
            exists x, ws !! Z.to_nat (a - origin) = Some x
              /\ words !! Z.to_nat (a - origin) = Some (swap16 x)
              /\ swap_loop (length ws) origin stored' !! a = Some (swap16 x)).
  { intros a Ha. rewrite swap_loop_lookup.
    destruct (decide _) as [_ | Hn]; [| unfold p in Ha; lia].
    assert (Hcell : mem_at stored' a = mem_at stored a).
    { unfold stored'. destruct lone; [| reflexivity].
      apply mem_at_insert_ne. lia. }
    rewrite Hcell. unfold mem_at, stored. rewrite store_words_lookup.
    destruct (decide _) as [_ | Hn]; [| unfold p in Ha; lia].
    destruct (ws !! Z.to_nat (a - origin)) as [x |] eqn:Ex.
    - exists x. split; [reflexivity |]. split; [| reflexivity].
      assert (Hk : map swap16 ws !! Z.to_nat (a - origin) = Some (swap16 x))
        by (by rewrite list_lookup_fmap, Ex).
      rewrite Hswap in Hk. rewrite lookup_take_lt in Hk by (unfold p in Ha; lia).
      exact Hk.
    - apply lookup_ge_None in Ex. unfold p in Ha. lia. }
  assert (Hat : swap_loop (length ws) origin stored' !! p
                = match lone with
                  | Some b => Some (partial_word (mem_at m p) b)
                  | None => m !! p
                  end).
  { rewrite swap_loop_lookup.
    destruct (decide _) as [Hy | _]; [unfold p in Hy; lia |].
    unfold stored'. destruct lone as [b |].
    - rewrite lookup_insert_eq. unfold mem_at. rewrite Hstored by lia. done.
    - apply Hstored. lia. }
  assert (Hout : forall a : Z,
            ~ (origin <= a <= p) ->
            swap_loop (length ws) origin stored' !! a = m !! a).
  { intros a Ha. rewrite swap_loop_lookup.
    destruct (decide _) as [Hy | _]; [unfold p in Ha; lia |].
    unfold stored'. destruct lone.
    - rewrite lookup_insert_ne by lia. apply Hstored. lia.
    - apply Hstored. lia. }
  split.
  { intros k Hk. destruct (Hin (origin + k)) as (x & _ & Hw & Hv);
      [unfold p; lia |].
    rewrite Hv, <- Hw. f_equal. lia. }
  split; [exact Hout |]. split.
  { intros b Hroom Hodd. fold p. rewrite Hat.
    assert (Hfull : length ws = length words) by lia.
    unfold lone. destruct (Z.ltb_spec (Z.of_nat (length ws)) max_read);
      [| lia].
    rewrite Hrest, Hfull, Hodd. reflexivity. }
  split.
  { intros Hwhole. fold p. rewrite Hat. unfold lone.
    destruct (Z.ltb_spec (Z.of_nat (length ws)) max_read) as [Hlt | Hge];
      [| reflexivity].
    destruct Hwhole as [Hfull | Heven]; [lia |].
    assert (length rest' = 0)%nat as Hnil by lia.
    destruct rest'; [reflexivity | discriminate]. }
  split; [lia |]. split.
  { intros Hzero. rewrite Hzero in Hmax. simpl in Hmax.
    apply map_eq. intros a. destruct (decide (a = p)) as [-> | Hne].
    - rewrite Hat. unfold lone.
      destruct (Z.ltb_spec (Z.of_nat (length ws)) max_read); [lia | done].
    - apply Hout. unfold p. lia. }
  intros Hm a v Hav.
  destruct (decide (origin <= a < p)) as [Hy | Hn].
  - destruct (Hin a Hy) as (x & _ & _ & Hx). rewrite Hx in Hav.
    inversion Hav; subst. split; [unfold is_word, p in *; lia | apply u16_is_word].
  - destruct (decide (a = p)) as [-> | Hne].
    + rewrite Hat in Hav. destruct lone as [b |] eqn:El.
      * destruct (Hlone b eq_refl) as [Hroom Hb]. inversion Hav; subst.
        split; [unfold is_word, p; lia | by apply partial_word_is_word].
      * by apply (Hm p v).
    + rewrite Hout in Hav by lia. by apply (Hm a v).
Qed.

Lemma read_image_file_places_big_endian_words_witness :
  read_image_file [0x30; 0x00; 0x12; 0x34; 0xF0; 0x25; 0xAB] ∅ !! 0x3000
  = Some 0x1234
  /\ read_image_file [0x30; 0x00; 0x12; 0x34; 0xF0; 0x25; 0xAB] ∅ !! 0x3001
     = Some 0xF025
  /\ read_image_file [0x30; 0x00; 0x12; 0x34; 0xF0; 0x25; 0xAB] ∅ !! 0x3002
     = Some 0x00AB.
Proof.
  destruct read_image_file_places_big_endian_words as (_ & _ & Hload).
  destruct (Hload 0x30 0x00 [0x12; 0x34; 0xF0; 0x25; 0xAB] ∅)
    as (Hin & _ & Hodd & _).
  - repeat constructor; lia.
  - split; [apply (Hin 0); vm_compute; split; [discriminate | reflexivity] |].
    split; [apply (Hin 1); vm_compute; split; [discriminate | reflexivity] |].
    apply (Hodd 0xAB); [vm_compute; reflexivity | reflexivity].
Defined.

(** * The whole program *)

Lemma load_images_all (fs : string -> option (list Z)) (paths : list string)
    (files : list (list Z)) :
  Forall2 (fun image_path file => fs image_path = Some file) paths files ->
  forall (rest : list string) (m : gmap Z Z),
    load_images fs (paths ++ rest) m
    = load_images fs rest (foldl (fun m file => read_image_file file m) m files).
Proof.
  induction 1 as [| image_path file paths files Hopen _ IH]; intros rest m;
    [reflexivity |].
  cbn [app load_images foldl]. unfold read_image. rewrite Hopen.
  cbn [Z.eqb]. apply IH.
Qed.



(** * LEA, and fetching from the keyboard register *)

Lemma exec_lea {W} {P : Provider W} (i : Z) :
  Z.shiftr i 12 = OP_LEA -> (exec i : M W status) = op_lea i.
Proof. intros H. unfold exec. by rewrite H. Qed.

(** X25. LEA loads an address, not a memory cell: the destination receives
    the incremented program counter plus the signed 9-bit offset, modulo
    2^16, and, in this machine, the flags become the sign of that address.
    Memory is not read (so the console is not polled even when the address
    is the keyboard status register), and the program counter, memory,
    output and the other general registers are unchanged. *)
Theorem lea_loads_the_address :
  forall (W : Type) (P : Provider W) (i : Z) (w : W) (s : vm),
    Z.shiftr i 12 = OP_LEA -> wf s ->
    exists s' : vm,
      exec i w s = Done (Running, w, s')
      /\ reg_at (reg s') (Z.land (Z.shiftr i 9) 0x7)
         = u16 (pc_of s + signed 9 (Z.land i 0x1FF))
      /\ cond_of s' = sign_flag (u16 (pc_of s + signed 9 (Z.land i 0x1FF)))
      /\ pc_of s' = pc_of s /\ memory s' = memory s /\ output s' = output s
      /\ (forall j : Z, 0 <= j <= 7 -> j <> Z.land (Z.shiftr i 9) 0x7 ->
            reg_at (reg s') j = reg_at (reg s) j).
Proof.
  intros W P i w s Hop Hwf.
  eexists. split.
  { rewrite (exec_lea _ Hop). unfold op_lea. cbv zeta.
    unfold mbind at 1, vm_bind at 1, rd at 1. fold (pc_of s).
    apply write_then_flags. }
  rewrite (add_sign_extend _ _ 9) by (lia || apply (low_field_range _ 9); lia).
  match goal with
  | |- context [write_reg (write_reg s ?r ?v) R_COND _] =>
      destruct (loaded_state s r v Hwf (field3_range _))
        as (Hv & Hc & Hpc & Hm & Ho & Hother)
  end.
  split; [exact Hv |]. split; [exact Hc |]. split; [exact Hpc |].
  split; [exact Hm |]. split; [exact Ho | exact Hother].
Qed.

Lemma lea_loads_the_address_witness :
  exists s' : vm,
    exec 0xE1FF console0 (write_reg (boot not_image) R_PC 0xFE01)
    = Done (Running, console0, s')
    /\ reg_at (reg s') R_R0 = 0xFE00
    /\ cond_of s' = FL_NEG.
Proof.
  destruct (lea_loads_the_address script _ 0xE1FF console0
              (write_reg (boot not_image) R_PC 0xFE01) eq_refl eq_refl)
    as (s' & Hrun & Hv & Hc & _).
  exists s'. split; [exact Hrun |]. split; [exact Hv | exact Hc].
Defined.

(** X26. The instruction fetch goes through [mem_read], so fetching from
    the keyboard status register polls the console: with a key ready the
    word fetched is 0x8000, the illegal opcode RTI, and the program aborts
    (having taken a character); with no key ready the word fetched is 0, a
    branch never taken, and the iteration only advances the program counter
    to 0xFE01 and leaves 0 in the status register. *)
Theorem fetch_from_keyboard_status :
  forall (W : Type) (P : Provider W) (w : W) (s : vm),
    pc_of s = MR_KBSR ->
    (forall (w1 w2 : W) (c : Z),
        check_key w = (true, w1) -> getchar w1 = (c, w2) ->
        step w s = Aborted)
    /\ (forall w1 : W,
          check_key w = (false, w1) ->
          step w s
          = Done (Running, w1,
                  set_memory (write_reg s R_PC (u16 (MR_KBSR + 1)))
                    (<[MR_KBSR := 0]> (memory s)))).
Proof.
  intros W P w s Hpc. split.
  - intros w1 w2 c Hk Hg. rewrite step_run.
    assert (Hfetch : fetch w s
              = Done (0x8000, w2,
                      set_memory (write_reg s R_PC (u16 (pc_of s + 1)))
                        (<[MR_KBDR := u16 c]>
                           (<[MR_KBSR := 0x8000]> (memory s))))).
    { unfold fetch. unfold mbind at 1, vm_bind at 1, rd at 1. fold (pc_of s).
      unfold mbind at 1, vm_bind at 1, wr at 1. rewrite Hpc.
      by rewrite (mem_read_kbsr_ready _ _ _ _ _ Hk Hg). }
    rewrite Hfetch. reflexivity.
  - intros w1 Hk. rewrite step_run.
    assert (Hfetch : fetch w s
              = Done (0, w1,
                      set_memory (write_reg s R_PC (u16 (pc_of s + 1)))
                        (<[MR_KBSR := 0]> (memory s)))).
    { unfold fetch. unfold mbind at 1, vm_bind at 1, rd at 1. fold (pc_of s).
      unfold mbind at 1, vm_bind at 1, wr at 1. rewrite Hpc.
      by rewrite (mem_read_kbsr_idle _ _ _ Hk). }
    rewrite Hfetch, Hpc. change (Z.shiftr 0 12) with OP_BR.
    rewrite (exec_br 0 eq_refl), op_br_run. reflexivity.
Qed.

Lemma fetch_from_keyboard_status_witness :
  step console0 (write_reg (boot not_image) R_PC MR_KBSR) = Aborted
  /\ step {| keys := [false]; chars := [0x41] |}
       (write_reg (boot not_image) R_PC MR_KBSR)
     = Done (Running, {| keys := []; chars := [0x41] |},
             set_memory
               (write_reg (write_reg (boot not_image) R_PC MR_KBSR) R_PC
                  (u16 (MR_KBSR + 1)))
               (<[MR_KBSR := 0]> not_image)).
Proof.
  destruct (fetch_from_keyboard_status script script_provider console0
              (write_reg (boot not_image) R_PC MR_KBSR) eq_refl)
    as [Hready _].
  destruct (fetch_from_keyboard_status script script_provider
              {| keys := [false]; chars := [0x41] |}
              (write_reg (boot not_image) R_PC MR_KBSR) eq_refl)
    as [_ Hidle].
  split.
  - exact (Hready {| keys := [false]; chars := [0x41; 0x42] |}
             {| keys := [false]; chars := [0x42] |} 0x41 eq_refl eq_refl).
  - exact (Hidle {| keys := []; chars := [0x41] |} eq_refl).
Defined.
